(** * Mixminion: packet construction, payload decoding and the MMTP server

    A shallow embedding of [lib/mixminion/BuildMessage.py], of the
    reactor and server connection of [lib/mixminion/server/MMTPServer.py],
    of the event counters of [lib/mixminion/server/EventStats.py] and of
    [fixCommandToken] of [lib/mixminion/Main.py], with the properties the
    specification states about them and further properties of the code.

    Python byte strings are [list byte]; integers are [Z] or [nat];
    exceptions are values of [exn] carried by [result]; objects that are
    mutated in place (random number generators, the reactor, a
    connection) are explicit state.  The modules the two files import but
    that are not part of this development ([mixminion.Crypto],
    [mixminion.Packet], [mixminion.Fragments], [mixminion.ServerInfo],
    [mixminion.TLSConnection]) are interfaces: type classes whose fields
    are the functions used. *)

From Stdlib Require Import ZArith Lia.
From Stdlib Require Import Strings.Byte HexadecimalString.
From stdpp Require Import base list strings pretty gmap.

#[local] Open Scope nat_scope.

(** ** Byte strings *)

Abbreviation bytes := (list byte).

#[global] Instance byte_eq_dec : EqDecision byte := Byte.byte_eq_dec.

(** A string literal of the source, as the bytes it denotes. *)
Definition lit (s : string) : bytes := String.list_byte_of_string s.

(** ** Exceptions *)

(** Modelled from the spec: the error kinds of section 7.  The classes are
    declared in [mixminion.Common], [mixminion.Crypto] and
    [mixminion.Packet]; there every error class of the package derives
    from [MixError], which is what [except MixError] tests. *)
Inductive exn_class :=
  | MixError | UIError | CryptoError | ParseError
  | AssertionError | IndexError | TypeError | ValueError | AttributeError.

#[global] Instance exn_class_eq_dec : EqDecision exn_class.
Proof. solve_decision. Defined.

Record exn := Exn { exn_cls : exn_class; exn_msg : string }.

#[global] Instance exn_eq_dec : EqDecision exn.
Proof. solve_decision. Defined.

Definition isinstance_MixError (e : exn) : bool :=
  match exn_cls e with
  | MixError | UIError | CryptoError | ParseError => true
  | _ => false
  end.

Definition isinstance_CryptoError (e : exn) : bool :=
  match exn_cls e with
  | CryptoError => true
  | _ => false
  end.

Inductive result (A : Type) :=
  | Ok (a : A)
  | Raise (e : exn).
Arguments Ok {A} a.
Arguments Raise {A} e.

#[global] Instance result_ret : MRet result := λ A a, Ok a.
#[global] Instance result_bind : MBind result := λ A B k r,
  match r with
  | Ok a => k a
  | Raise e => Raise e
  end.
#[global] Instance result_fmap : FMap result := λ A B f r,
  match r with
  | Ok a => Ok (f a)
  | Raise e => Raise e
  end.
#[global] Instance result_throw : MThrow exn result := λ A e, Raise e.

Definition is_Ok {A} (r : result A) : bool :=
  match r with Ok _ => true | Raise _ => false end.

(** ** Python primitives on byte strings *)

(** [s[i]] for an index that may be negative. *)
Definition pyindex (s : bytes) (i : Z) : result byte :=
  let n := Z.of_nat (length s) in
  let j := if (i <? 0)%Z then (n + i)%Z else i in
  if (j <? 0)%Z || (n <=? j)%Z then Raise (Exn IndexError "string index out of range")
  else match s !! Z.to_nat j with
       | Some c => Ok c
       | None => Raise (Exn IndexError "string index out of range")
       end.

(** The position a slice bound denotes in a string of length [n]. *)
Definition slice_bound (n : nat) (i : Z) : nat :=
  if (i <? 0)%Z then Z.to_nat (Z.max 0 (Z.of_nat n + i))
  else Nat.min n (Z.to_nat i).

(** [s[lo:hi]]; [None] is an omitted bound. *)
Definition slice (s : bytes) (lo hi : option Z) : bytes :=
  let n := length s in
  let a := from_option (slice_bound n) 0 lo in
  let b := from_option (slice_bound n) n hi in
  take (b - a) (drop a s).

Definition ord (c : byte) : Z := Z.of_N (Byte.to_N c).

(** [ord(s)] of a string: defined on strings of length one only. *)
Definition ord_str (s : bytes) : result Z :=
  match s with
  | [c] => Ok (ord c)
  | _ => Raise (Exn TypeError "ord() expected a character")
  end.

Definition chr (z : Z) : result byte :=
  if (z <? 0)%Z then Raise (Exn ValueError "chr() arg not in range(256)")
  else match Byte.of_N (Z.to_N z) with
       | Some c => Ok c
       | None => Raise (Exn ValueError "chr() arg not in range(256)")
       end.

(** ["%s" % n] for an integer. *)
Definition str_of_int (n : Z) : string := pretty n.

(** ["%x" % n]: the digits of [n] to the base 16 in lower case, after a
    minus sign when [n] is negative. *)
Definition format_x (n : Z) : string :=
  NilZero.string_of_int (Z.to_hex_int n).

(** ["%4x" % n]: [format_x n] moved to the right of a field of four
    characters. *)
Definition format_4x (n : Z) : string :=
  let s := format_x n in
  String.concat EmptyString (replicate (4 - String.length s) " "%string) +:+ s.

(** The two hexadecimal digits of a byte, in lower case. *)
Definition hex2 (c : byte) : bytes :=
  let digit (d : Z) : byte :=
    default "0"%byte
      (String.list_byte_of_string "0123456789abcdef" !! Z.to_nat d) in
  [digit (ord c `div` 16)%Z; digit (ord c `mod` 16)%Z].

(** [repr(s)] of a byte string, as Python 2 writes it: in single quotes,
    or in double quotes when the string holds a single quote and no
    double quote; a backslash before the quote in use and before a
    backslash; tab, newline and carriage return as [\t], [\n] and
    [\r]; any other byte below the space or above the tilde as [\x] and
    two digits. *)
Definition repr (s : bytes) : bytes :=
  let quote : byte :=
    if bool_decide (x27 ∈ s) && negb (bool_decide (x22 ∈ s)) then x22 else x27 in
  let escape (c : byte) : bytes :=
    if bool_decide (c = quote) || bool_decide (c = x5c) then [x5c; c]
    else if bool_decide (c = x09) then [x5c; "t"%byte]
    else if bool_decide (c = x0a) then [x5c; "n"%byte]
    else if bool_decide (c = x0d) then [x5c; "r"%byte]
    else if (ord c <? 32)%Z || (127 <=? ord c)%Z then [x5c; "x"%byte] ++ hex2 c
    else [c] in
  [quote] ++ (s ≫= escape) ++ [quote].

(** ** Constants of [mixminion.Packet] *)

(** [len(s)]: Python integers are [Z]. *)
Definition len (s : bytes) : Z := Z.of_nat (length s).

(** Modelled from the spec: the sizes section 3 gives as numbers. *)
Definition DIGEST_LEN : Z := 20.
Definition SECRET_LEN : Z := 16.
Definition TAG_LEN : Z := 20.
Definition HEADER_LEN : Z := 2048.
Definition PAYLOAD_LEN : Z := 28 * 1024.
Definition PACKET_LEN : Z := 32768.
Definition SINGLETON_PAYLOAD_OVERHEAD : Z := 22.
Definition FRAGMENT_MESSAGEID_LEN : Z := 20.
Definition MIN_EXIT_TYPE : Z := 0x100.

(** The constants the spec names without a value are parameters.  The
    spec prints 42 for [ENC_FWD_OVERHEAD]; the closing assertion of
    [buildEncryptedForwardPacket] holds for
    [OAEP_OVERHEAD - TAG_LEN + SECRET_LEN] only, so it stays a parameter
    too and no result below depends on its value. *)
Class PacketConsts := {
  OAEP_OVERHEAD : Z;
  MIN_SUBHEADER_LEN : Z;
  ENC_SUBHEADER_LEN : Z;
  ENC_FWD_OVERHEAD : Z;
  MAJOR_NO : Z;
  MINOR_NO : Z;
  DROP_TYPE : Z;
  SWAP_FWD_HOST_TYPE : Z;
}.

(** ** Payloads, subheaders, packets and reply blocks *)

(** [SingletonPayload(size, hash, data)]; the hash is [None] until
    [computeHash] fills it in. *)
Record SingletonPayload := mkSingleton {
  sp_size : Z;
  sp_hash : option bytes;
  sp_data : bytes;
}.

(** [FragmentPayload(index, hash, msgID, msgLen, data)]. *)
Record FragmentPayload := mkFragment {
  fp_index : Z;
  fp_hash : option bytes;
  fp_msgID : bytes;
  fp_msgLen : Z;
  fp_data : bytes;
}.

Inductive Payload :=
  | Singleton (p : SingletonPayload)
  | Fragment (p : FragmentPayload).

(** [Subheader(major, minor, secret, digest, routingtype, routinginfo)]. *)
Record Subheader := mkSubheader {
  sh_major : Z;
  sh_minor : Z;
  sh_secret : bytes;
  sh_digest : option bytes;
  sh_routingtype : Z;
  sh_routinginfo : bytes;
}.

Definition set_digest (sh : Subheader) (d : bytes) : Subheader :=
  mkSubheader (sh_major sh) (sh_minor sh) (sh_secret sh) (Some d)
    (sh_routingtype sh) (sh_routinginfo sh).

(** [ReplyBlock(header, useBy, rt, ri, key)], with the field names the
    builder reads back. *)
Record ReplyBlock := mkReplyBlock {
  rb_header : bytes;
  rb_timestamp : Z;
  rb_routingType : Z;
  rb_routingInfo : bytes;
  rb_encryptionKey : bytes;
}.

(** The methods of [mixminion.Packet] the builder and the decoder call. *)
Class PacketFormat := {
  parsePayload : bytes → result Payload;
  SingletonPayload_computeHash : SingletonPayload → SingletonPayload;
  SingletonPayload_pack : SingletonPayload → bytes;
  FragmentPayload_computeHash : FragmentPayload → FragmentPayload;
  FragmentPayload_pack : FragmentPayload → bytes;
  Subheader_getUnderflowLength : Subheader → Z;
  Subheader_getOverflow : Subheader → bytes;
  Subheader_pack : Subheader → bytes;
}.

(** Modelled from the spec: [Packet(h1, h2, p).pack()] is the fixed
    concatenation header1, header2, payload of section 3. *)
Definition Packet_pack (header1 header2 payload : bytes) : bytes :=
  header1 ++ header2 ++ payload.

(** ** [mixminion.Crypto] *)

Inductive key_mode :=
  | HEADER_SECRET_MODE
  | HEADER_ENCRYPT_MODE
  | PAYLOAD_ENCRYPT_MODE
  | RANDOM_JUNK_MODE
  | END_TO_END_ENCRYPT_MODE.

(** The deterministic primitives.  [rng_state] is the internal state of a
    random number generator object, [rng_getBytes] its [getBytes] method
    as a transition, [AESCounterPRNG] the constructor from a seed. *)
Class Crypto := {
  sha1 : bytes → bytes;
  lioness_keys : Type;
  Keyset_getLionessKeys : bytes → key_mode → lioness_keys;
  Keyset_get : bytes → key_mode → bytes;
  lioness_encrypt : bytes → lioness_keys → bytes;
  lioness_decrypt : bytes → lioness_keys → bytes;
  lioness_keys_from_payload : bytes → lioness_keys;
  lioness_keys_from_header : bytes → lioness_keys;
  ctr_crypt : bytes → bytes → Z → bytes;
  prng : bytes → Z → bytes;
  rng_state : Type;
  rng_getBytes : rng_state → Z → bytes * rng_state;
  AESCounterPRNG : bytes → rng_state;
  rsa_key : Type;
  get_modulus_bytes : rsa_key → Z;
  pk_decrypt : bytes → rsa_key → result bytes;
}.

(** ** Message decoding ([BuildMessage.py], lines 364-496) *)

(** The shapes [decodePayload] accepts for [userKeys]: [None], a single
    key, a dict (given by its [items()], in iteration order) or a
    sequence of (name, key) pairs. *)
Inductive userKeys_arg :=
  | UserKeys_None
  | UserKeys_Str (key : bytes)
  | UserKeys_Dict (items : list (string * bytes))
  | UserKeys_Seq (pairs : list (string * bytes)).

(** What a loop body with a [return] in it leaves behind: the value
    returned, or the loop ran to its end. *)
Inductive loop_exit (A : Type) :=
  | Returned (a : A)
  | Completed.
Arguments Returned {A} a.
Arguments Completed {A}.

Section Decoding.
Context `{Crypto} `{PacketFormat}.

(** [[rng.getBytes(k) for _ in range(n)]] on a generator in state [st]. *)
Fixpoint getBytes_n (st : rng_state) (n : nat) (k : Z) : list bytes * rng_state :=
  match n with
  | O => ([], st)
  | S n' =>
      let '(s, st') := rng_getBytes st k in
      let '(ss, st'') := getBytes_n st' n' k in
      (s :: ss, st'')
  end.

Definition _checkPayload (payload : bytes) : result bool :=
  c ← pyindex payload 0;
  if bool_decide (Z.land (ord c) 0x80 ≠ 0)%Z then
    mret (bool_decide (slice payload (Some 3%Z) (Some 23%Z)
                       = sha1 (slice payload (Some 23%Z) None)))
  else
    mret (bool_decide (slice payload (Some 2%Z) (Some 22%Z)
                       = sha1 (slice payload (Some 22%Z) None))).

Definition _decodeForwardPayload (payload : bytes) : result Payload :=
  ok ← _checkPayload payload;
  if negb ok then mthrow (Exn MixError "Hash doesn't match")
  else parsePayload payload.

Definition _decodeEncryptedForwardPayload (payload tag : bytes) (key : rsa_key)
  : result (option Payload) :=
  if negb (len tag =? TAG_LEN)%Z then mthrow (Exn AssertionError "") else
  if negb (len payload =? PAYLOAD_LEN)%Z then mthrow (Exn AssertionError "") else
  let msg := tag ++ payload in
  match pk_decrypt (slice msg None (Some (get_modulus_bytes key))) key with
  | Raise e => if isinstance_CryptoError e then mret None else Raise e
  | Ok rsaPart =>
      let rest := slice msg (Some (get_modulus_bytes key)) None in
      let k := Keyset_getLionessKeys (slice rsaPart None (Some SECRET_LEN))
                 END_TO_END_ENCRYPT_MODE in
      let rest := slice rsaPart (Some SECRET_LEN) None ++ lioness_decrypt rest k in
      ok ← _checkPayload rest;
      if negb ok then
        mthrow (Exn MixError "Invalid checksum on encrypted forward payload")
      else Some <$> parsePayload rest
  end.

(** The bytes [_decodeEncryptedForwardPayload] hands to [_checkPayload]
    once RSA decryption has given [rsaPart]. *)
Definition efwd_plaintext (payload tag : bytes) (key : rsa_key) (rsaPart : bytes)
  : bytes :=
  let msg := tag ++ payload in
  let rest := slice msg (Some (get_modulus_bytes key)) None in
  let k := Keyset_getLionessKeys (slice rsaPart None (Some SECRET_LEN))
             END_TO_END_ENCRYPT_MODE in
  slice rsaPart (Some SECRET_LEN) None ++ lioness_decrypt rest k.

(** The RSA block of an encrypted forward message: the first
    [modulus_bytes] bytes of tag and payload. *)
Definition efwd_rsa_block (payload tag : bytes) (key : rsa_key) : bytes :=
  slice (tag ++ payload) None (Some (get_modulus_bytes key)).

(** The [for sec in secrets] loop of [_decodeReplyPayload]: the payload
    it returns from inside the loop, or the payload it ends with. *)
Fixpoint _decodeReplyPayload_for (payload : bytes) (secrets : list bytes)
    (check : bool) : result (Payload + bytes) :=
  match secrets with
  | [] => mret (inr payload)
  | sec :: secrets' =>
      let k := Keyset_getLionessKeys sec PAYLOAD_ENCRYPT_MODE in
      let payload := lioness_encrypt payload k in
      if check then
        ok ← _checkPayload payload;
        if (ok : bool) then inl <$> parsePayload payload
        else _decodeReplyPayload_for payload secrets' check
      else _decodeReplyPayload_for payload secrets' check
  end.

Definition _decodeReplyPayload (payload : bytes) (secrets : list bytes)
    (check : bool) : result Payload :=
  r ← _decodeReplyPayload_for payload secrets check;
  match r with
  | inl p => mret p
  | inr payload =>
      if check then mthrow (Exn MixError "Invalid checksum on reply payload")
      else
        ok ← _checkPayload payload;
        if negb ok then mthrow (Exn MixError "Invalid checksum on reply payload")
        else parsePayload payload
  end.

Definition _decodeStatelessReplyPayload (payload tag userKey : bytes)
  : result Payload :=
  let seed := slice (sha1 (tag ++ userKey ++ lit "Generate")) None (Some 16%Z) in
  let prng := AESCounterPRNG seed in
  let secrets := (getBytes_n prng 17 SECRET_LEN).1 in
  _decodeReplyPayload payload secrets true.

(** [Crypto.sha1(tag+userKey+"Validate")[-1] == '\x00']. *)
Definition validate_test (tag userKey : bytes) : result bool :=
  c ← pyindex (sha1 (tag ++ userKey ++ lit "Validate")) (-1);
  mret (bool_decide (c = x00)).

(** The [for name,userKey in userKeys] loop of [decodePayload], with the
    list [retNym] it may append to. *)
Fixpoint decodePayload_for (payload tag : bytes) (userKeys : list (string * bytes))
    (retNym : option (list string))
  : result (loop_exit Payload) * option (list string) :=
  match userKeys with
  | [] => (mret Completed, retNym)
  | (name, userKey) :: userKeys' =>
      match validate_test tag userKey with
      | Raise e => (Raise e, retNym)
      | Ok true =>
          match _decodeStatelessReplyPayload payload tag userKey with
          | Ok p => (mret (Returned p), (λ l, l ++ [name]) <$> retNym)
          | Raise e =>
              if isinstance_MixError e
              then decodePayload_for payload tag userKeys' retNym
              else (Raise e, retNym)
          end
      | Ok false => decodePayload_for payload tag userKeys' retNym
      end
  end.

(** The list of (name, key) pairs [decodePayload] makes of [userKeys]. *)
Definition userKeys_list (userKeys : userKeys_arg) : list (string * bytes) :=
  match userKeys with
  | UserKeys_None => []
  | UserKeys_Str k => [(""%string, k)]
  | UserKeys_Dict items => items
  | UserKeys_Seq pairs => pairs
  end.

Definition decodePayload (payload tag : bytes) (key : option rsa_key)
    (userKeys : userKeys_arg) (retNym : option (list string))
  : result (option Payload) * option (list string) :=
  let userKeys := userKeys_list userKeys in
  if bool_decide (len payload ≠ PAYLOAD_LEN) then
    (mthrow (Exn MixError "Wrong payload length"), retNym)
  else if negb (bool_decide (len tag = 0%Z) || bool_decide (len tag = TAG_LEN)) then
    (mthrow (Exn MixError ("Wrong tag length: " +:+ str_of_int (len tag))), retNym)
  else
    match _checkPayload payload with
    | Raise e => (Raise e, retNym)
    | Ok true => (Some <$> parsePayload payload, retNym)
    | Ok false =>
        if bool_decide (tag = []) then (mret None, retNym)
        else
          match decodePayload_for payload tag userKeys retNym with
          | (Raise e, retNym') => (Raise e, retNym')
          | (Ok (Returned p), retNym') => (mret (Some p), retNym')
          | (Ok Completed, retNym') =>
              match key with
              | Some key =>
                  match _decodeEncryptedForwardPayload payload tag key with
                  | Raise e => (Raise e, retNym')
                  | Ok (Some p) => (mret (Some p), retNym')
                  | Ok None => (mret None, retNym')
                  end
              | None => (mret None, retNym')
              end
          end
    end.

End Decoding.

(** ** The state the builders act on *)

(** A reference to a random number generator object.  The padding and
    secret generators a builder is given may be one and the same object,
    or the shared generator [Crypto.getCommonPRNG()]; generator objects
    therefore live in a store and are passed by reference. *)
Inductive rng_ref :=
  | CommonPRNG
  | TrueRNG
  | LocalRNG (i : nat).

Record World `{Crypto} := mkWorld {
  w_common : rng_state;                (* Crypto.getCommonPRNG() *)
  w_true : rng_state;                  (* Crypto.getTrueRNG() *)
  w_objs : list rng_state;             (* generators created by the program *)
  w_status : list (string * bytes);    (* lines handed to STATUS.log *)
}.
Arguments mkWorld {_} _ _ _ _.

(** Computations that read and advance the world and may raise.  The
    world an exception leaves behind is kept: a generator that was
    advanced before the exception stays advanced. *)
Definition M `{Crypto} (A : Type) : Type := World → result A * World.

#[global] Instance M_ret `{Crypto} : MRet M := λ A a w, (Ok a, w).
#[global] Instance M_bind `{Crypto} : MBind M := λ A B k m w,
  match m w with
  | (Ok a, w') => k a w'
  | (Raise e, w') => (Raise e, w')
  end.
#[global] Instance M_fmap `{Crypto} : FMap M := λ A B f m w,
  match m w with
  | (Ok a, w') => (Ok (f a), w')
  | (Raise e, w') => (Raise e, w')
  end.
#[global] Instance M_throw `{Crypto} : MThrow exn M := λ A e w, (Raise e, w).

(** A pure computation that may raise, inside [M]. *)
Definition lift `{Crypto} {A} (r : result A) : M A := λ w, (r, w).

(** [assert c]. *)
Definition assert `{Crypto} (c : bool) : M unit :=
  if c then mret () else mthrow (Exn AssertionError "").

Definition assert_pure (c : bool) : result unit :=
  if c then mret () else mthrow (Exn AssertionError "").

(** [l[:-1]] on a list. *)
Definition slice_list_drop_last {A} (l : list A) : list A :=
  take (length l - 1) l.

(** [l[i]] on a list. *)
Definition list_index {A} (l : list A) (i : nat) : result A :=
  match l !! i with
  | Some a => Ok a
  | None => Raise (Exn IndexError "list index out of range")
  end.

Section Generators.
Context `{Crypto}.

(** [rng.getBytes(n)] through a reference.  A [LocalRNG] that the store
    does not hold cannot come out of [new_AESCounterPRNG]; the model
    raises there. *)
Definition getBytes (rng : rng_ref) (n : Z) : M bytes := λ w,
  match rng with
  | CommonPRNG =>
      let '(s, st) := rng_getBytes (w_common w) n in
      (Ok s, mkWorld st (w_true w) (w_objs w) (w_status w))
  | TrueRNG =>
      let '(s, st) := rng_getBytes (w_true w) n in
      (Ok s, mkWorld (w_common w) st (w_objs w) (w_status w))
  | LocalRNG i =>
      match w_objs w !! i with
      | Some st0 =>
          let '(s, st) := rng_getBytes st0 n in
          (Ok s, mkWorld (w_common w) (w_true w) (<[i:=st]> (w_objs w)) (w_status w))
      | None => (Raise (Exn ValueError "no such generator"), w)
      end
  end.

(** [Crypto.AESCounterPRNG(seed)]: a new generator object. *)
Definition new_AESCounterPRNG (seed : bytes) : M rng_ref := λ w,
  (Ok (LocalRNG (length (w_objs w))),
   mkWorld (w_common w) (w_true w) (w_objs w ++ [AESCounterPRNG seed]) (w_status w)).

(** [STATUS.log(key, value)]. *)
Definition STATUS_log (key : string) (value : bytes) : M unit := λ w,
  (Ok (), mkWorld (w_common w) (w_true w) (w_objs w) (w_status w ++ [(key, value)])).

(** [[rng.getBytes(k) for _ in range(n)]] through a reference. *)
Fixpoint getBytes_list (rng : rng_ref) (n : nat) (k : Z) : M (list bytes) :=
  match n with
  | O => mret []
  | S n' =>
      s ← getBytes rng k;
      ss ← getBytes_list rng n' k;
      mret (s :: ss)
  end.

(** [paddingPRNG] when the caller left it out. *)
Definition default_prng (rng : option rng_ref) : rng_ref :=
  from_option id CommonPRNG rng.

Definition _getRandomTag (rng : rng_ref) : M bytes :=
  s ← getBytes rng 1;
  o ← lift (ord_str s);
  let b := Z.land o 0x7f in
  c ← lift (chr b);
  t ← getBytes rng (TAG_LEN - 1);
  mret (c :: t).

End Generators.

(** The randomised part of [mixminion.Crypto]: RSA encryption under
    OAEP draws its padding seed from a generator of the world. *)
Class PKEncrypt `{Crypto} := {
  pk_encrypt : bytes → rsa_key → M bytes;
}.

(** ** [mixminion.ServerInfo] and [mixminion.Fragments] *)

Class ServerInfoAPI `{Crypto} := {
  ServerInfo : Type;
  getRoutingFor : ServerInfo → ServerInfo → bool → Z * bytes;
  getPacketKey : ServerInfo → rsa_key;
  supportsPacketVersion : ServerInfo → bool;
  getNickname : ServerInfo → string;
  getValidUntil : ServerInfo → Z;
  getMMTPHostInfo_pack : ServerInfo → bytes;
}.

(** [FragmentationParams(length, overhead)] with the fields and the
    method [encodeMessage] uses, and [compressData]. *)
Class FragmentsAPI `{Crypto} := {
  compressData : bytes → bytes;
  FragmentationParams : Type;
  new_FragmentationParams : Z → Z → result FragmentationParams;
  fparams_n : FragmentationParams → Z;
  fparams_nChunks : FragmentationParams → Z;
  fparams_length : FragmentationParams → Z;
  getFragments : FragmentationParams → bytes → M (list bytes);
}.

(** A reference to a generator that the world holds. *)
Definition live `{Crypto} (rng : rng_ref) (w : World) : Prop :=
  match rng with
  | LocalRNG i => is_Some (w_objs w !! i)
  | _ => True
  end.

(** [formatBase64] of [mixminion.Common], which [buildReplyBlock] uses
    for the line it hands to the status log. *)
Class CommonAPI := {
  formatBase64 : bytes → bytes;
}.

(** ** Message encoding and packet construction ([BuildMessage.py]) *)

(** Calls to [log] leave no trace in the model, and neither does the
    [print] in [checkPathLength]. *)

Section Building.
Context `{Crypto} `{!PKEncrypt} `{!ServerInfoAPI} `{!FragmentsAPI}
        `{PacketConsts} `{PacketFormat} `{CommonAPI}.

Definition overhead_ok (overhead : Z) : bool :=
  bool_decide (overhead = 0%Z) || bool_decide (overhead = ENC_FWD_OVERHEAD).

Definition getNPacketsToEncode (message : bytes) (overhead : Z)
    (uncompressedFragmentPrefix : bytes) : result Z :=
  assert_pure (overhead_ok overhead);;
  let compressedLen := len (compressData message) in
  let paddingLen :=
    (PAYLOAD_LEN - SINGLETON_PAYLOAD_OVERHEAD - overhead - compressedLen)%Z in
  if (0 <=? paddingLen)%Z then mret 1%Z
  else
    let compressedLen :=
      match uncompressedFragmentPrefix with
      | [] => compressedLen
      | _ => (compressedLen + len uncompressedFragmentPrefix)%Z
      end in
    p ← new_FragmentationParams compressedLen overhead;
    mret (fparams_n p * fparams_nChunks p)%Z.

Definition encodeMessage (message : bytes) (overhead : Z)
    (uncompressedFragmentPrefix : bytes) (paddingPRNG : option rng_ref)
  : M (list bytes) :=
  assert (overhead_ok overhead);;
  let paddingPRNG := default_prng paddingPRNG in
  let payload := compressData message in
  let length := len payload in
  let paddingLen :=
    (PAYLOAD_LEN - SINGLETON_PAYLOAD_OVERHEAD - overhead - length)%Z in
  if (0 <=? paddingLen)%Z then
    pad ← getBytes paddingPRNG paddingLen;
    let payload := payload ++ pad in
    let p := mkSingleton length None payload in
    let p := SingletonPayload_computeHash p in
    mret [SingletonPayload_pack p]
  else
    let payload :=
      match uncompressedFragmentPrefix with
      | [] => payload
      | _ => uncompressedFragmentPrefix ++ payload
      end in
    messageid ← getBytes CommonPRNG FRAGMENT_MESSAGEID_LEN;
    p ← lift (new_FragmentationParams (len payload) overhead);
    rawFragments ← getFragments p payload;
    mret (imap (λ i frag,
            let pyld := mkFragment (Z.of_nat i) None messageid (fparams_length p) frag in
            FragmentPayload_pack (FragmentPayload_computeHash pyld))
          rawFragments).

Definition buildRandomPayload (paddingPRNG : option rng_ref) : M bytes :=
  getBytes (default_prng paddingPRNG) PAYLOAD_LEN.

(** *** Routing sizes *)

(** [path[i].getRoutingFor(path[i+1], swap=0)] for [i] up to
    [len(path)-2]. *)
Fixpoint hop_routing (path : list ServerInfo) : list (Z * bytes) :=
  match path with
  | a :: (b :: _) as rest => getRoutingFor a b false :: hop_routing rest
  | _ => []
  end.

(** [reduce(operator.add, sizes)]. *)
Definition reduce_add (sizes : list Z) : result Z :=
  match sizes with
  | [] => Raise (Exn TypeError "reduce() of empty sequence with no initial value")
  | x :: xs => Ok (foldl Z.add x xs)
  end.

Definition subheader_size (r : Z * bytes) : Z :=
  (len r.2 + OAEP_OVERHEAD + MIN_SUBHEADER_LEN)%Z.

Definition _getRouting (path : list ServerInfo) (exitType : Z) (exitInfo : bytes)
  : result (list (Z * bytes) * list Z * Z) :=
  let routing := hop_routing path ++ [(exitType, exitInfo)] in
  let sizes := subheader_size <$> routing in
  totalSize ← reduce_add sizes;
  if (HEADER_LEN <? totalSize)%Z then
    mthrow (Exn MixError "Routing info won't fit in header")
  else
    let padding := (HEADER_LEN - totalSize)%Z in
    last_size ← list_index sizes (length sizes - 1);
    if (padding + last_size <? ENC_SUBHEADER_LEN)%Z then
      mthrow (Exn MixError "Routing info won't fit in header")
    else mret (routing, sizes, totalSize).

(** The sizes [_getRouting] computes, their sum, and the condition under
    which the routing does not fit: the sum exceeds [HEADER_LEN], or the
    padding and the last size together fall short of
    [ENC_SUBHEADER_LEN]. *)
Definition routing_sizes (path : list ServerInfo) (exitType : Z) (exitInfo : bytes)
  : list Z :=
  subheader_size <$> (hop_routing path ++ [(exitType, exitInfo)]).

Definition total_size (sizes : list Z) : Z := foldr Z.add 0%Z sizes.

Definition header_too_big (path : list ServerInfo) (exitType : Z) (exitInfo : bytes)
  : Prop :=
  let total := total_size (routing_sizes path exitType exitInfo) in
  (HEADER_LEN < total
   ∨ HEADER_LEN - total + subheader_size (exitType, exitInfo) < ENC_SUBHEADER_LEN)%Z.

(** [try: body / except MixError: handler]. *)
Definition except_MixError {A} (body : result A) (handler : result A) : result A :=
  match body with
  | Ok a => Ok a
  | Raise e => if isinstance_MixError e then handler else Raise e
  end.

Definition checkPathLength (path1 : option (list ServerInfo))
    (path2 : option (list ServerInfo + ReplyBlock))
    (exitType : option Z) (exitInfo : option bytes)
    (explicitSwap suppressTag : bool) : result unit :=
  err ← match path1, path2 with
        | Some path1, Some path2 =>
            except_MixError
              (last1 ← list_index path1 (length path1 - 1);
               first2 ← match path2 with
                        | inl path2 => list_index path2 0
                        | inr _ => Raise (Exn TypeError "unsubscriptable object")
                        end;
               let '(rt, ri) := getRoutingFor last1 first2 true in
               _getRouting path1 rt ri;;
               mret 0%Z)
              (mret 1%Z)
        | _, _ => mret 0%Z
        end;
  let exitInfo :=
    match exitInfo with
    | Some exitInfo =>
        if negb suppressTag then exitInfo ++ replicate 20 "X"%byte else []
    | None => []
    end in
  err ← (if bool_decide (err = 0%Z) then
           match path2 with
           | Some (inl (s :: path2')) =>
               except_MixError
                 (_getRouting (s :: path2') (default 0%Z exitType) exitInfo;; mret 0%Z)
                 (mret 2%Z)
           | _ => mret 0%Z
           end
         else mret err);
  if bool_decide (err ≠ 0%Z) && negb explicitSwap then
    mthrow (Exn UIError "Address and path will not fit in one header")
  else if bool_decide (err = 1%Z) then
    mthrow (Exn UIError "Address and first leg of path will not fit in one header")
  else if bool_decide (err ≠ 0%Z) then
    mthrow (Exn UIError "Address and second leg of path will not fit in one header")
  else mret ().

(** *** Headers *)

(** The junk loop of [_buildHeader] over [zip(secrets, headerKeys, sizes)]:
    [junkSeen] grows by one string per hop. *)
Fixpoint junk_loop (junkSeen : list bytes) (hops : list (bytes * bytes * Z))
  : list bytes :=
  match hops with
  | [] => junkSeen
  | (secret, headerKey, size) :: hops' =>
      let prngKey := Keyset_get secret RANDOM_JUNK_MODE in
      let newJunk := prng prngKey size in
      let lastJunk := default [] (last junkSeen) in
      let nextJunk := lastJunk ++ newJunk in
      let startIdx := (HEADER_LEN - ENC_SUBHEADER_LEN - len lastJunk)%Z in
      let nextJunk := ctr_crypt nextJunk headerKey startIdx in
      junk_loop (junkSeen ++ [nextJunk]) hops'
  end.

(** [zip(a, b, c)]. *)
Definition zip3 {A B C} (a : list A) (b : list B) (c : list C) : list (A * B * C) :=
  zip (zip a b) c.

(** One round of the subheader loop of [_buildHeader], for hop [i]. *)
Definition _buildHeader_hop (path : list ServerInfo) (secrets : list bytes)
    (routing : list (Z * bytes)) (headerKeys junkSeen : list bytes)
    (header : bytes) (i : nat) : M bytes :=
  '(rt, ri) ← lift (list_index routing i);
  secret ← lift (list_index secrets i);
  let subhead := mkSubheader MAJOR_NO MINOR_NO secret None rt ri in
  let underflowLength := Subheader_getUnderflowLength subhead in
  let '(underflow, header) :=
    if (0 <? underflowLength)%Z
    then (slice header None (Some underflowLength),
          slice header (Some underflowLength) None)
    else ([], header) in
  let header := Subheader_getOverflow subhead ++ header in
  headerKey ← lift (list_index headerKeys i);
  let header := ctr_crypt header headerKey 0 in
  junk ← lift (list_index junkSeen i);
  let subhead := set_digest subhead (sha1 (header ++ junk)) in
  info ← lift (list_index path i);
  let pubkey := getPacketKey info in
  let rsaPart := Subheader_pack subhead ++ underflow in
  esh ← pk_encrypt rsaPart pubkey;
  mret (esh ++ header).

(** [for i in idxs: header = round(header, i)]. *)
Fixpoint _buildHeader_for (path : list ServerInfo) (secrets : list bytes)
    (routing : list (Z * bytes)) (headerKeys junkSeen : list bytes)
    (header : bytes) (idxs : list nat) : M bytes :=
  match idxs with
  | [] => mret header
  | i :: idxs' =>
      header ← _buildHeader_hop path secrets routing headerKeys junkSeen header i;
      _buildHeader_for path secrets routing headerKeys junkSeen header idxs'
  end.

(** The first server of [path] that supports no known packet format. *)
Definition unsupported_server (path : list ServerInfo) : option ServerInfo :=
  head (filter (λ info, supportsPacketVersion info = false) path).

Definition _buildHeader (path : list ServerInfo) (secrets : list bytes)
    (exitType : Z) (exitInfo : bytes) (paddingPRNG : rng_ref) : M bytes :=
  assert (bool_decide (length path = length secrets));;
  match unsupported_server path with
  | Some info =>
      mthrow (Exn MixError ("Server " +:+ getNickname info +:+
                            " does not support any recognized packet format."))
  | None =>
      '(routing, sizes, totalSize) ← lift (_getRouting path exitType exitInfo);
      if (HEADER_LEN <? totalSize)%Z then
        mthrow (Exn MixError "Path cannot fit in header")
      else
        let headerKeys := (λ secret, Keyset_get secret HEADER_SECRET_MODE) <$> secrets in
        let paddingLen := (HEADER_LEN - totalSize)%Z in
        let junkSeen := junk_loop [[]] (zip3 secrets headerKeys sizes) in
        header ← getBytes paddingPRNG paddingLen;
        _buildHeader_for path secrets routing headerKeys junkSeen header
          (reverse (seq 0 (length path)))
  end.

(** *** Assembling the packet *)

(** [for secret in secrets: payload = lioness_encrypt(payload, keys)]. *)
Fixpoint encrypt_payload_for (secrets : list bytes) (payload : bytes) : bytes :=
  match secrets with
  | [] => payload
  | secret :: secrets' =>
      let key := Keyset_getLionessKeys secret PAYLOAD_ENCRYPT_MODE in
      encrypt_payload_for secrets' (lioness_encrypt payload key)
  end.

(** The closing loop of [_constructMessage] over the reversed [secrets1]. *)
Fixpoint encrypt_leg1_for (secrets : list bytes) (header2 payload : bytes)
  : bytes * bytes :=
  match secrets with
  | [] => (header2, payload)
  | secret :: secrets' =>
      let hkey := Keyset_getLionessKeys secret HEADER_ENCRYPT_MODE in
      let pkey := Keyset_getLionessKeys secret PAYLOAD_ENCRYPT_MODE in
      encrypt_leg1_for secrets' (lioness_encrypt header2 hkey)
        (lioness_encrypt payload pkey)
  end.

Definition _constructMessage (secrets1 : list bytes) (secrets2 : option (list bytes))
    (header1 header2 payload : bytes) : result bytes :=
  assert_pure (bool_decide (len payload = PAYLOAD_LEN));;
  assert_pure (bool_decide (len header1 = len header2)
               && bool_decide (len header2 = HEADER_LEN));;
  let payload :=
    match secrets2 with
    | Some (s :: secrets2') => encrypt_payload_for (reverse (s :: secrets2')) payload
    | _ => payload
    end in
  let key := lioness_keys_from_payload payload in
  let header2 := lioness_encrypt header2 key in
  let key := lioness_keys_from_header header2 in
  let payload := lioness_encrypt payload key in
  let '(header2, payload) := encrypt_leg1_for (reverse secrets1) header2 payload in
  mret (Packet_pack header1 header2 payload).

Definition _buildPacket (payload : bytes) (exitType : option Z)
    (exitInfo : option bytes) (path1 : list ServerInfo)
    (path2 : list ServerInfo + ReplyBlock) (paddingPRNG : option rng_ref)
    (paranoia suppressTag : bool) : M bytes :=
  assert (bool_decide (len payload = PAYLOAD_LEN));;
  match path2 with
  | inr reply =>
      lift (checkPathLength (Some path1) None exitType exitInfo false suppressTag);;
      let paddingPRNG := default_prng paddingPRNG in
      let secretRNG := if paranoia then TrueRNG else paddingPRNG in
      let path1exittype := rb_routingType reply in
      let path1exitinfo := rb_routingInfo reply in
      secrets1 ← getBytes_list secretRNG (length path1) SECRET_LEN;
      let header2 := rb_header reply in
      header1 ← _buildHeader path1 secrets1 path1exittype path1exitinfo paddingPRNG;
      lift (_constructMessage secrets1 None header1 header2 payload)
  | inl path2 =>
      match exitInfo, exitType with
      | None, _ => mthrow (Exn TypeError "object of type 'NoneType' has no len()")
      | Some exitInfo, exitType =>
          (if (len exitInfo <? TAG_LEN)%Z && negb suppressTag then
             mthrow (Exn MixError ("Implausibly short exit info: " +:+
                                   String.string_of_list_byte (repr exitInfo)))
           else mret ());;
          exitType ← match exitType with
                     | Some t => mret t
                     | None => mthrow (Exn TypeError "%x format: a number is required")
                     end;
          (if (exitType <? MIN_EXIT_TYPE)%Z && bool_decide (exitType ≠ DROP_TYPE) then
             mthrow (Exn MixError ("Invalid exit type: " +:+ format_4x exitType))
           else mret ());;
          lift (checkPathLength (Some path1) (Some (inl path2)) (Some exitType)
                  (Some exitInfo) true suppressTag);;
          let paddingPRNG := default_prng paddingPRNG in
          let secretRNG := if paranoia then TrueRNG else paddingPRNG in
          last1 ← lift (list_index path1 (length path1 - 1));
          first2 ← lift (list_index path2 0);
          let '(path1exittype, path1exitinfo) := getRoutingFor last1 first2 true in
          secrets1 ← getBytes_list secretRNG (length path1) SECRET_LEN;
          secrets2 ← getBytes_list secretRNG (length path2) SECRET_LEN;
          header2 ← _buildHeader path2 secrets2 exitType exitInfo paddingPRNG;
          header1 ← _buildHeader path1 secrets1 path1exittype path1exitinfo paddingPRNG;
          lift (_constructMessage secrets1 (Some secrets2) header1 header2 payload)
      end
  end.

(** *** The three kinds of packet *)

Definition buildForwardPacket (payload : bytes) (exitType : Z) (exitInfo : bytes)
    (path1 path2 : list ServerInfo) (paddingPRNG : option rng_ref)
    (suppressTag : bool) : M bytes :=
  let paddingPRNG := default_prng paddingPRNG in
  if bool_decide (path1 = []) then
    mthrow (Exn MixError "First leg of path is empty")
  else if bool_decide (path2 = []) then
    mthrow (Exn MixError "Second leg of path is empty")
  else
    assert (bool_decide (len payload = PAYLOAD_LEN));;
    exitInfo ← (if negb suppressTag then
                  tag ← _getRandomTag paddingPRNG;
                  mret (tag ++ exitInfo)
                else mret exitInfo);
    _buildPacket payload (Some exitType) (Some exitInfo) path1 (inl path2)
      (Some paddingPRNG) false suppressTag.

(** The most significant bit of the first byte of a string. *)
Definition msb_clear (s : bytes) : Prop :=
  ∃ c rest, s = c :: rest ∧ Z.land (ord c) 0x80 = 0%Z.

Definition msb_set (s : bytes) : Prop :=
  ∃ c rest, s = c :: rest ∧ Z.land (ord c) 0x80 ≠ 0%Z.

(** The loop [while 1: encrypted = pk_encrypt(rsaPart, key); if not
    (ord(encrypted[0]) & 0x80): break] run for at most [fuel] rounds:
    [Some encrypted] when it left through [break], [None] when the
    rounds are used up with the loop still running. *)
Fixpoint encrypt_until_msb_clear (fuel : nat) (rsaPart : bytes) (key : rsa_key)
  : M (option bytes) :=
  match fuel with
  | O => mret None
  | S fuel' =>
      encrypted ← pk_encrypt rsaPart key;
      c ← lift (pyindex encrypted 0);
      if bool_decide (Z.land (ord c) 0x80 = 0)%Z then mret (Some encrypted)
      else encrypt_until_msb_clear fuel' rsaPart key
  end.

Definition buildEncryptedForwardPacket (fuel : nat) (payload : bytes) (exitType : Z)
    (exitInfo : bytes) (path1 path2 : list ServerInfo) (key : rsa_key)
    (paddingPRNG secretRNG : option rng_ref) : M (option bytes) :=
  let paddingPRNG := default_prng paddingPRNG in
  let secretRNG := from_option id paddingPRNG secretRNG in
  assert (bool_decide (len payload = PAYLOAD_LEN - ENC_FWD_OVERHEAD)%Z);;
  sessionKey ← getBytes secretRNG SECRET_LEN;
  let payload := sessionKey ++ payload in
  let rsaDataLen := (get_modulus_bytes key - OAEP_OVERHEAD)%Z in
  let rsaPart := slice payload None (Some rsaDataLen) in
  let lionessPart := slice payload (Some rsaDataLen) None in
  r ← encrypt_until_msb_clear fuel rsaPart key;
  match r with
  | None => mret None
  | Some encrypted =>
      let k := Keyset_getLionessKeys sessionKey END_TO_END_ENCRYPT_MODE in
      let lionessPart := lioness_encrypt lionessPart k in
      let payload := encrypted ++ lionessPart in
      let tag := slice payload None (Some TAG_LEN) in
      let payload := slice payload (Some TAG_LEN) None in
      let exitInfo := tag ++ exitInfo in
      assert (bool_decide (len payload = 28 * 1024)%Z);;
      Some <$> _buildPacket payload (Some exitType) (Some exitInfo) path1 (inl path2)
                 (Some paddingPRNG) false false
  end.

Definition buildReplyPacket (payload : bytes) (path1 : list ServerInfo)
    (replyBlock : ReplyBlock) (paddingPRNG : option rng_ref) : M bytes :=
  assert (bool_decide (len payload = PAYLOAD_LEN));;
  let k := Keyset_getLionessKeys (rb_encryptionKey replyBlock) PAYLOAD_ENCRYPT_MODE in
  let payload := lioness_decrypt payload k in
  _buildPacket payload None None path1 (inr replyBlock) None false false.

(** *** Reply blocks *)

(** [min(l)]. *)
Definition py_min (l : list Z) : result Z :=
  match l with
  | [] => Raise (Exn ValueError "min() arg is an empty sequence")
  | x :: xs => Ok (foldl Z.min x xs)
  end.

Definition _buildReplyBlockImpl (path : list ServerInfo) (exitType : Z)
    (exitInfo : bytes) (expiryTime : option Z) (secretPRNG : option rng_ref)
    (tag : option bytes) : M (ReplyBlock * list bytes * bytes) :=
  let secretPRNG := default_prng secretPRNG in
  expiryTime ← match expiryTime with
               | Some t => mret t
               | None => lift (py_min (getValidUntil <$> path))
               end;
  lift (checkPathLength None (Some (inl path)) (Some exitType) (Some exitInfo)
          false false);;
  secrets ← getBytes_list secretPRNG (length path + 1) SECRET_LEN;
  let headerSecrets := reverse (slice_list_drop_last secrets) in
  sharedKey ← lift (list_index secrets (length secrets - 1));
  tag ← match tag with
        | Some tag => mret tag
        | None => _getRandomTag secretPRNG
        end;
  header ← _buildHeader path headerSecrets exitType (tag ++ exitInfo) CommonPRNG;
  first ← lift (list_index path 0);
  mret (mkReplyBlock header expiryTime SWAP_FWD_HOST_TYPE
          (getMMTPHostInfo_pack first) sharedKey, secrets, tag).

(** The loop of [buildReplyBlock] that draws tags until
    [sha1(seed+userKey+"Validate")] ends in a zero byte, for at most
    [fuel] rounds. *)
Fixpoint find_seed (fuel : nat) (secretRNG : rng_ref) (userKey : bytes)
  : M (option bytes) :=
  match fuel with
  | O => mret None
  | S fuel' =>
      seed ← _getRandomTag secretRNG;
      ok ← lift (validate_test seed userKey);
      if (ok : bool) then mret (Some seed)
      else find_seed fuel' secretRNG userKey
  end.

Definition buildReplyBlock (fuel : nat) (path : list ServerInfo) (exitType : Z)
    (exitInfo userKey : bytes) (expiryTime : option Z)
    (secretRNG : option rng_ref) : M (option ReplyBlock) :=
  let secretRNG := default_prng secretRNG in
  r ← find_seed fuel secretRNG userKey;
  match r with
  | None => mret None
  | Some seed =>
      prng ← new_AESCounterPRNG
               (slice (sha1 (seed ++ userKey ++ lit "Generate")) None (Some 16%Z));
      '(replyBlock, secrets, tag) ←
        _buildReplyBlockImpl path exitType exitInfo expiryTime (Some prng) (Some seed);
      STATUS_log "GENERATED_SURB" (formatBase64 tag);;
      mret (Some replyBlock)
  end.

End Building.

(** ** The reactor ([MMTPServer.py], [SelectAsyncServer] and
       [PollAsyncServer]) *)

(** What the reactor needs from outside: the type of timeouts (floating
    seconds in the source), the product [timeout*1000], the value of
    [int(n * TICK_INTERVAL)] for a bandwidth [n], [EINTR], the bits of
    the [select] module, and the [Connection] objects with their
    [process] method as a transition. *)
Class ReactorEnv := {
  Time : Type;
  times_1000 : Time → Time;
  int_times_TICK_INTERVAL : Z → Z;
  EINTR : Z;
  POLLIN : Z;
  POLLOUT : Z;
  POLLERR : Z;
  POLLHUP : Z;
  Connection : Type;
  Connection_process :
    Connection → Z → Z → Z → option Z → (Z * Z * bool * Z) * Connection;
  Connection_getStatus : Connection → Z * Z * bool;
  Connection_fileno : Connection → Z;
}.

(** What the kernel answers to a wait. *)
Inductive wait_result (A : Type) :=
  | Ready (a : A)
  | select_error (errno : Z).
Arguments Ready {A} a.
Arguments select_error {A} errno.

Section Reactor.
Context `{ReactorEnv}.

(** What the reactor does to the outside, in order. *)
Inductive effect :=
  | Sleep (timeout : Time)
  | Select (readfds writefds exfds : list Z) (timeout : Time)
  | Poll (timeout : Time)
  | PollRegister (fd mask : Z)
  | PollUnregister (fd : Z)
  | Process (fd r w x : Z) (cap : option Z).

(** How the call ended. *)
Inductive ending :=
  | Returns
  | Raises (cls : string).

Record AsyncServer := mkServer {
  _timeout : option Z;
  connections : gmap Z Connection;
  state : gmap Z (Z * Z);
  bandwidthPerTick : option Z;
  bucket : option Z;
  maxBucket : option Z;
}.

Definition set_bucket (b : option Z) (s : AsyncServer) : AsyncServer :=
  mkServer (_timeout s) (connections s) (state s) (bandwidthPerTick s) b (maxBucket s).

Definition set_tables (cs : gmap Z Connection) (st : gmap Z (Z * Z))
    (s : AsyncServer) : AsyncServer :=
  mkServer (_timeout s) cs st (bandwidthPerTick s) (bucket s) (maxBucket s).

(** [__init__]. *)
Definition new_server : AsyncServer :=
  mkServer None ∅ ∅ None None None.

Definition setBandwidth (n : option Z) (maxBucket_arg : option Z) (s : AsyncServer)
  : AsyncServer :=
  match n with
  | None =>
      mkServer (_timeout s) (connections s) (state s) None (bucket s) None
  | Some n =>
      let bwpt := int_times_TICK_INTERVAL n in
      match maxBucket_arg with
      | None =>
          mkServer (_timeout s) (connections s) (state s) (Some bwpt) (bucket s)
            (Some (bwpt * 5)%Z)
      | Some mb =>
          mkServer (_timeout s) (connections s) (state s) (Some bwpt) (bucket s)
            (Some mb)
      end
  end.

(** [a > b] where [b] may be [None], which Python 2 orders below every
    number. *)
Definition gt_opt (a : Z) (b : option Z) : bool :=
  match b with
  | Some b => (b <? a)%Z
  | None => true
  end.

Definition tick (s : AsyncServer) : AsyncServer :=
  match bandwidthPerTick s with
  | None => set_bucket None s
  | Some bwpt =>
      let b := (default 0%Z (bucket s) + bwpt)%Z in
      if gt_opt b (maxBucket s) then set_bucket (maxBucket s) s
      else set_bucket (Some b) s
  end.

(** [bucket is not None and bucket <= 0]. *)
Definition bucket_empty (s : AsyncServer) : bool :=
  match bucket s with
  | Some b => (b <=? 0)%Z
  | None => false
  end.

(** [cap]: [None] without a limit, else [floorDiv(bucket, n)] for the
    [n] connections that are ready; [n] is not zero where it is used. *)
Definition cap_for (s : AsyncServer) (n : nat) : option Z :=
  (λ b, b `div` Z.of_nat n)%Z <$> bucket s.

(** [if cap is not None: self.bucket -= nbytes]. *)
Definition charge (cap : option Z) (nbytes : Z) (s : AsyncServer) : AsyncServer :=
  match cap with
  | Some _ => set_bucket ((λ b, b - nbytes)%Z <$> bucket s) s
  | None => s
  end.

(** The loop [for c,r,w,fd in active] of [SelectAsyncServer.process]. *)
Fixpoint select_dispatch (active : list (Connection * Z * Z * Z)) (cap : option Z)
    (s : AsyncServer) : ending * AsyncServer * list effect :=
  match active with
  | [] => (Returns, s, [])
  | (c, r, w, fd) :: active' =>
      let '((wr, ww, isopen, nbytes), c') := Connection_process c r w 0 cap in
      let s := charge cap nbytes s in
      let s := set_tables (<[fd:=c']> (connections s)) (state s) s in
      let eff := Process fd r w 0 cap in
      if negb isopen then
        let s1 := set_tables (delete fd (connections s)) (state s) s in
        match state s !! fd with
        | None => (Raises "KeyError", s1, [eff])
        | Some _ =>
            let s2 := set_tables (connections s1) (delete fd (state s1)) s1 in
            let '(e, s', effs) := select_dispatch active' cap s2 in
            (e, s', eff :: effs)
        end
      else
        let s1 := set_tables (connections s) (<[fd:=(wr, ww)]> (state s)) s in
        let '(e, s', effs) := select_dispatch active' cap s1 in
        (e, s', eff :: effs)
  end.

Definition Z_of_bool (b : bool) : Z := if b then 1%Z else 0%Z.

(** [SelectAsyncServer.process(timeout)]; [kernel] is what
    [select.select] answers when it is called.  The items of a dict come
    in the order [map_to_list] gives. *)
Definition process (timeout : Time)
    (kernel : list Z → list Z → list Z → wait_result (list Z * list Z * list Z))
    (s : AsyncServer) : ending * AsyncServer * list effect :=
  let items := map_to_list (state s) in
  let readfds := (λ it, it.1) <$> filter (λ it, it.2.1 ≠ 0%Z) items in
  let exfds := (λ it, it.1) <$> filter (λ it, it.2.2 = 2%Z) items in
  let writefds := (λ it, it.1) <$> filter (λ it, it.2.2 ≠ 0%Z) items in
  if bool_decide (readfds = [] ∧ writefds = [] ∧ exfds = []) then
    (Returns, s, [Sleep timeout])
  else if bucket_empty s then
    (Returns, s, [Sleep timeout])
  else
    let sel := Select readfds writefds exfds timeout in
    match kernel readfds writefds exfds with
    | select_error errno =>
        if bool_decide (errno = EINTR) then (Returns, s, [sel])
        else (Raises "select.error", s, [sel])
    | Ready (readfds, writefds, exfds) =>
        let writefds := writefds ++ exfds in
        let active :=
          omap (λ '(fd, c),
                  let r := bool_decide (fd ∈ readfds) in
                  let w := bool_decide (fd ∈ writefds) in
                  if negb (r || w) then None
                  else Some (c, Z_of_bool r, Z_of_bool w, fd))
               (map_to_list (connections s)) in
        match active with
        | [] => (Returns, s, [sel])
        | _ =>
            let cap := cap_for s (length active) in
            let '(e, s', effs) := select_dispatch active cap s in
            (e, s', sel :: effs)
        end
    end.

(** [PollAsyncServer.EVENT_MASK[wr,ww]]. *)
Definition EVENT_MASK (wr ww : Z) : option Z :=
  match wr, ww with
  | 0, 0 => Some 0
  | 1, 0 => Some (POLLIN + POLLERR)
  | 0, 1 => Some (POLLOUT + POLLERR)
  | 0, 2 => Some (POLLOUT + POLLERR)
  | 1, 1 => Some (POLLIN + POLLOUT + POLLERR)
  | 1, 2 => Some (POLLIN + POLLOUT + POLLERR)
  | _, _ => None
  end%Z.

(** The loop [for fd, mask in events] of [PollAsyncServer.process]. *)
Fixpoint poll_dispatch (events : list (Z * Z)) (cap : option Z)
    (s : AsyncServer) : ending * AsyncServer * list effect :=
  match events with
  | [] => (Returns, s, [])
  | (fd, mask) :: events' =>
      match connections s !! fd with
      | None => (Raises "KeyError", s, [])
      | Some c =>
          let r := Z.land mask POLLIN in
          let w := Z.land mask POLLOUT in
          let x := Z.land mask (Z.lor POLLERR POLLHUP) in
          let '((wr, ww, isopen, n), c') := Connection_process c r w x cap in
          let s := charge cap n s in
          let eff := Process fd r w x cap in
          if negb isopen then
            let s1 := set_tables (delete fd (connections s)) (state s) s in
            let '(e, s', effs) := poll_dispatch events' cap s1 in
            (e, s', eff :: PollUnregister fd :: effs)
          else
            let s1 := set_tables (<[fd:=c']> (connections s)) (state s) s in
            match EVENT_MASK wr ww with
            | None => (Raises "KeyError", s1, [eff])
            | Some m =>
                let '(e, s', effs) := poll_dispatch events' cap s1 in
                (e, s', eff :: PollRegister fd m :: effs)
            end
      end
  end.

(** [PollAsyncServer.process(timeout)]; [kernel] is what [poll.poll]
    answers when it is called. *)
Definition poll_process (timeout : Time) (kernel : wait_result (list (Z * Z)))
    (s : AsyncServer) : ending * AsyncServer * list effect :=
  if bucket_empty s then (Returns, s, [Sleep timeout])
  else
    let pl := Poll (times_1000 timeout) in
    match kernel with
    | select_error errno =>
        if bool_decide (errno = EINTR) then (Returns, s, [pl])
        else (Raises "select.error", s, [pl])
    | Ready events =>
        match events with
        | [] => (Returns, s, [pl])
        | _ =>
            let cap := cap_for s (length events) in
            let '(e, s', effs) := poll_dispatch events cap s in
            (e, s', pl :: effs)
        end
    end.

End Reactor.

(** ** The server side of MMTP ([MMTPServer.py], [MMTPServerConnection]) *)

Definition CRLF : bytes := [x0d; x0a].
Definition SEND_CONTROL : bytes := lit "SEND" ++ CRLF.
Definition JUNK_CONTROL : bytes := lit "JUNK" ++ CRLF.
Definition RECEIVED_CONTROL : bytes := lit "RECEIVED" ++ CRLF.
Definition REJECTED_CONTROL : bytes := lit "REJECTED" ++ CRLF.
Definition SEND_CONTROL_LEN : Z := len SEND_CONTROL.
Definition RECEIVED_CONTROL_LEN : Z := len RECEIVED_CONTROL.

Definition MESSAGE_LEN : Z := 6 + Z.shiftl 1 15 + 20.

(** The callbacks a connection invokes, as a record of the calls. *)
Inductive callback :=
  | packetConsumer (pkt : bytes)
  | junkCallback
  | rejectCallback.

(** Modelled from the spec: the part of [TLSConnection] that
    [onDataRead] uses (section 4.5.2).  [inbuf] holds the bytes received
    and not yet consumed, [getInbuf(n, clear=1)] takes the first [n] of
    them, [beginWriting(s)] queues [s] for output and [startShutdown()]
    starts closing the connection. *)
Record MMTPServerConnection := mkConnection {
  inbuf : bytes;
  rejectPackets : bool;
  written : list bytes;
  shutdown_started : bool;
  called : list callback;
}.

Definition inbuflen (c : MMTPServerConnection) : Z := len (inbuf c).

Definition getInbuf (n : Z) (c : MMTPServerConnection) : bytes * MMTPServerConnection :=
  (slice (inbuf c) None (Some n),
   mkConnection (slice (inbuf c) (Some n) None) (rejectPackets c) (written c)
     (shutdown_started c) (called c)).

Definition beginWriting (s : bytes) (c : MMTPServerConnection) : MMTPServerConnection :=
  mkConnection (inbuf c) (rejectPackets c) (written c ++ [s]) (shutdown_started c)
    (called c).

Definition startShutdown (c : MMTPServerConnection) : MMTPServerConnection :=
  mkConnection (inbuf c) (rejectPackets c) (written c) true (called c).

Definition call (f : callback) (c : MMTPServerConnection) : MMTPServerConnection :=
  mkConnection (inbuf c) (rejectPackets c) (written c) (shutdown_started c)
    (called c ++ [f]).

(** The connection once the message at the head of the buffer is taken. *)
Definition after_message (rest : bytes) (c : MMTPServerConnection)
  : MMTPServerConnection :=
  mkConnection rest (rejectPackets c) (written c) (shutdown_started c) (called c).

Section MMTPServer.
Context `{Crypto}.

(** One round of the [while] loop of [onDataRead]: the connection after
    it, and whether the loop goes on ([false] after a [return]). *)
Definition onDataRead_round (c : MMTPServerConnection) : MMTPServerConnection * bool :=
  let '(data, c) := getInbuf MESSAGE_LEN c in
  let control := slice data None (Some SEND_CONTROL_LEN) in
  let pkt := slice data (Some SEND_CONTROL_LEN) (Some (- DIGEST_LEN)%Z) in
  let digest := slice data (Some (- DIGEST_LEN)%Z) None in
  let chosen :=
    if bool_decide (control = JUNK_CONTROL) then
      Some (sha1 (pkt ++ lit "JUNK"), sha1 (pkt ++ lit "RECEIVED JUNK"),
            RECEIVED_CONTROL, true)
    else if bool_decide (control = SEND_CONTROL) then
      if rejectPackets c then
        Some (sha1 (pkt ++ lit "SEND"), sha1 (pkt ++ lit "REJECTED"),
              REJECTED_CONTROL, false)
      else
        Some (sha1 (pkt ++ lit "SEND"), sha1 (pkt ++ lit "RECEIVED"),
              RECEIVED_CONTROL, false)
    else None in
  match chosen with
  | None => (startShutdown c, false)
  | Some (expectedDigest, replyDigest, replyControl, isJunk) =>
      if bool_decide (expectedDigest ≠ digest) then (startShutdown c, false)
      else
        let c :=
          if (isJunk : bool) then call junkCallback c
          else if rejectPackets c then call rejectCallback c
          else call (packetConsumer pkt) c in
        (beginWriting (replyControl ++ replyDigest) c, true)
  end.

(** [while self.inbuflen >= self.MESSAGE_LEN: ...], for at most [fuel]
    rounds. *)
Fixpoint onDataRead_while (fuel : nat) (c : MMTPServerConnection)
  : option MMTPServerConnection :=
  if (MESSAGE_LEN <=? inbuflen c)%Z then
    match fuel with
    | O => None
    | S fuel' =>
        let '(c', continue) := onDataRead_round c in
        if continue then onDataRead_while fuel' c' else Some c'
    end
  else Some c.

(** [onDataRead()]: every round consumes [MESSAGE_LEN] bytes of the
    buffer, so as many rounds as the buffer has bytes are enough. *)
Definition onDataRead (c : MMTPServerConnection) : option MMTPServerConnection :=
  onDataRead_while (length (inbuf c)) c.

End MMTPServer.

(** ** What a well-formed peer sends *)

(** What a peer puts on the wire: link padding or a packet. *)
Inductive sent :=
  | SentJunk (pkt : bytes)
  | SentPacket (pkt : bytes).

Definition sent_pkt (m : sent) : bytes :=
  match m with SentJunk pkt | SentPacket pkt => pkt end.

Section MMTPPeer.
Context `{Crypto}.

(** The 32794 bytes [onDataRead] accepts for it. *)
Definition wire (m : sent) : bytes :=
  match m with
  | SentJunk pkt => JUNK_CONTROL ++ pkt ++ sha1 (pkt ++ lit "JUNK")
  | SentPacket pkt => SEND_CONTROL ++ pkt ++ sha1 (pkt ++ lit "SEND")
  end.

(** The acknowledgement [onDataRead] queues for it. *)
Definition ack (reject : bool) (m : sent) : bytes :=
  match m with
  | SentJunk pkt => RECEIVED_CONTROL ++ sha1 (pkt ++ lit "RECEIVED JUNK")
  | SentPacket pkt =>
      if reject then REJECTED_CONTROL ++ sha1 (pkt ++ lit "REJECTED")
      else RECEIVED_CONTROL ++ sha1 (pkt ++ lit "RECEIVED")
  end.

(** The callback [onDataRead] invokes for it. *)
Definition invoked (reject : bool) (m : sent) : callback :=
  match m with
  | SentJunk _ => junkCallback
  | SentPacket pkt => if reject then rejectCallback else packetConsumer pkt
  end.

End MMTPPeer.



(** ** Registering and removing connections ([MMTPServer.py],
       [SelectAsyncServer.register], [remove], [tryTimeout]) *)

(** What ageing needs from outside: [now - self._timeout] on times, and
    the method [tryTimeout(cutoff)] of a connection, which answers
    whether the connection was shut down and may change it. *)
Class ConnectionAging `{ReactorEnv} := {
  Time_minus : Time → Z → Time;
  Connection_tryTimeout : Connection → Time → bool * Connection;
}.

Section ReactorTables.
Context `{ReactorEnv}.

(** [SelectAsyncServer.register(c)]. *)
Definition register (c : Connection) (s : AsyncServer) : AsyncServer :=
  let fd := Connection_fileno c in
  let '(wr, ww, isopen) := Connection_getStatus c in
  if negb isopen then s
  else set_tables (<[fd:=c]> (connections s)) (<[fd:=(wr, ww)]> (state s)) s.

(** [SelectAsyncServer.remove(c, fd)]: [del d[fd]] raises [KeyError]
    when [d] does not hold [fd], and an entry that was deleted before
    the exception stays deleted. *)
Definition remove (c : Connection) (fd : option Z) (s : AsyncServer)
  : ending * AsyncServer :=
  let fd := match fd with
            | None => Connection_fileno c
            | Some fd => fd
            end in
  match connections s !! fd with
  | None => (Raises "KeyError", s)
  | Some _ =>
      let s1 := set_tables (delete fd (connections s)) (state s) s in
      match state s1 !! fd with
      | None => (Raises "KeyError", s1)
      | Some _ => (Returns, set_tables (connections s1) (delete fd (state s1)) s1)
      end
  end.

(** The two dicts of the reactor hold the same descriptors. *)
Definition tables_agree (s : AsyncServer) : Prop :=
  dom (connections s) = dom (state s).

(** The loop [for fd, con in self.connections.items()] of [tryTimeout];
    [items()] is a list made before the loop starts, and a connection
    that [tryTimeout] changes is the object the dict holds. *)
Fixpoint tryTimeout_for `{!ConnectionAging} (items : list (Z * Connection))
    (cutoff : Time) (s : AsyncServer) : ending * AsyncServer :=
  match items with
  | [] => (Returns, s)
  | (fd, con) :: items' =>
      let '(expired, con') := Connection_tryTimeout con cutoff in
      let s := set_tables (<[fd:=con']> (connections s)) (state s) s in
      if (expired : bool) then
        match remove con' (Some fd) s with
        | (Returns, s') => tryTimeout_for items' cutoff s'
        | (e, s') => (e, s')
        end
      else tryTimeout_for items' cutoff s
  end.

(** [SelectAsyncServer.tryTimeout(now)]; [clock] is what [time.time()]
    answers. *)
Definition tryTimeout `{!ConnectionAging} (now : option Time) (clock : Time)
    (s : AsyncServer) : ending * AsyncServer :=
  match _timeout s with
  | None => (Returns, s)
  | Some t =>
      let now := match now with
                 | None => clock
                 | Some now => now
                 end in
      let cutoff := Time_minus now t in
      tryTimeout_for (map_to_list (connections s)) cutoff s
  end.

(** [PollAsyncServer.register(c)]: the connection is entered before the
    mask is looked up. *)
Definition poll_register (c : Connection) (s : AsyncServer)
  : ending * AsyncServer * list effect :=
  let fd := Connection_fileno c in
  let '(wr, ww, isopen) := Connection_getStatus c in
  if negb isopen then (Returns, s, [])
  else
    let s := set_tables (<[fd:=c]> (connections s)) (state s) s in
    match EVENT_MASK wr ww with
    | None => (Raises "KeyError", s, [])
    | Some mask => (Returns, s, [PollRegister fd mask])
    end.

(** [PollAsyncServer.remove(c, fd)]. *)
Definition poll_remove (c : Connection) (fd : option Z) (s : AsyncServer)
  : ending * AsyncServer * list effect :=
  let fd := match fd with
            | None => Connection_fileno c
            | Some fd => fd
            end in
  match connections s !! fd with
  | None => (Raises "KeyError", s, [PollUnregister fd])
  | Some _ =>
      (Returns, set_tables (delete fd (connections s)) (state s) s,
       [PollUnregister fd])
  end.


(** The bytes the connections of [active] report as used when they are
    processed with [cap]. *)
Definition bytes_used (active : list (Connection * Z * Z * Z)) (cap : option Z) : Z :=
  foldr (λ '(c, r, w, fd) acc, ((Connection_process c r w 0 cap).1.2 + acc)%Z)
    0%Z active.

End ReactorTables.


(** ** Event statistics ([server/EventStats.py]) *)

(** [_EVENTS]: the recognized event types. *)
Definition _EVENTS : list string :=
  ["ReceivedPacket"; "ReceivedConnection";
   "AttemptedConnect"; "SuccessfulConnect"; "FailedConnect";
   "AttemptedRelay"; "SuccessfulRelay"; "FailedRelay"; "UnretriableRelay";
   "AttemptedDelivery"; "SuccessfulDelivery"; "FailedDelivery";
   "UnretriableDelivery"]%string.

(** How a call of [_log] ends: it returns, or raises
    [KeyError("No such event: %r" % event)]. *)
Inductive log_outcome :=
  | Logged
  | NoSuchEvent (event : string).

Section EventLog.
(** The topics of events: [None], the name of a server or of a module;
    anything that can be the key of a dict. *)
Context {Arg : Type} `{Countable Arg}.

(** [self.count]: a dict from event type to a dict from topic to the
    number of events. *)
#[local] Abbreviation counts := (gmap string (gmap Arg Z)).

(** The dict [__init__] and [_rotate] set up: [self.count = {}] and
    then [self.count[e] = {}] for every [e] of [_EVENTS]. *)
Definition fresh_count : counts :=
  foldl (λ count e, <[e:=∅]> count) ∅ _EVENTS.

(** [EventLog._log(event, arg)]: [self.count[event][arg] += 1], and on
    [KeyError], [self.count[event][arg] = 1], and should that raise
    [KeyError] too, the [KeyError] that names the event. *)
Definition _log (event : string) (arg : Arg) (count : counts)
  : log_outcome * counts :=
  match count !! event with
  | Some topics =>
      match topics !! arg with
      | Some n => (Logged, <[event:=<[arg:=(n + 1)%Z]> topics]> count)
      | None => (Logged, <[event:=<[arg:=1%Z]> topics]> count)
      end
  | None => (NoSuchEvent event, count)
  end.

(** The methods of the interface, each of which logs one event type. *)
Definition receivedPacket := _log "ReceivedPacket".
Definition receivedConnection := _log "ReceivedConnection".
Definition attemptedConnect := _log "AttemptedConnect".
Definition successfulConnect := _log "SuccessfulConnect".
Definition failedConnect := _log "FailedConnect".
Definition attemptedRelay := _log "AttemptedRelay".
Definition successfulRelay := _log "SuccessfulRelay".
Definition failedRelay := _log "FailedRelay".
Definition unretriableRelay := _log "UnretriableRelay".
Definition attemptedDelivery := _log "AttemptedDelivery".
Definition successfulDelivery := _log "SuccessfulDelivery".
Definition failedDelivery := _log "FailedDelivery".
Definition unretriableDelivery := _log "UnretriableDelivery".

Definition event_methods : list (Arg → counts → log_outcome * counts) :=
  [receivedPacket; receivedConnection; attemptedConnect; successfulConnect;
   failedConnect; attemptedRelay; successfulRelay; failedRelay; unretriableRelay;
   attemptedDelivery; successfulDelivery; failedDelivery; unretriableDelivery].

(** The number of events of a type and topic that [count] records. *)
Definition tally (count : counts) (event : string) (arg : Arg) : Z :=
  default 0%Z (count !! event ≫= λ topics, topics !! arg).

(** Every recognized event type has its dict. *)
Definition events_known (count : counts) : Prop :=
  ∀ e, e ∈ _EVENTS → is_Some (count !! e).

End EventLog.

(** ** Command tokens ([Main.py], [fixCommandToken]) *)

(** [fixCommandToken(tok)]: a token in matching single or double quotes
    loses them. *)
Definition fixCommandToken (tok : bytes) : result bytes :=
  if bool_decide (tok = []) then mret tok
  else if (2 <=? len tok)%Z then
    first ← pyindex tok 0;
    if bool_decide (first ∈ [x22; x27]) then
      last ← pyindex tok (-1);
      first ← pyindex tok 0;
      if bool_decide (last = first) then mret (slice tok (Some 1%Z) (Some (-1)%Z))
      else mret tok
    else mret tok
  else mret tok.


(** ** The way of a packet through the mixes *)

(** Modelled from the spec: what the mixes of a path do to the second
    header and the payload of a packet.  The packet handler of the
    servers is not part of this development; section 8 of the spec has
    the mixes walk the onion hop by hop, "LIONESS-transforming header2
    and payload in the inverse order of the builder", and section 4.3.1
    says that "the reply pipeline used lioness_decrypt at each mix".
    Every mix finds its secret in its subheader; the model is given the
    secrets the headers were built with, in the order of the path. *)
Section Relaying.
Context `{Crypto}.





End Relaying.

(** * A concrete instance

    The interfaces above, filled in with small executable functions, so
    that the embedding can be run on concrete inputs.  Nothing here is
    cryptography: the digest is a byte sum, the ciphers shift bytes, RSA
    frames its input with a random leading byte; each keeps the shape
    (lengths, inverses, what can fail) of the primitive it stands for. *)

Module Sample.

Definition byte_of_Z (z : Z) : byte :=
  default x00 (Byte.of_N (Z.to_N (z `mod` 256))).

Definition sum_bytes (s : bytes) : Z :=
  foldl (λ acc c, (acc + ord c) `mod` 256)%Z 0%Z s.

Definition shift (d : Z) (s : bytes) : bytes :=
  (λ c, byte_of_Z (ord c + d)) <$> s.

(** Big-endian [n]-byte encoding. *)
Definition u16 (z : Z) : bytes := [byte_of_Z (z `div` 256); byte_of_Z z].

Definition mode_code (m : key_mode) : Z :=
  match m with
  | HEADER_SECRET_MODE => 1
  | HEADER_ENCRYPT_MODE => 2
  | PAYLOAD_ENCRYPT_MODE => 3
  | RANDOM_JUNK_MODE => 4
  | END_TO_END_ENCRYPT_MODE => 5
  end.

(** A generator that counts: state [n] gives the bytes [n], [n+1], ... *)
Definition count_bytes (st : Z) (n : Z) : bytes * Z :=
  ((λ i, byte_of_Z (st + Z.of_nat i)) <$> seq 0 (Z.to_nat n), (st + Z.max 0 n)%Z).

(** RSA decryption of a block [r :: hi :: lo :: m ++ zeros]: the
    block must be as long as the modulus and declare a length that fits. *)
Definition unframe (c : bytes) (k : Z) : result bytes :=
  match c with
  | r :: hi :: lo :: rest =>
      let n := (ord hi * 256 + ord lo)%Z in
      if bool_decide (len c = k) && (n <=? k - 42)%Z
      then Ok (take (Z.to_nat n) rest)
      else Raise (Exn CryptoError "decryption failed")
  | _ => Raise (Exn CryptoError "decryption failed")
  end.

#[local] Instance crypto : Crypto := {|
  sha1 s := replicate 20 (byte_of_Z (sum_bytes s));
  lioness_keys := Z;
  Keyset_getLionessKeys secret m := (sum_bytes secret + mode_code m)%Z;
  Keyset_get secret m := secret ++ [byte_of_Z (mode_code m)];
  lioness_encrypt s k := shift k s;
  lioness_decrypt s k := shift (- k) s;
  lioness_keys_from_payload s := (sum_bytes s + 7)%Z;
  lioness_keys_from_header s := (sum_bytes s + 11)%Z;
  ctr_crypt s key idx := shift (sum_bytes key + idx) s;
  prng key n := replicate (Z.to_nat n) (byte_of_Z (sum_bytes key));
  rng_state := Z;
  rng_getBytes := count_bytes;
  AESCounterPRNG seed := sum_bytes seed;
  rsa_key := Z;
  get_modulus_bytes k := k;
  pk_decrypt := unframe;
|}.

(** RSA encryption: a byte drawn from the common generator, the length
    of the message, the message, zeros up to the modulus. *)
Definition frame (m : bytes) (k : Z) : M bytes := λ w,
  if (k - 42 <? len m)%Z then (Raise (Exn CryptoError "Message too long"), w)
  else
    match getBytes CommonPRNG 1 w with
    | (Ok r, w') =>
        (Ok (r ++ u16 (len m) ++ m ++ replicate (Z.to_nat (k - 3 - len m)) x00), w')
    | (Raise e, w') => (Raise e, w')
    end.

#[local] Instance pk : PKEncrypt := {| pk_encrypt := frame |}.

#[local] Instance consts : PacketConsts := {|
  OAEP_OVERHEAD := 42;
  MIN_SUBHEADER_LEN := 42;
  ENC_SUBHEADER_LEN := 256;
  ENC_FWD_OVERHEAD := 38;
  MAJOR_NO := 0;
  MINOR_NO := 3;
  DROP_TYPE := 0;
  SWAP_FWD_HOST_TYPE := 4;
|}.

Definition MAX_ROUTING_INFO_LEN : Z := 256 - 42 - 42.

(** Payloads as section 3 of the spec lays them out; a fragment keeps
    its index in three bytes, as the offsets of [_checkPayload] have it. *)
Definition parse (s : bytes) : result Payload :=
  match s with
  | hi :: lo :: rest =>
      if bool_decide (Z.land (ord hi) 0x80 ≠ 0)%Z then
        Ok (Fragment (mkFragment (ord lo) (Some (slice s (Some 3%Z) (Some 23%Z)))
                        (slice s (Some 23%Z) (Some 43%Z)) 0
                        (slice s (Some 47%Z) None)))
      else
        let n := (ord hi * 256 + ord lo)%Z in
        if (len s - 22 <? n)%Z then Raise (Exn ParseError "Payload too long")
        else Ok (Singleton (mkSingleton n (Some (slice s (Some 2%Z) (Some 22%Z)))
                              (slice s (Some 22%Z) (Some (22 + n)%Z))))
  | _ => Raise (Exn ParseError "Payload too short")
  end.

#[local] Instance format : PacketFormat := {|
  parsePayload := parse;
  SingletonPayload_computeHash p :=
    mkSingleton (sp_size p) (Some (sha1 (sp_data p))) (sp_data p);
  SingletonPayload_pack p :=
    u16 (sp_size p) ++ default [] (sp_hash p) ++ sp_data p;
  FragmentPayload_computeHash p :=
    mkFragment (fp_index p)
      (Some (sha1 (fp_msgID p ++ u16 (fp_msgLen p `div` 65536) ++ u16 (fp_msgLen p)
                   ++ fp_data p)))
      (fp_msgID p) (fp_msgLen p) (fp_data p);
  FragmentPayload_pack p :=
    [x80] ++ u16 (fp_index p) ++ default [] (fp_hash p) ++ fp_msgID p
    ++ u16 (fp_msgLen p `div` 65536) ++ u16 (fp_msgLen p) ++ fp_data p;
  Subheader_getUnderflowLength sh :=
    Z.max 0 (MAX_ROUTING_INFO_LEN - len (sh_routinginfo sh));
  Subheader_getOverflow sh :=
    slice (sh_routinginfo sh) (Some MAX_ROUTING_INFO_LEN) None;
  Subheader_pack sh :=
    [byte_of_Z (sh_major sh); byte_of_Z (sh_minor sh)] ++ sh_secret sh
    ++ default [] (sh_digest sh) ++ u16 (len (sh_routinginfo sh))
    ++ u16 (sh_routingtype sh)
    ++ slice (sh_routinginfo sh) None (Some MAX_ROUTING_INFO_LEN);
|}.

(** A server: a nickname, whether it knows the packet format, the bytes
    of its host info. *)
Record server := mkServerInfo {
  nickname : string;
  supported : bool;
  hostinfo : bytes;
}.

#[local] Instance servers : ServerInfoAPI := {|
  ServerInfo := server;
  getRoutingFor a b swap := ((if swap then 4 else 3)%Z, hostinfo b);
  getPacketKey a := 256%Z;
  supportsPacketVersion := supported;
  getNickname := nickname;
  getValidUntil a := 0%Z;
  getMMTPHostInfo_pack := hostinfo;
|}.

(** Fragmentation: [k] data fragments and [n], about [4k/3], fragments
    per chunk, cut from the message padded with zeros. *)
Record fparams := mkParams {
  the_length : Z;
  the_capacity : Z;
  the_k : Z;
  the_n : Z;
  the_nChunks : Z;
}.

Definition ceilDiv (a b : Z) : Z := ((a + b - 1) `div` b)%Z.

Definition new_params (length overhead : Z) : result fparams :=
  let capacity := (PAYLOAD_LEN - 47 - overhead)%Z in
  let minFragments := ceilDiv length capacity in
  if (minFragments <? 2)%Z then Raise (Exn AssertionError "")
  else
    let '(k, n) := (if minFragments <=? 2 then (2, 3)
                    else if minFragments <=? 4 then (4, 6)
                    else if minFragments <=? 8 then (8, 11) else (16, 22))%Z in
    Ok (mkParams length capacity k n (ceilDiv minFragments k)).

Definition fragments_of (p : fparams) (s : bytes) : list bytes :=
  (λ i, take (Z.to_nat (the_capacity p))
          (drop (i * Z.to_nat (the_capacity p)) s
           ++ replicate (Z.to_nat (the_capacity p)) x00))
  <$> seq 0 (Z.to_nat (the_n p * the_nChunks p)).

#[local] Instance fragments : FragmentsAPI := {|
  compressData s := s;
  FragmentationParams := fparams;
  new_FragmentationParams := new_params;
  fparams_n := the_n;
  fparams_nChunks := the_nChunks;
  fparams_length := the_length;
  getFragments p s := mret (fragments_of p s);
|}.

(** A reactor whose connections are byte counters: a connection reads
    or writes up to its cap and closes after 100000 bytes. *)
#[local] Instance env : ReactorEnv := {|
  Time := Z;
  times_1000 t := (t * 1000)%Z;
  int_times_TICK_INTERVAL n := n;
  EINTR := 4;
  POLLIN := 1;
  POLLOUT := 4;
  POLLERR := 8;
  POLLHUP := 16;
  Connection := Z;
  Connection_process c r w x cap :=
    let n := default 1000%Z cap in
    ((1, 0, (c + n <? 100000), n), c + n)%Z;
  Connection_getStatus c := (1, 0, true)%Z;
  Connection_fileno c := c;
|}.

Definition world0 : World := mkWorld 0%Z 0%Z [] [].

(** The world whose common generator has reached [n]. *)
Definition world_at (n : Z) : World := mkWorld n 0%Z [] [].

(** Two servers and the secrets for them. *)
Definition alice : ServerInfo := mkServerInfo "alice" true (replicate 26 x01).
Definition bob : ServerInfo := mkServerInfo "bob" true (replicate 26 x02).
Definition secret_of (n : Z) : bytes := replicate 16 (byte_of_Z n).

(** A reactor with one connection, on descriptor 3, that wants to read,
    a limit of 100 bytes per tick, and a bucket that is overdrawn. *)
Definition overdrawn_server : AsyncServer :=
  mkServer None {[ 3%Z := 0%Z ]} {[ 3%Z := (1%Z, 0%Z) ]}
    (Some 100%Z) (Some (-5)%Z) (Some 500%Z).

(** A kernel that reports every descriptor asked about as ready. *)
Definition all_ready (r w x : list Z) : wait_result (list Z * list Z * list Z) :=
  Ready (r, w, x).

(** Inputs for the decoder. *)
Definition zeros (n : Z) : bytes := replicate (Z.to_nat n) x00.

(** A payload whose checksum holds, and one whose checksum fails. *)
Definition checked_payload : bytes := zeros 28672.
Definition unchecked_payload : bytes := x00 :: x00 :: x01 :: zeros 28669.

(** An encrypted forward message for the key of 256 bytes: the tag
    opens the RSA block, which declares a 16-byte session key of zeros;
    the rest is a checked payload shifted by the session key. *)
Definition efwd_tag : bytes := x00 :: x00 :: x10 :: zeros 17.
Definition efwd_payload : bytes := zeros 236 ++ replicate (Z.to_nat 28436) x05.

(** A tag whose RSA block declares a length that does not fit. *)
Definition undecryptable_tag : bytes := x00 :: xff :: zeros 18.

(** A tag that the user key ["key"] validates. *)
Definition validated_tag : bytes := x00 :: x8d :: zeros 18.

Definition sample_keys : userKeys_arg := UserKeys_Seq [(""%string, lit "key")].

(** Inputs for the server connection: a packet, the JUNK and the SEND
    message that carry it, a connection with a given buffer. *)
Definition packet : bytes := zeros 32768.
Definition junk_digest : bytes := sha1 (packet ++ lit "JUNK").
Definition send_digest : bytes := sha1 (packet ++ lit "SEND").
Definition connection (reject : bool) (buf : bytes) : MMTPServerConnection :=
  mkConnection buf reject [] false [].

(** Ageing for the byte counters: a connection that has moved fewer
    bytes than the cutoff counts as idle. *)
#[local] Instance aging : ConnectionAging := {|
  Time_minus t d := (t - d)%Z;
  Connection_tryTimeout c cutoff := (bool_decide (c < cutoff)%Z, c);
|}.

(** A reactor without a limit and with a timeout of 60, with an idle
    connection on descriptor 3 and a busy one on descriptor 4. *)
Definition unlimited_server : AsyncServer :=
  mkServer (Some 60%Z) {[ 3%Z := 0%Z; 4%Z := 500%Z ]}
    {[ 3%Z := (1%Z, 0%Z); 4%Z := (1%Z, 0%Z) ]} None None None.

(** A reactor whose only connection wants nothing. *)
Definition idle_server : AsyncServer :=
  mkServer None {[ 3%Z := 0%Z ]} {[ 3%Z := (0%Z, 0%Z) ]} None None None.


(** The secrets the recipient derives from [validated_tag] and the user
    key ["key"], and a reply payload as it arrives after a path of two
    hops: a checked payload decrypted with the payload keys of the
    second and of the first secret. *)
Definition reply_secrets : list bytes :=
  (getBytes_n
     (AESCounterPRNG
        (slice (sha1 (validated_tag ++ lit "key" ++ lit "Generate")) None (Some 16%Z)))
     17 SECRET_LEN).1.

Definition reply_payload : bytes :=
  foldr (λ sec p, lioness_decrypt p (Keyset_getLionessKeys sec PAYLOAD_ENCRYPT_MODE))
    checked_payload (take 2 reply_secrets).

(** What [checked_payload] parses to: an empty message. *)
Definition empty_message : Payload :=
  Singleton (mkSingleton 0 (Some (zeros 20)) []).

(** The RSA block of ["hello"] for the key of 256 bytes when the random
    byte drawn is zero. *)
Definition hello_block : bytes :=
  x00 :: u16 5 ++ lit "hello" ++ zeros 248.

(** What is in [r] when it is [Ok]. *)
Definition value_of (r : result bytes) : bytes :=
  match r with
  | Ok s => s
  | Raise _ => []
  end.


(** [formatBase64] is left as the identity. *)
#[local] Instance common : CommonAPI := {| formatBase64 s := s |}.

(** The reply block in [r], when there is one. *)
Definition block_of (r : result (option ReplyBlock)) : ReplyBlock :=
  match r with
  | Ok (Some rb) => rb
  | _ => mkReplyBlock [] 0 0 [] []
  end.


End Sample.

(** * Properties *)

(** ** Payload decoding *)

Section DecodingFacts.
Context `{Crypto} `{PacketFormat}.

Lemma decodePayload_for_no_validate payload tag userKeys retNym :
  Forall (λ nk, validate_test tag nk.2 = Ok false) userKeys →
  decodePayload_for payload tag userKeys retNym = (Ok Completed, retNym).
Proof.
  induction 1 as [|[name uk] l Hv _ IH]; simpl; [done|].
  simpl in Hv. by rewrite Hv.
Qed.


(** C10: [decodePayload] raises at once, whatever the keys and whatever
    the primitives, when the payload is not 28672 bytes long or the tag
    is neither empty nor 20 bytes long; [retNym] is left as it was. *)
Theorem decodePayload_wrong_length payload tag key userKeys retNym :
  len payload ≠ PAYLOAD_LEN ∨ (len tag ≠ 0%Z ∧ len tag ≠ TAG_LEN) →
  decodePayload payload tag key userKeys retNym
  = (if bool_decide (len payload ≠ PAYLOAD_LEN)
     then Raise (Exn MixError "Wrong payload length")
     else Raise (Exn MixError ("Wrong tag length: " +:+ str_of_int (len tag))),
     retNym).
Proof.
  intros Hbad. unfold decodePayload.
  case_bool_decide as Hp; [done|].
  destruct Hbad as [?|[Hn0 Hn20]]; [done|].
  rewrite (bool_decide_eq_false_2 _ Hn0), (bool_decide_eq_false_2 _ Hn20). done.
Qed.

Lemma decodePayload_past_checksum payload tag key userKeys retNym :
  len payload = PAYLOAD_LEN →
  len tag = TAG_LEN →
  _checkPayload payload = Ok false →
  decodePayload payload tag key userKeys retNym
  = match decodePayload_for payload tag (userKeys_list userKeys) retNym with
    | (Raise e, retNym') => (Raise e, retNym')
    | (Ok (Returned p), retNym') => (Ok (Some p), retNym')
    | (Ok Completed, retNym') =>
        match key with
        | Some key => (_decodeEncryptedForwardPayload payload tag key, retNym')
        | None => (Ok None, retNym')
        end
    end.
Proof.
  intros Hp Ht Hc. unfold decodePayload.
  rewrite bool_decide_eq_false_2 by (by intros ?).
  rewrite (bool_decide_eq_true_2 (len tag = TAG_LEN)) by done.
  rewrite orb_true_r. simpl. rewrite Hc.
  rewrite bool_decide_eq_false_2; last first.
  { intros ->. by compute in Ht. }
  destruct (decodePayload_for _ _ _ _) as [[[p|]|e] r]; try done.
  destruct key as [k|]; [|done].
  by destruct (_decodeEncryptedForwardPayload _ _ _) as [[?|]|?].
Qed.

(** C4: for a 28672-byte payload that fails the checksum test, a 20-byte
    tag that no user key validates and an RSA key, [decodePayload]
    returns [None] when RSA decryption fails with a [CryptoError],
    raises [MixError] when RSA decryption succeeds and the reassembled
    payload fails the checksum test, and returns the parsed payload when
    the checksum holds. *)
Theorem decodePayload_encrypted_forward payload tag key userKeys retNym :
  len payload = PAYLOAD_LEN →
  len tag = TAG_LEN →
  _checkPayload payload = Ok false →
  Forall (λ nk, validate_test tag nk.2 = Ok false) (userKeys_list userKeys) →
  decodePayload payload tag (Some key) userKeys retNym
  = (match pk_decrypt (efwd_rsa_block payload tag key) key with
     | Raise e => if isinstance_CryptoError e then Ok None else Raise e
     | Ok rsaPart =>
         let rest := efwd_plaintext payload tag key rsaPart in
         match _checkPayload rest with
         | Ok true => Some <$> parsePayload rest
         | Ok false =>
             Raise (Exn MixError "Invalid checksum on encrypted forward payload")
         | Raise e => Raise e
         end
     end, retNym).
Proof.
  intros Hp Ht Hc Hv.
  rewrite decodePayload_past_checksum by done.
  rewrite decodePayload_for_no_validate by done.
  f_equal. unfold _decodeEncryptedForwardPayload, efwd_rsa_block, efwd_plaintext.
  rewrite (proj2 (Z.eqb_eq _ _) Ht), (proj2 (Z.eqb_eq _ _) Hp). simpl.
  destruct (pk_decrypt _ _) as [rsaPart|e]; [|done].
  simpl. by destruct (_checkPayload (_ ++ _)) as [[|]|].
Qed.


(** The stateless decoding raises exactly when none of the seventeen
    payloads it computes passes the checksum test. *)
Lemma _decodeReplyPayload_exhausted payload secrets :
  (∀ p, _decodeReplyPayload_for payload secrets true ≠ Ok (inl p)) →
  (∀ e, _decodeReplyPayload_for payload secrets true ≠ Raise e) →
  _decodeReplyPayload payload secrets true
  = Raise (Exn MixError "Invalid checksum on reply payload").
Proof.
  intros Hp He. unfold _decodeReplyPayload.
  destruct (_decodeReplyPayload_for _ _ _) as [[p|rest]|e]; simpl.
  - by destruct (Hp p).
  - done.
  - by destruct (He e).
Qed.

End DecodingFacts.

(** ** Slices *)

Section SliceFacts.

Lemma len_app (a b : bytes) : len (a ++ b) = (len a + len b)%Z.
Proof. unfold len. rewrite length_app. lia. Qed.

Lemma len_nonneg (a : bytes) : (0 ≤ len a)%Z.
Proof. unfold len. lia. Qed.

Lemma slice_prefix (s : bytes) (n : Z) :
  (0 ≤ n)%Z → slice s None (Some n) = take (Z.to_nat n) s.
Proof.
  intros Hn. unfold slice, slice_bound. simpl.
  destruct (Z.ltb_spec n 0); [lia|].
  rewrite Nat.sub_0_r. destruct (Nat.le_ge_cases (length s) (Z.to_nat n)).
  - rewrite Nat.min_l by done. by rewrite !take_ge.
  - by rewrite Nat.min_r.
Qed.

Lemma slice_suffix (s : bytes) (n : Z) :
  (0 ≤ n)%Z → slice s (Some n) None = drop (Z.to_nat n) s.
Proof.
  intros Hn. unfold slice, slice_bound. simpl.
  destruct (Z.ltb_spec n 0); [lia|].
  destruct (Nat.le_ge_cases (length s) (Z.to_nat n)).
  - rewrite Nat.min_l by done. rewrite Nat.sub_diag.
    rewrite !drop_ge by lia. done.
  - rewrite Nat.min_r by done. rewrite take_ge; [done|].
    rewrite length_drop. lia.
Qed.

Lemma slice_app_prefix (a b : bytes) : slice (a ++ b) None (Some (len a)) = a.
Proof.
  rewrite slice_prefix by apply len_nonneg.
  unfold len. rewrite Nat2Z.id. apply take_app_length.
Qed.

Lemma slice_app_suffix (a b : bytes) : slice (a ++ b) (Some (len a)) None = b.
Proof.
  rewrite slice_suffix by apply len_nonneg.
  unfold len. rewrite Nat2Z.id. apply drop_app_length.
Qed.

Lemma slice_app_tail (a d : bytes) :
  (0 < len d)%Z → slice (a ++ d) (Some (- len d)%Z) None = d.
Proof.
  intros Hd. unfold slice, slice_bound, len in *. simpl.
  destruct (Z.ltb_spec (- Z.of_nat (length d)) 0); [|lia].
  rewrite length_app.
  replace (Z.to_nat (Z.max 0 (Z.of_nat (length a + length d) + - Z.of_nat (length d))))
    with (length a) by lia.
  rewrite drop_app_length. apply take_ge. lia.
Qed.

Lemma slice_app_middle (a p d : bytes) :
  (0 < len d)%Z →
  slice (a ++ p ++ d) (Some (len a)) (Some (- len d)%Z) = p.
Proof.
  intros Hd. unfold slice, slice_bound, len in *. simpl.
  destruct (Z.ltb_spec (Z.of_nat (length a)) 0); [lia|].
  destruct (Z.ltb_spec (- Z.of_nat (length d)) 0); [|lia].
  rewrite !length_app, Nat2Z.id.
  rewrite Nat.min_r by lia. rewrite drop_app_length.
  replace (Z.to_nat (Z.max 0 (Z.of_nat (length a + (length p + length d))
                              + - Z.of_nat (length d))) - length a)
    with (length p) by lia.
  apply take_app_length.
Qed.

End SliceFacts.

(** ** The server side of MMTP *)

Section MMTPServerFacts.
Context `{Crypto}.

Lemma MESSAGE_LEN_eq : MESSAGE_LEN = 32794%Z.
Proof. reflexivity. Qed.

Lemma onDataRead_round_inbuf c :
  inbuf (onDataRead_round c).1 = slice (inbuf c) (Some MESSAGE_LEN) None.
Proof.
  unfold onDataRead_round, getInbuf.
  repeat (case_bool_decide || case_match || simplify_eq/=); done.
Qed.

Lemma onDataRead_round_consumes c :
  (MESSAGE_LEN ≤ inbuflen c)%Z →
  length (inbuf (onDataRead_round c).1) < length (inbuf c).
Proof.
  intros Hl. rewrite onDataRead_round_inbuf, slice_suffix by done.
  rewrite length_drop. unfold inbuflen, len in Hl. rewrite MESSAGE_LEN_eq in *. lia.
Qed.

Lemma onDataRead_while_enough fuel1 fuel2 c :
  length (inbuf c) ≤ fuel1 → length (inbuf c) ≤ fuel2 →
  onDataRead_while fuel1 c = onDataRead_while fuel2 c.
Proof.
  revert fuel2 c. induction fuel1 as [|fuel1 IH]; intros fuel2 c H1 H2.
  - destruct fuel2; simpl; destruct (Z.leb_spec MESSAGE_LEN (inbuflen c)) as [Hl|];
      try done; unfold inbuflen, len in Hl; rewrite MESSAGE_LEN_eq in Hl; lia.
  - destruct fuel2; simpl; destruct (Z.leb_spec MESSAGE_LEN (inbuflen c)) as [Hl|];
      try done.
    + unfold inbuflen, len in Hl; rewrite MESSAGE_LEN_eq in Hl; lia.
    + pose proof (onDataRead_round_consumes c Hl) as Hc.
      destruct (onDataRead_round c) as [c' [|]]; [|done].
      simpl in Hc. apply IH; lia.
Qed.

(** [onDataRead] always comes to an end. *)
Lemma onDataRead_total c : is_Some (onDataRead c).
Proof.
  unfold onDataRead. generalize (le_n (length (inbuf c))).
  generalize (length (inbuf c)) at 2 3 as fuel. intros fuel. revert c.
  induction fuel as [|fuel IH]; intros c Hf; simpl;
    destruct (Z.leb_spec MESSAGE_LEN (inbuflen c)) as [Hl|]; try done.
  - unfold inbuflen, len in Hl; rewrite MESSAGE_LEN_eq in Hl; lia.
  - pose proof (onDataRead_round_consumes c Hl) as Hc.
    destruct (onDataRead_round c) as [c' [|]]; [|done].
    simpl in Hc. apply IH; lia.
Qed.

Lemma onDataRead_wait c :
  (inbuflen c < MESSAGE_LEN)%Z → onDataRead c = Some c.
Proof.
  intros Hl. unfold onDataRead.
  destruct (length (inbuf c)); simpl;
    destruct (Z.leb_spec MESSAGE_LEN (inbuflen c)); (done || lia).
Qed.

Lemma onDataRead_next c :
  (MESSAGE_LEN ≤ inbuflen c)%Z →
  onDataRead c
  = if (onDataRead_round c).2 then onDataRead (onDataRead_round c).1
    else Some (onDataRead_round c).1.
Proof.
  intros Hl. unfold onDataRead at 1.
  pose proof (onDataRead_round_consumes c Hl) as Hc.
  destruct (length (inbuf c)) as [|n] eqn:Hn; [lia|].
  simpl. destruct (Z.leb_spec MESSAGE_LEN (inbuflen c)); [|lia].
  destruct (onDataRead_round c) as [c' [|]]; simpl in *; [|done].
  apply onDataRead_while_enough; lia.
Qed.

Lemma getInbuf_message c control pkt digest rest :
  inbuf c = control ++ pkt ++ digest ++ rest →
  len control = 6%Z → len pkt = 32768%Z → len digest = 20%Z →
  getInbuf MESSAGE_LEN c = (control ++ pkt ++ digest, after_message rest c).
Proof.
  intros Hb Hc Hp Hd. unfold getInbuf, after_message. rewrite Hb.
  replace (control ++ pkt ++ digest ++ rest)
    with ((control ++ pkt ++ digest) ++ rest) by (by rewrite <- !app_assoc).
  replace MESSAGE_LEN with (len (control ++ pkt ++ digest))
    by (rewrite !len_app, Hc, Hp, Hd; reflexivity).
  by rewrite slice_app_prefix, slice_app_suffix.
Qed.

Lemma message_parts control pkt digest :
  len control = 6%Z → len pkt = 32768%Z → len digest = 20%Z →
  let data := control ++ pkt ++ digest in
  slice data None (Some SEND_CONTROL_LEN) = control
  ∧ slice data (Some SEND_CONTROL_LEN) (Some (- DIGEST_LEN)%Z) = pkt
  ∧ slice data (Some (- DIGEST_LEN)%Z) None = digest.
Proof.
  intros Hc Hp Hd data. subst data.
  change SEND_CONTROL_LEN with 6%Z. change DIGEST_LEN with 20%Z.
  rewrite <- Hc, <- Hd. split; [|split].
  - apply slice_app_prefix.
  - apply slice_app_middle. lia.
  - rewrite app_assoc. apply slice_app_tail. lia.
Qed.

Lemma onDataRead_round_message c control pkt digest rest :
  inbuf c = control ++ pkt ++ digest ++ rest →
  len control = 6%Z → len pkt = 32768%Z → len digest = 20%Z →
  let c0 := after_message rest c in
  (control = JUNK_CONTROL → digest = sha1 (pkt ++ lit "JUNK") →
   onDataRead_round c
   = (beginWriting (RECEIVED_CONTROL ++ sha1 (pkt ++ lit "RECEIVED JUNK"))
        (call junkCallback c0), true))
  ∧ (control = SEND_CONTROL → digest = sha1 (pkt ++ lit "SEND") →
     onDataRead_round c
     = (if rejectPackets c
        then beginWriting (REJECTED_CONTROL ++ sha1 (pkt ++ lit "REJECTED"))
               (call rejectCallback c0)
        else beginWriting (RECEIVED_CONTROL ++ sha1 (pkt ++ lit "RECEIVED"))
               (call (packetConsumer pkt) c0), true)).
Proof.
  intros Hb Hc Hp Hd c0.
  destruct (message_parts control pkt digest Hc Hp Hd) as (E1 & E2 & E3).
  unfold onDataRead_round.
  rewrite (getInbuf_message c control pkt digest rest Hb Hc Hp Hd).
  rewrite E1, E2, E3. fold c0. split.
  - intros -> ->. rewrite bool_decide_eq_true_2 by done.
    rewrite bool_decide_eq_false_2 by (by intros ?). done.
  - intros -> ->. rewrite bool_decide_eq_false_2 by discriminate.
    rewrite bool_decide_eq_true_2 by done.
    change (rejectPackets c0) with (rejectPackets c).
    destruct (rejectPackets c);
      rewrite bool_decide_eq_false_2 by (by intros ?); done.
Qed.

(** C2: a message is the 32794 bytes at the head of the buffer, a
    6-byte control line, a 32768-byte packet and a 20-byte digest, and
    nothing is done before that many bytes have arrived.  A JUNK message
    with the digest of packet and "JUNK" is acknowledged with RECEIVED
    and the digest of packet and "RECEIVED JUNK"; a SEND message with
    the digest of packet and "SEND" is acknowledged with RECEIVED and the
    digest of packet and "RECEIVED" after the packet went to the
    consumer, or in reject mode with REJECTED and the digest of packet
    and "REJECTED"; [onDataRead] then goes on with the rest of the
    buffer. *)
Theorem onDataRead_acknowledges c control pkt digest rest :
  inbuf c = control ++ pkt ++ digest ++ rest →
  len control = 6%Z → len pkt = 32768%Z → len digest = 20%Z →
  let c0 := after_message rest c in
  MESSAGE_LEN = 32794%Z
  ∧ len (control ++ pkt ++ digest) = MESSAGE_LEN
  ∧ (∀ c', (inbuflen c' < 32794)%Z → onDataRead c' = Some c')
  ∧ (control = JUNK_CONTROL → digest = sha1 (pkt ++ lit "JUNK") →
     onDataRead c
     = onDataRead (beginWriting (RECEIVED_CONTROL ++ sha1 (pkt ++ lit "RECEIVED JUNK"))
                     (call junkCallback c0)))
  ∧ (control = SEND_CONTROL → digest = sha1 (pkt ++ lit "SEND") →
     rejectPackets c = false →
     onDataRead c
     = onDataRead (beginWriting (RECEIVED_CONTROL ++ sha1 (pkt ++ lit "RECEIVED"))
                     (call (packetConsumer pkt) c0)))
  ∧ (control = SEND_CONTROL → digest = sha1 (pkt ++ lit "SEND") →
     rejectPackets c = true →
     onDataRead c
     = onDataRead (beginWriting (REJECTED_CONTROL ++ sha1 (pkt ++ lit "REJECTED"))
                     (call rejectCallback c0))).
Proof.
  intros Hb Hc Hp Hd c0.
  assert (Hlen : len (control ++ pkt ++ digest) = MESSAGE_LEN)
    by (rewrite !len_app, Hc, Hp, Hd; reflexivity).
  assert (Hin : (MESSAGE_LEN ≤ inbuflen c)%Z).
  { unfold inbuflen. rewrite Hb, !len_app, Hc, Hp, Hd, MESSAGE_LEN_eq.
    pose proof (len_nonneg rest). lia. }
  destruct (onDataRead_round_message c control pkt digest rest Hb Hc Hp Hd)
    as [Hj Hs].
  split; [reflexivity|]. split; [exact Hlen|].
  split; [intros c' Hc'; by apply onDataRead_wait|].
  split; [|split].
  - intros E1 E2. rewrite (onDataRead_next c Hin), (Hj E1 E2). done.
  - intros E1 E2 Hr. rewrite (onDataRead_next c Hin), (Hs E1 E2), Hr. done.
  - intros E1 E2 Hr. rewrite (onDataRead_next c Hin), (Hs E1 E2), Hr. done.
Qed.

(** C9: in reject mode a JUNK message with a good digest is acknowledged
    with RECEIVED and the digest of packet and "RECEIVED JUNK", and it is
    the junk callback that is called; whatever the mode, a round that
    writes an acknowledgement opening with REJECTED was handling a SEND
    message in reject mode and called the reject callback. *)
Theorem reject_mode_only_for_SEND c control pkt digest rest :
  inbuf c = control ++ pkt ++ digest ++ rest →
  len control = 6%Z → len pkt = 32768%Z → len digest = 20%Z →
  let c0 := after_message rest c in
  (rejectPackets c = true → control = JUNK_CONTROL →
   digest = sha1 (pkt ++ lit "JUNK") →
   onDataRead_round c
   = (beginWriting (RECEIVED_CONTROL ++ sha1 (pkt ++ lit "RECEIVED JUNK"))
        (call junkCallback c0), true)
   ∧ called (onDataRead_round c).1 = called c ++ [junkCallback])
  ∧ (∀ ack, written (onDataRead_round c).1 = written c ++ [ack] →
     take 10 ack = REJECTED_CONTROL →
     control = SEND_CONTROL ∧ rejectPackets c = true
     ∧ called (onDataRead_round c).1 = called c ++ [rejectCallback]).
Proof.
  intros Hb Hc Hp Hd c0.
  destruct (onDataRead_round_message c control pkt digest rest Hb Hc Hp Hd)
    as [Hj Hs].
  split.
  - intros _ E1 E2. rewrite (Hj E1 E2). done.
  - intros ack Hw Hack.
    destruct (message_parts control pkt digest Hc Hp Hd) as (E1 & E2 & E3).
    revert Hw. unfold onDataRead_round.
    rewrite (getInbuf_message c control pkt digest rest Hb Hc Hp Hd).
    rewrite E1, E2, E3. fold c0.
    change (rejectPackets c0) with (rejectPackets c).
    assert (Hno : ∀ A (l : list A) x, l ≠ l ++ [x]).
    { intros A l x Hl. apply (f_equal length) in Hl.
      rewrite length_app in Hl. simpl in Hl. lia. }
    case_bool_decide as Hjunk.
    + case_bool_decide; simpl; intros Hw; [by apply Hno in Hw|].
      apply app_inv_head in Hw. injection Hw as <-. discriminate Hack.
    + case_bool_decide as Hsend; [|simpl; intros Hw; by apply Hno in Hw].
      destruct (rejectPackets c) eqn:Hr.
      * case_bool_decide; simpl; intros Hw; [by apply Hno in Hw|]. done.
      * case_bool_decide; simpl; intros Hw; [by apply Hno in Hw|].
        apply app_inv_head in Hw. injection Hw as <-. discriminate Hack.
Qed.

End MMTPServerFacts.

(** ** The reactor *)

Section ReactorFacts.
Context `{ReactorEnv}.

Lemma tick_bucket t cs st bwpt b mb :
  tick (mkServer t cs st (Some bwpt) b (Some mb))
  = mkServer t cs st (Some bwpt) (Some (Z.min (default 0%Z b + bwpt) mb)) (Some mb).
Proof.
  unfold tick, set_bucket. simpl.
  destruct (Z.ltb_spec mb (default 0%Z b + bwpt)).
  - by rewrite Z.min_r by lia.
  - by rewrite Z.min_l by lia.
Qed.

Lemma process_bucket_empty timeout kernel s :
  bucket_empty s = true → process timeout kernel s = (Returns, s, [Sleep timeout]).
Proof. intros Hb. unfold process. case_bool_decide; [done|]. by rewrite Hb. Qed.

Lemma poll_process_bucket_empty timeout kernel s :
  bucket_empty s = true → poll_process timeout kernel s = (Returns, s, [Sleep timeout]).
Proof. intros Hb. unfold poll_process. by rewrite Hb. Qed.

(** C6: [setBandwidth(n)] without a burst sets the largest bucket to
    five times the bytes per tick; [tick()] sets the bucket to the
    smaller of bucket plus bytes per tick (an unset bucket counting as
    zero) and the largest bucket; and [process(timeout)], entered with a
    bucket that is zero or negative, sleeps for the timeout and returns:
    no [select] or [poll], no connection processed, the server
    unchanged.  This holds for the [select] and for the [poll] reactor. *)
Theorem token_bucket (n b : Z) (s : AsyncServer) t cs st bwpt (b0 : option Z) mb
    timeout kernel poll_kernel :
  (b ≤ 0)%Z →
  bucket s = Some b →
  (bandwidthPerTick (setBandwidth (Some n) None s) = Some (int_times_TICK_INTERVAL n)
   ∧ maxBucket (setBandwidth (Some n) None s) = Some (int_times_TICK_INTERVAL n * 5)%Z)
  ∧ tick (mkServer t cs st (Some bwpt) b0 (Some mb))
    = mkServer t cs st (Some bwpt) (Some (Z.min (default 0%Z b0 + bwpt) mb)) (Some mb)
  ∧ process timeout kernel s = (Returns, s, [Sleep timeout])
  ∧ poll_process timeout poll_kernel s = (Returns, s, [Sleep timeout]).
Proof.
  intros Hb Hs.
  assert (He : bucket_empty s = true).
  { unfold bucket_empty. rewrite Hs. by apply Z.leb_le. }
  split; [done|]. split; [apply tick_bucket|].
  split; [by apply process_bucket_empty|by apply poll_process_bucket_empty].
Qed.

End ReactorFacts.

(** ** Routing sizes and the size test of header construction *)

Section RoutingFacts.
Context `{Crypto} `{!PKEncrypt} `{!ServerInfoAPI} `{!FragmentsAPI}
        `{PacketConsts} `{PacketFormat}.

Lemma foldl_add_total (a : Z) (l : list Z) :
  foldl Z.add a l = (a + total_size l)%Z.
Proof.
  revert a. induction l as [|x l IH]; intros a; simpl.
  - unfold total_size. simpl. lia.
  - rewrite IH. unfold total_size. simpl. lia.
Qed.

Lemma reduce_add_total (x : Z) (l : list Z) :
  reduce_add (x :: l) = Ok (total_size (x :: l)).
Proof. simpl. rewrite foldl_add_total. reflexivity. Qed.

Lemma routing_sizes_last path exitType exitInfo :
  list_index (routing_sizes path exitType exitInfo)
    (length (routing_sizes path exitType exitInfo) - 1)
  = Ok (subheader_size (exitType, exitInfo)).
Proof.
  unfold routing_sizes, list_index. rewrite fmap_app. simpl.
  rewrite length_app. simpl.
  rewrite lookup_app_r by lia.
  replace (_ - _) with 0 by lia. done.
Qed.

Lemma routing_sizes_nonempty path exitType exitInfo :
  ∃ x l, routing_sizes path exitType exitInfo = x :: l.
Proof.
  unfold routing_sizes. rewrite fmap_app. simpl.
  destruct (subheader_size <$> hop_routing path); simpl; eauto.
Qed.

Lemma _getRouting_cases path exitType exitInfo :
  _getRouting path exitType exitInfo
  = if bool_decide (header_too_big path exitType exitInfo)
    then Raise (Exn MixError "Routing info won't fit in header")
    else Ok (hop_routing path ++ [(exitType, exitInfo)],
             routing_sizes path exitType exitInfo,
             total_size (routing_sizes path exitType exitInfo)).
Proof.
  unfold _getRouting. fold (routing_sizes path exitType exitInfo).
  destruct (routing_sizes_nonempty path exitType exitInfo) as (x & l & Hs).
  rewrite Hs at 1. rewrite reduce_add_total, <- Hs. simpl.
  rewrite routing_sizes_last. simpl. unfold header_too_big.
  destruct (Z.ltb_spec HEADER_LEN (total_size (routing_sizes path exitType exitInfo))).
  - rewrite bool_decide_eq_true_2 by (by left). done.
  - destruct (Z.ltb_spec
      (HEADER_LEN - total_size (routing_sizes path exitType exitInfo)
       + subheader_size (exitType, exitInfo)) ENC_SUBHEADER_LEN).
    + rewrite bool_decide_eq_true_2 by (by right). done.
    + rewrite bool_decide_eq_false_2 by lia. done.
Qed.

(** C5: the size test of header construction.  With [size] the list of
    [len(ri) + OAEP_OVERHEAD + MIN_SUBHEADER_LEN] over the routing infos
    and [padding = HEADER_LEN - sum], [_getRouting] raises exactly when
    the sum exceeds [HEADER_LEN] or [padding] plus the last size is below
    [ENC_SUBHEADER_LEN]; [_buildHeader], for servers that know the packet
    format and one secret per server, raises that error in the same
    case and otherwise goes on to draw the padding and build the
    subheaders.  A sum of exactly [HEADER_LEN] with a last size of at
    least [ENC_SUBHEADER_LEN] passes; a sum one larger does not. *)
Theorem header_size_test path secrets exitType exitInfo paddingPRNG w :
  unsupported_server path = None →
  length path = length secrets →
  let sizes := routing_sizes path exitType exitInfo in
  let total := total_size sizes in
  let too_big := header_too_big path exitType exitInfo in
  (too_big ↔ is_Ok (_getRouting path exitType exitInfo) = false)
  ∧ (too_big →
     _getRouting path exitType exitInfo
     = Raise (Exn MixError "Routing info won't fit in header")
     ∧ _buildHeader path secrets exitType exitInfo paddingPRNG w
       = (Raise (Exn MixError "Routing info won't fit in header"), w))
  ∧ (¬ too_big →
     _getRouting path exitType exitInfo
     = Ok (hop_routing path ++ [(exitType, exitInfo)], sizes, total)
     ∧ _buildHeader path secrets exitType exitInfo paddingPRNG w
       = (header ← getBytes paddingPRNG (HEADER_LEN - total);
          _buildHeader_for path secrets (hop_routing path ++ [(exitType, exitInfo)])
            ((λ secret, Keyset_get secret HEADER_SECRET_MODE) <$> secrets)
            (junk_loop [[]]
               (zip3 secrets
                  ((λ secret, Keyset_get secret HEADER_SECRET_MODE) <$> secrets)
                  sizes))
            header (reverse (seq 0 (length path)))) w)
  ∧ (total = HEADER_LEN →
     (ENC_SUBHEADER_LEN ≤ subheader_size (exitType, exitInfo))%Z → ¬ too_big)
  ∧ (total = (HEADER_LEN + 1)%Z → too_big).
Proof.
  intros Hsup Hlen sizes total too_big.
  pose proof (_getRouting_cases path exitType exitInfo) as Hr.
  fold sizes total too_big in Hr.
  assert (Hb : too_big →
    _buildHeader path secrets exitType exitInfo paddingPRNG w
    = (Raise (Exn MixError "Routing info won't fit in header"), w)).
  { intros Ht. unfold _buildHeader, assert.
    rewrite bool_decide_eq_true_2 by done. rewrite Hsup.
    unfold mbind, M_bind, mret, M_ret, lift. rewrite Hr.
    by rewrite bool_decide_eq_true_2 by done. }
  split; [|split; [|split; [|split]]].
  - rewrite Hr. case_bool_decide; simpl; split; (done || by intros ?).
  - intros Ht. split; [|by apply Hb].
    rewrite Hr. by rewrite bool_decide_eq_true_2 by done.
  - intros Hn. split.
    + rewrite Hr. by rewrite bool_decide_eq_false_2 by done.
    + unfold _buildHeader, assert.
      rewrite bool_decide_eq_true_2 by done. rewrite Hsup.
      unfold mbind at 1 2, M_bind, mret, M_ret, lift. rewrite Hr.
      rewrite bool_decide_eq_false_2 by done.
      destruct (Z.ltb_spec HEADER_LEN total) as [Hlt|]; [|done].
      destruct Hn. by left.
  - unfold total, sizes. intros Ht Hl [Hx|Hx]; lia.
  - unfold total, sizes. intros Ht. left. lia.
Qed.

End RoutingFacts.

(** ** Message encoding *)

Section EncodingFacts.
Context `{Crypto} `{!PKEncrypt} `{!ServerInfoAPI} `{!FragmentsAPI}
        `{PacketConsts} `{PacketFormat}.

Lemma getBytes_live rng n w :
  live rng w → ∃ s w', getBytes rng n w = (Ok s, w').
Proof.
  destruct rng as [| |i]; simpl; intros Hl.
  - destruct (rng_getBytes (w_common w) n); eauto.
  - destruct (rng_getBytes (w_true w) n); eauto.
  - destruct Hl as [st Hst]. rewrite Hst.
    destruct (rng_getBytes st n); eauto.
Qed.

(** The message that is fragmented: the compressed message after the
    prefix. *)
Lemma prefixed_payload (prefix payload : bytes) :
  match prefix with
  | [] => payload
  | _ :: _ => prefix ++ payload
  end = prefix ++ payload.
Proof. by destruct prefix. Qed.

Lemma prefixed_len (prefix payload : bytes) :
  match prefix with
  | [] => len payload
  | _ :: _ => (len payload + len prefix)%Z
  end = len (prefix ++ payload).
Proof.
  rewrite len_app. destruct prefix; [|lia]. unfold len. simpl. lia.
Qed.

(** X1: for an overhead of 0 or [ENC_FWD_OVERHEAD] and a padding
    generator that exists, [encodeMessage] returns exactly one payload
    when the compressed message, the overhead and 22 bytes fit in
    [PAYLOAD_LEN], and [getNPacketsToEncode] returns 1. *)
Theorem encodeMessage_single message overhead prefix paddingPRNG w :
  overhead_ok overhead = true →
  live (default_prng paddingPRNG) w →
  (len (compressData message) + overhead + 22 ≤ PAYLOAD_LEN)%Z →
  getNPacketsToEncode message overhead prefix = Ok 1%Z
  ∧ ∃ payload w', encodeMessage message overhead prefix paddingPRNG w
                  = (Ok [payload], w').
Proof.
  intros Hov Hlive Hfit. split.
  - unfold getNPacketsToEncode, assert_pure. rewrite Hov. simpl.
    change SINGLETON_PAYLOAD_OVERHEAD with 22%Z.
    destruct (Z.leb_spec 0 (PAYLOAD_LEN - 22 - overhead
                            - len (compressData message))); [done|lia].
  - unfold encodeMessage, assert. rewrite Hov.
    unfold mbind at 1, M_bind, mret at 1, M_ret.
    change SINGLETON_PAYLOAD_OVERHEAD with 22%Z.
    destruct (Z.leb_spec 0 (PAYLOAD_LEN - 22 - overhead
                            - len (compressData message))); [|lia].
    destruct (getBytes_live _ (PAYLOAD_LEN - 22 - overhead
                               - len (compressData message))%Z w Hlive)
      as (pad & w' & Hpad).
    unfold mbind, M_bind. rewrite Hpad. eauto.
Qed.

(** X2: when the compressed message, the overhead and 22 bytes do not
    fit in [PAYLOAD_LEN], [encodeMessage] and [getNPacketsToEncode] build
    the same [FragmentationParams], those of the length of the prefix and
    the compressed message: [encodeMessage] returns one payload for each
    fragment that [getFragments] gives for them, in the same order, and
    [getNPacketsToEncode] returns their [n * nChunks]; when
    [FragmentationParams] raises, both raise its exception. *)
Theorem encodeMessage_fragmented message overhead prefix paddingPRNG w
    messageid w1 :
  overhead_ok overhead = true →
  (PAYLOAD_LEN < len (compressData message) + overhead + 22)%Z →
  getBytes CommonPRNG FRAGMENT_MESSAGEID_LEN w = (Ok messageid, w1) →
  match new_FragmentationParams (len (prefix ++ compressData message)) overhead with
  | Ok p =>
      getNPacketsToEncode message overhead prefix
      = Ok (fparams_n p * fparams_nChunks p)%Z
      ∧ ∀ raw w2,
          getFragments p (prefix ++ compressData message) w1 = (Ok raw, w2) →
          ∃ payloads,
            encodeMessage message overhead prefix paddingPRNG w = (Ok payloads, w2)
            ∧ length payloads = length raw
            ∧ ∀ i frag, raw !! i = Some frag →
                payloads !! i
                = Some (FragmentPayload_pack
                          (FragmentPayload_computeHash
                             (mkFragment (Z.of_nat i) None messageid
                                (fparams_length p) frag)))
  | Raise e =>
      getNPacketsToEncode message overhead prefix = Raise e
      ∧ encodeMessage message overhead prefix paddingPRNG w = (Raise e, w1)
  end.
Proof.
  intros Hov Hbig Hid.
  assert (Hn : getNPacketsToEncode message overhead prefix
               = p ← new_FragmentationParams
                       (len (prefix ++ compressData message)) overhead;
                 mret (fparams_n p * fparams_nChunks p)%Z).
  { unfold getNPacketsToEncode, assert_pure. rewrite Hov. simpl.
    change SINGLETON_PAYLOAD_OVERHEAD with 22%Z.
    destruct (Z.leb_spec 0 (PAYLOAD_LEN - 22 - overhead
                            - len (compressData message))); [lia|].
    by rewrite prefixed_len. }
  assert (He : encodeMessage message overhead prefix paddingPRNG w
               = (p ← lift (new_FragmentationParams
                              (len (prefix ++ compressData message)) overhead);
                  rawFragments ← getFragments p (prefix ++ compressData message);
                  mret (imap (λ i frag,
                          FragmentPayload_pack
                            (FragmentPayload_computeHash
                               (mkFragment (Z.of_nat i) None messageid
                                  (fparams_length p) frag)))
                        rawFragments)) w1).
  { unfold encodeMessage, assert. rewrite Hov.
    unfold mbind at 1, M_bind, mret at 1, M_ret.
    change SINGLETON_PAYLOAD_OVERHEAD with 22%Z.
    destruct (Z.leb_spec 0 (PAYLOAD_LEN - 22 - overhead
                            - len (compressData message))); [lia|].
    rewrite prefixed_payload. unfold mbind at 1, M_bind. by rewrite Hid. }
  rewrite Hn, He. clear Hn He.
  destruct (new_FragmentationParams _ overhead) as [p|e]; [|done].
  split; [done|]. intros raw w2 Hraw.
  eexists. split; [|split].
  - unfold mbind, M_bind, lift. rewrite Hraw. reflexivity.
  - apply length_imap.
  - intros i frag Hi. rewrite list_lookup_imap, Hi. reflexivity.
Qed.

End EncodingFacts.

(** ** RSA encryption during packet construction *)

Section RetryFacts.
Context `{Crypto} `{!PKEncrypt} `{!ServerInfoAPI} `{!FragmentsAPI}
        `{PacketConsts} `{PacketFormat}.

Lemma M_bind_Ok {A B} (m : M A) (k : A → M B) w b w' :
  (m ≫= k) w = (Ok b, w') →
  ∃ a w1, m w = (Ok a, w1) ∧ k a w1 = (Ok b, w').
Proof.
  unfold mbind, M_bind. destruct (m w) as [[a|e] w1]; [eauto|done].
Qed.

Lemma lift_Ok {A} (r : result A) w a w' :
  lift r w = (Ok a, w') → r = Ok a ∧ w' = w.
Proof. unfold lift. by intros [= -> ->]. Qed.

Lemma pyindex_0_cons c rest : pyindex (c :: rest) 0 = Ok c.
Proof.
  unfold pyindex. simpl.
  destruct (Z.leb_spec (Z.of_nat (S (length rest))) 0); [lia|]. done.
Qed.

Lemma pyindex_0_Ok s c : pyindex s 0 = Ok c → ∃ rest, s = c :: rest.
Proof.
  destruct s as [|c' rest]; [done|].
  rewrite pyindex_0_cons. intros [= ->]. eauto.
Qed.

Lemma encrypt_until_msb_clear_first fuel rsaPart key w encrypted w1 :
  pk_encrypt rsaPart key w = (Ok encrypted, w1) →
  msb_clear encrypted →
  encrypt_until_msb_clear (S fuel) rsaPart key w = (Ok (Some encrypted), w1).
Proof.
  intros Hpk (c & rest & -> & Hc). simpl.
  unfold mbind, M_bind, lift. rewrite Hpk, pyindex_0_cons.
  by rewrite bool_decide_eq_true_2.
Qed.

Lemma encrypt_until_msb_clear_again fuel rsaPart key w encrypted w1 :
  pk_encrypt rsaPart key w = (Ok encrypted, w1) →
  msb_set encrypted →
  encrypt_until_msb_clear (S fuel) rsaPart key w
  = encrypt_until_msb_clear fuel rsaPart key w1.
Proof.
  intros Hpk (c & rest & -> & Hc). simpl.
  unfold mbind, M_bind, lift. rewrite Hpk, pyindex_0_cons.
  by rewrite bool_decide_eq_false_2.
Qed.

Lemma encrypt_until_msb_clear_sound fuel rsaPart key w encrypted w' :
  encrypt_until_msb_clear fuel rsaPart key w = (Ok (Some encrypted), w') →
  msb_clear encrypted.
Proof.
  revert w. induction fuel as [|fuel IH]; intros w; simpl; [done|].
  intros Hl. apply M_bind_Ok in Hl as (c1 & w1 & Hpk & Hl).
  apply M_bind_Ok in Hl as (c & w2 & Hc & Hl).
  apply lift_Ok in Hc as [Hc ->].
  case_bool_decide as Hb.
  - injection Hl as <- <-. apply pyindex_0_Ok in Hc as [rest ->].
    by exists c, rest.
  - by apply IH in Hl.
Qed.

Lemma encrypt_until_msb_clear_more fuel k rsaPart key w encrypted w' :
  encrypt_until_msb_clear fuel rsaPart key w = (Ok (Some encrypted), w') →
  encrypt_until_msb_clear (fuel + k) rsaPart key w = (Ok (Some encrypted), w').
Proof.
  revert w. induction fuel as [|fuel IH]; intros w; simpl; [done|].
  intros Hl. apply M_bind_Ok in Hl as (c1 & w1 & Hpk & Hl).
  apply M_bind_Ok in Hl as (c & w2 & Hc & Hl).
  apply lift_Ok in Hc as [Hc ->].
  unfold mbind, M_bind, lift. rewrite Hpk, Hc.
  case_bool_decide; [done|]. by apply IH.
Qed.

Lemma msb_set_not_clear s : msb_set s → ¬ msb_clear s.
Proof.
  intros (c & rest & -> & Hs) (c' & rest' & [= <- <-] & Hc). done.
Qed.

(** The ciphertext the loop leaves with is what its last call of
    [pk_encrypt] returned. *)
Lemma encrypt_until_msb_clear_last fuel rsaPart key w encrypted w' :
  encrypt_until_msb_clear fuel rsaPart key w = (Ok (Some encrypted), w') →
  ∃ w0, pk_encrypt rsaPart key w0 = (Ok encrypted, w').
Proof.
  revert w. induction fuel as [|fuel IH]; intros w; simpl; [done|].
  intros Hl. apply M_bind_Ok in Hl as (c1 & w1 & Hpk & Hl).
  apply M_bind_Ok in Hl as (c & w2 & Hc & Hl).
  apply lift_Ok in Hc as [Hc ->].
  case_bool_decide.
  - injection Hl as <- <-. eauto.
  - eauto.
Qed.

End RetryFacts.

(** ** The server side of MMTP: closing, and whole buffers *)

Section MMTPServerClosing.
Context `{Crypto}.

Lemma onDataRead_round_closes c control pkt digest rest :
  inbuf c = control ++ pkt ++ digest ++ rest →
  len control = 6%Z → len pkt = 32768%Z → len digest = 20%Z →
  (control ≠ JUNK_CONTROL ∧ control ≠ SEND_CONTROL)
  ∨ (control = JUNK_CONTROL ∧ digest ≠ sha1 (pkt ++ lit "JUNK"))
  ∨ (control = SEND_CONTROL ∧ digest ≠ sha1 (pkt ++ lit "SEND")) →
  onDataRead_round c = (startShutdown (after_message rest c), false).
Proof.
  intros Hb Hc Hp Hd Hbad.
  destruct (message_parts control pkt digest Hc Hp Hd) as (E1 & E2 & E3).
  unfold onDataRead_round.
  rewrite (getInbuf_message c control pkt digest rest Hb Hc Hp Hd).
  rewrite E1, E2, E3.
  destruct Hbad as [[Hj Hs]|[[-> Hg]|[-> Hg]]].
  - by rewrite !bool_decide_eq_false_2 by done.
  - rewrite bool_decide_eq_true_2 by done.
    rewrite bool_decide_eq_true_2 by (by intros ?). done.
  - rewrite bool_decide_eq_false_2 by discriminate.
    rewrite bool_decide_eq_true_2 by done.
    destruct (rejectPackets _);
      rewrite bool_decide_eq_true_2 by (by intros ?); done.
Qed.

Lemma message_arrived c control pkt digest rest :
  inbuf c = control ++ pkt ++ digest ++ rest →
  len control = 6%Z → len pkt = 32768%Z → len digest = 20%Z →
  (MESSAGE_LEN ≤ inbuflen c)%Z.
Proof.
  intros Hb Hc Hp Hd.
  unfold inbuflen. rewrite Hb, !len_app, Hc, Hp, Hd, MESSAGE_LEN_eq.
  pose proof (len_nonneg rest). lia.
Qed.

(** X3: a message whose control line is neither JUNK nor SEND makes
    [onDataRead] start the shutdown of the connection and return: no
    acknowledgement is written, no callback is called, and what follows
    the message in the buffer stays there, unread. *)
Theorem onDataRead_unrecognized_command c control pkt digest rest :
  inbuf c = control ++ pkt ++ digest ++ rest →
  len control = 6%Z → len pkt = 32768%Z → len digest = 20%Z →
  control ≠ JUNK_CONTROL → control ≠ SEND_CONTROL →
  ∃ c', onDataRead c = Some c'
    ∧ shutdown_started c' = true
    ∧ written c' = written c
    ∧ called c' = called c
    ∧ inbuf c' = rest.
Proof.
  intros Hb Hc Hp Hd Hj Hs.
  exists (startShutdown (after_message rest c)).
  rewrite (onDataRead_next c (message_arrived _ _ _ _ _ Hb Hc Hp Hd)).
  rewrite (onDataRead_round_closes c control pkt digest rest) by auto.
  done.
Qed.

(** X4: a JUNK or SEND message whose last 20 bytes are not the digest of
    the packet and the command word makes [onDataRead] start the
    shutdown and return, in reject mode or not: no acknowledgement, no
    callback, the rest of the buffer unread. *)
Theorem onDataRead_invalid_checksum c control pkt digest rest :
  inbuf c = control ++ pkt ++ digest ++ rest →
  len control = 6%Z → len pkt = 32768%Z → len digest = 20%Z →
  (control = JUNK_CONTROL ∧ digest ≠ sha1 (pkt ++ lit "JUNK"))
  ∨ (control = SEND_CONTROL ∧ digest ≠ sha1 (pkt ++ lit "SEND")) →
  ∃ c', onDataRead c = Some c'
    ∧ shutdown_started c' = true
    ∧ written c' = written c
    ∧ called c' = called c
    ∧ inbuf c' = rest.
Proof.
  intros Hb Hc Hp Hd Hbad.
  exists (startShutdown (after_message rest c)).
  rewrite (onDataRead_next c (message_arrived _ _ _ _ _ Hb Hc Hp Hd)).
  rewrite (onDataRead_round_closes c control pkt digest rest) by auto.
  done.
Qed.

Lemma wire_parts m :
  (∀ s, len (sha1 s) = DIGEST_LEN) →
  ∃ control digest,
    wire m = control ++ sent_pkt m ++ digest
    ∧ len control = 6%Z ∧ len digest = 20%Z
    ∧ (control = JUNK_CONTROL ∧ digest = sha1 (sent_pkt m ++ lit "JUNK")
                               ∧ m = SentJunk (sent_pkt m)
       ∨ control = SEND_CONTROL ∧ digest = sha1 (sent_pkt m ++ lit "SEND")
                                 ∧ m = SentPacket (sent_pkt m)).
Proof.
  intros Hsha. destruct m as [pkt|pkt]; simpl.
  - exists JUNK_CONTROL, (sha1 (pkt ++ lit "JUNK")).
    split; [done|]. split; [done|]. split; [apply Hsha|]. by left.
  - exists SEND_CONTROL, (sha1 (pkt ++ lit "SEND")).
    split; [done|]. split; [done|]. split; [apply Hsha|]. by right.
Qed.

(** X5: a buffer that holds any number of well-formed messages, each
    with a 32768-byte packet, followed by less than one message, is
    worked off in one call: the acknowledgements are queued in the order
    of the messages, one callback is called per message in the same
    order, and the incomplete rest stays in the buffer. *)
Theorem onDataRead_stream c msgs rest :
  (∀ s, len (sha1 s) = DIGEST_LEN) →
  Forall (λ m, len (sent_pkt m) = 32768%Z) msgs →
  inbuf c = concat (wire <$> msgs) ++ rest →
  (len rest < MESSAGE_LEN)%Z →
  onDataRead c
  = Some (mkConnection rest (rejectPackets c)
            (written c ++ (ack (rejectPackets c) <$> msgs))
            (shutdown_started c)
            (called c ++ (invoked (rejectPackets c) <$> msgs))).
Proof.
  intros Hsha Hall. revert c.
  induction Hall as [|m msgs Hm Hall IH]; intros c Hb Hrest.
  - simpl in *. rewrite !app_nil_r.
    rewrite onDataRead_wait by (unfold inbuflen; by rewrite Hb).
    destruct c; simpl in *; by subst.
  - destruct (wire_parts m Hsha) as (control & digest & Hw & Hc & Hd & Hkind).
    assert (Hb' : inbuf c = control ++ sent_pkt m ++ digest
                            ++ (concat (wire <$> msgs) ++ rest)).
    { rewrite Hb. simpl. rewrite Hw. by rewrite <- !app_assoc. }
    rewrite (onDataRead_next c (message_arrived _ _ _ _ _ Hb' Hc Hm Hd)).
    destruct (onDataRead_round_message c control (sent_pkt m) digest _ Hb' Hc Hm Hd)
      as [Hj Hs].
    destruct Hkind as [(E1 & E2 & Em)|(E1 & E2 & Em)].
    + rewrite (Hj E1 E2). simpl. rewrite IH by done. simpl.
      rewrite Em. simpl. by rewrite <- !app_assoc.
    + rewrite (Hs E1 E2). simpl.
      destruct (rejectPackets c) eqn:Hr; simpl; rewrite IH by done; simpl;
        rewrite Hr, Em; simpl; by rewrite <- !app_assoc.
Qed.

Lemma onDataRead_while_ends fuel c c' :
  onDataRead_while fuel c = Some c' →
  ((inbuflen c' < MESSAGE_LEN)%Z ∨ shutdown_started c' = true)
  ∧ written c `prefix_of` written c'
  ∧ called c `prefix_of` called c'
  ∧ inbuf c' `suffix_of` inbuf c
  ∧ rejectPackets c' = rejectPackets c.
Proof.
  revert c. induction fuel as [|fuel IH]; intros c; simpl;
    destruct (Z.leb_spec MESSAGE_LEN (inbuflen c)) as [Hl|Hl]; try done.
  - intros [= <-]. split; [by left|done].
  - destruct (onDataRead_round c) as [c1 continue] eqn:Hr.
    assert (Hstep : written c `prefix_of` written c1
                    ∧ called c `prefix_of` called c1
                    ∧ inbuf c1 `suffix_of` inbuf c
                    ∧ rejectPackets c1 = rejectPackets c
                    ∧ (continue = false → shutdown_started c1 = true)).
    { pose proof (onDataRead_round_inbuf c) as Hi. rewrite Hr in Hi. simpl in Hi.
      split; [|split; [|split; [|split]]].
      - revert Hr. unfold onDataRead_round, getInbuf.
        repeat (case_bool_decide || case_match || simplify_eq/=);
          intros; simplify_eq/=; try done; by apply prefix_app_r.
      - revert Hr. unfold onDataRead_round, getInbuf.
        repeat (case_bool_decide || case_match || simplify_eq/=);
          intros; simplify_eq/=; try done; by apply prefix_app_r.
      - rewrite Hi, slice_suffix by (by rewrite MESSAGE_LEN_eq).
        apply suffix_drop.
      - revert Hr. unfold onDataRead_round, getInbuf.
        repeat (case_bool_decide || case_match || simplify_eq/=);
          intros; by simplify_eq/=.
      - revert Hr. unfold onDataRead_round, getInbuf.
        repeat (case_bool_decide || case_match || simplify_eq/=);
          intros; by simplify_eq/=. }
    destruct Hstep as (Hw & Hc & Hi & Hrj & Hsd).
    destruct continue.
    + intros Hrec. apply IH in Hrec as (He & Hw' & Hc' & Hi' & Hrj').
      split; [done|]. split; [by etrans|]. split; [by etrans|].
      split; [by etrans|congruence].
    + intros [= <-]. split; [right; by apply Hsd|done].
  - intros [= <-]. split; [by left|done].
Qed.

(** X6: [onDataRead] always returns, and when it does the buffer holds
    less than one message or the shutdown has been started; it only adds
    to the acknowledgements queued and the callbacks called, only takes
    from the front of the buffer, and never changes the reject mode. *)
Theorem onDataRead_ends c :
  ∃ c', onDataRead c = Some c'
    ∧ ((inbuflen c' < MESSAGE_LEN)%Z ∨ shutdown_started c' = true)
    ∧ written c `prefix_of` written c'
    ∧ called c `prefix_of` called c'
    ∧ inbuf c' `suffix_of` inbuf c
    ∧ rejectPackets c' = rejectPackets c.
Proof.
  destruct (onDataRead_total c) as [c' Hc']. exists c'. split; [done|].
  by apply (onDataRead_while_ends (length (inbuf c))).
Qed.

End MMTPServerClosing.

(** ** The tables of the reactor *)

Section ReactorTablesFacts.
Context `{ReactorEnv}.

Lemma tables_agree_lookup s fd :
  tables_agree s → is_Some (connections s !! fd) ↔ is_Some (state s !! fd).
Proof.
  unfold tables_agree. intros Ha. rewrite <- !elem_of_dom. by rewrite Ha.
Qed.

Lemma server_eta s :
  mkServer (_timeout s) (connections s) (state s) (bandwidthPerTick s) (bucket s)
    (maxBucket s) = s.
Proof. by destruct s. Qed.

(** X7: [register] enters an open connection under its descriptor in
    both dicts and leaves the reactor alone for a closed one; [remove]
    undoes the [register] of a connection whose descriptor was free. *)
Theorem register_then_remove c wr ww isopen s :
  Connection_getStatus c = (wr, ww, isopen) →
  connections s !! Connection_fileno c = None →
  state s !! Connection_fileno c = None →
  (isopen = false → register c s = s)
  ∧ (isopen = true →
     connections (register c s) !! Connection_fileno c = Some c
     ∧ state (register c s) !! Connection_fileno c = Some (wr, ww)
     ∧ remove c None (register c s) = (Returns, s)).
Proof.
  intros Hst Hc Hs. unfold register. rewrite Hst. split; intros ->; simpl; [done|].
  split; [by rewrite lookup_insert_eq|]. split; [by rewrite lookup_insert_eq|].
  unfold remove. simpl. rewrite !lookup_insert_eq. simpl.
  unfold set_tables. simpl.
  rewrite !delete_insert_id by done. apply f_equal, server_eta.
Qed.

(** X8: when both dicts hold the same descriptors, [remove] is all or
    nothing: it raises [KeyError] with the reactor untouched when the
    descriptor is not registered, and otherwise deletes it from both
    dicts, which hold the same descriptors afterwards. *)
Theorem remove_all_or_nothing c fd s :
  tables_agree s →
  let d := match fd with None => Connection_fileno c | Some fd => fd end in
  (connections s !! d = None → remove c fd s = (Raises "KeyError", s))
  ∧ (is_Some (connections s !! d) →
     ∃ s', remove c fd s = (Returns, s')
       ∧ connections s' = delete d (connections s)
       ∧ state s' = delete d (state s)
       ∧ tables_agree s').
Proof.
  intros Ha d. unfold remove. fold d. split.
  - by intros ->.
  - intros Hc. pose proof (proj1 (tables_agree_lookup s d Ha) Hc) as [st Hst].
    destruct Hc as [c0 ->]. simpl. rewrite Hst.
    eexists. split; [done|]. split; [done|]. split; [done|].
    unfold tables_agree in *. simpl. by rewrite !dom_delete_L, Ha.
Qed.

Lemma register_agree c s : tables_agree s → tables_agree (register c s).
Proof.
  unfold tables_agree, register. intros Ha.
  destruct (Connection_getStatus c) as [[wr ww] [|]]; simpl; [|done].
  by rewrite !dom_insert_L, Ha.
Qed.





(** X10: a reactor with a limit of [bwpt] bytes per tick and a bucket
    that holds no more than the largest bucket gains [bwpt] bytes with
    every tick until the largest bucket is reached, and stays there:
    after [k] ticks the bucket holds the smaller of [b + k*bwpt] and the
    largest bucket. *)
Theorem tick_refills k t cs st bwpt b mb :
  (0 ≤ bwpt)%Z → (b ≤ mb)%Z →
  Nat.iter k tick (mkServer t cs st (Some bwpt) (Some b) (Some mb))
  = mkServer t cs st (Some bwpt) (Some (Z.min (b + Z.of_nat k * bwpt) mb)) (Some mb).
Proof.
  intros Hbw Hb. induction k as [|k IH].
  - simpl. by rewrite Z.add_0_r, Z.min_l.
  - rewrite Nat.iter_succ, IH, tick_bucket. simpl. do 2 f_equal. lia.
Qed.

Lemma filter_none {A} (P : A → Prop) `{∀ x, Decision (P x)} (l : list A) :
  (∀ x, x ∈ l → ¬ P x) → filter P l = [].
Proof.
  intros Hn. destruct (filter P l) as [|x l'] eqn:E; [done|].
  assert (Hx : x ∈ filter P l) by (rewrite E; left).
  apply list_elem_of_filter in Hx as [HP Hin]. by destruct (Hn x Hin).
Qed.

(** X11: a reactor none of whose connections wants to read or write
    sleeps for the timeout instead of calling [select], whatever the
    bucket holds. *)
Theorem process_nothing_wanted timeout kernel s :
  map_Forall (λ _ st, st = (0%Z, 0%Z)) (state s) →
  process timeout kernel s = (Returns, s, [Sleep timeout]).
Proof.
  intros Hall. unfold process.
  assert (Hnone : ∀ (P : Z * (Z * Z) → Prop) `{∀ x, Decision (P x)},
            (∀ fd, ¬ P (fd, (0%Z, 0%Z))) →
            filter P (map_to_list (state s)) = []).
  { intros P ? HP. apply filter_none. intros [fd st] Hin.
    apply elem_of_map_to_list in Hin. rewrite (Hall fd st Hin). apply HP. }
  rewrite !Hnone by (intros fd; simpl; intros ?; done).
  done.
Qed.

Lemma select_dispatch_unlimited active s :
  bucket s = None →
  ∀ e s' effs, select_dispatch active None s = (e, s', effs) →
  bucket s' = None
  ∧ Forall (λ eff, ∃ fd r w, eff = Process fd r w 0 None) effs.
Proof.
  revert s. induction active as [|[[[c r] w] fd] active IH]; intros s Hb e s' effs.
  - simpl. intros [= <- <- <-]. done.
  - simpl. destruct (Connection_process c r w 0 None) as [[[[wr ww] isopen] nbytes] c'].
    destruct isopen; simpl.
    + match goal with
      | |- context [select_dispatch active None ?s1] =>
          pose proof (IH s1 Hb) as IH1;
          destruct (select_dispatch active None s1) as [[e1 s1'] effs1]
      end.
      intros [= <- <- <-]. destruct (IH1 _ _ _ eq_refl) as [? ?].
      split; [done|]. constructor; [by eexists _, _, _|done].
    + destruct (state s !! fd).
      * match goal with
        | |- context [select_dispatch active None ?s1] =>
            pose proof (IH s1 Hb) as IH1;
            destruct (select_dispatch active None s1) as [[e1 s1'] effs1]
        end.
        intros [= <- <- <-]. destruct (IH1 _ _ _ eq_refl) as [? ?].
        split; [done|]. constructor; [by eexists _, _, _|done].
      * intros [= <- <- <-]. split; [done|]. constructor; [by eexists _, _, _|done].
Qed.

(** X12: without a bandwidth limit, that is with the bucket unset,
    [process] hands every connection it processes the cap [None] and
    leaves the bucket unset. *)
Theorem process_unlimited timeout kernel s e s' effs :
  bucket s = None →
  process timeout kernel s = (e, s', effs) →
  bucket s' = None
  ∧ Forall (λ eff, ∀ fd r w x cap, eff = Process fd r w x cap → cap = None) effs.
Proof.
  intros Hb. unfold process.
  case_bool_decide.
  { intros [= <- <- <-]. split; [done|]. repeat constructor. by intros. }
  unfold bucket_empty. rewrite Hb.
  destruct (kernel _ _ _) as [[[readfds writefds] exfds]|errno].
  - destruct (omap _ _) as [|a active].
    { intros [= <- <- <-]. split; [done|]. repeat constructor. by intros. }
    unfold cap_for. rewrite Hb. simpl fmap.
    pose proof (select_dispatch_unlimited (a :: active) s Hb) as Hd.
    destruct (select_dispatch (a :: active) None s) as [[e1 s1] effs1].
    intros [= <- <- <-]. destruct (Hd _ _ _ eq_refl) as [Hb' Hall].
    split; [done|]. constructor; [by intros|].
    eapply Forall_impl; [exact Hall|].
    intros eff (fd & r & w & ->) fd' r' w' x' cap' [= _ _ _ _ <-]. done.
  - case_bool_decide; intros [= <- <- <-]; (split; [done|]);
      repeat constructor; by intros.
Qed.

(** X13: with a limit, the loop of [process] charges the bucket the
    bytes every connection reports as used, whatever the cap was: the
    bucket ends at what it held less their sum, below zero if that is
    how the sum comes out. *)
Theorem select_dispatch_charges active cap s s' effs :
  select_dispatch active (Some cap) s = (Returns, s', effs) →
  bucket s' = (λ b, b - bytes_used active (Some cap))%Z <$> bucket s.
Proof.
  revert s s' effs.
  induction active as [|[[[c r] w] fd] active IH]; intros s s' effs.
  - simpl. intros [= <- <-]. destruct (bucket s); simpl; [|done].
    f_equal. lia.
  - simpl.
    destruct (Connection_process c r w 0 (Some cap))
      as [[[[wr ww] isopen] nbytes] c'] eqn:Hp.
    simpl. destruct isopen; simpl.
    + match goal with
      | |- context [select_dispatch active (Some cap) ?s1] =>
          pose proof (IH s1) as IH1;
          destruct (select_dispatch active (Some cap) s1) as [[e1 s1'] effs1]
      end.
      intros [= -> <- <-]. rewrite (IH1 _ _ eq_refl). simpl.
      destruct (bucket s); simpl; [|done]. f_equal. lia.
    + destruct (state s !! fd); [|done].
      match goal with
      | |- context [select_dispatch active (Some cap) ?s1] =>
          pose proof (IH s1) as IH1;
          destruct (select_dispatch active (Some cap) s1) as [[e1 s1'] effs1]
      end.
      intros [= -> <- <-]. rewrite (IH1 _ _ eq_refl). simpl.
      destruct (bucket s); simpl; [|done]. f_equal. lia.
Qed.

(** X14: [PollAsyncServer.remove] undoes the [register] of an open
    connection whose descriptor was free and whose status has an event
    mask: the descriptor is registered with that mask and unregistered
    again, and the reactor is as it was. *)
Theorem poll_register_then_remove c wr ww mask s :
  Connection_getStatus c = (wr, ww, true) →
  EVENT_MASK wr ww = Some mask →
  connections s !! Connection_fileno c = None →
  ∃ s1, poll_register c s = (Returns, s1, [PollRegister (Connection_fileno c) mask])
    ∧ connections s1 !! Connection_fileno c = Some c
    ∧ poll_remove c None s1 = (Returns, s, [PollUnregister (Connection_fileno c)]).
Proof.
  intros Hst Hm Hc. unfold poll_register. rewrite Hst, Hm. simpl.
  eexists. split; [done|]. simpl. split; [by rewrite lookup_insert_eq|].
  unfold poll_remove. simpl. rewrite lookup_insert_eq.
  unfold set_tables. simpl. rewrite delete_insert_id by done.
  by rewrite server_eta.
Qed.

End ReactorTablesFacts.

Section AgingFacts.
Context `{ReactorEnv} `{!ConnectionAging}.

Lemma tryTimeout_for_agree items cutoff s :
  NoDup items.*1 →
  (∀ fd, fd ∈ items.*1 → fd ∈ dom (connections s)) →
  tables_agree s →
  ∃ s', tryTimeout_for items cutoff s = (Returns, s')
    ∧ tables_agree s'
    ∧ ∀ fd, fd ∈ dom (connections s')
            ↔ fd ∈ dom (connections s)
              ∧ ∀ c, (fd, c) ∈ items → (Connection_tryTimeout c cutoff).1 = false.
Proof.
  revert s. induction items as [|[fd0 con] items IH]; intros s Hnd Hin Ha.
  - simpl. eexists. split; [done|]. split; [done|].
    intros fd. split; [intros ?; split; [done|]; by intros c ?%elem_of_nil|by intros [? _]].
  - simpl in Hnd. apply NoDup_cons in Hnd as [Hfd0 Hnd].
    assert (Hc0 : fd0 ∈ dom (connections s)) by (apply Hin; simpl; left).
    assert (Hs0 : fd0 ∈ dom (state s)) by (by rewrite <- Ha).
    assert (Hrest : ∀ fd, fd ∈ items.*1 → fd ≠ fd0 ∧ fd ∈ dom (connections s)).
    { intros fd Hfd. split; [by intros ->|]. apply Hin. simpl. by right. }
    assert (Hkey : ∀ fd c, (fd, c) ∈ items → fd ≠ fd0).
    { intros fd c Hfc. apply Hrest. apply list_elem_of_fmap. by exists (fd, c). }
    simpl. destruct (Connection_tryTimeout con cutoff) as [expired con'] eqn:Ht.
    destruct expired.
    + unfold remove. simpl. rewrite lookup_insert_eq. simpl.
      apply elem_of_dom in Hs0 as [st Hst]. rewrite Hst.
      match goal with
      | |- context [tryTimeout_for items cutoff ?s1] =>
          destruct (IH s1) as (s' & Hd & Ha' & Hdom)
      end.
      * done.
      * intros fd Hfd. destruct (Hrest fd Hfd). simpl.
        rewrite dom_delete_L, dom_insert_L. set_solver.
      * unfold tables_agree in *. simpl.
        rewrite !dom_delete_L, dom_insert_L, <- Ha. set_solver.
      * exists s'. split; [done|]. split; [done|].
        intros fd. rewrite Hdom. simpl. rewrite dom_delete_L, dom_insert_L.
        split.
        -- intros [Hfd Hok]. split; [set_solver|].
           intros c [[= -> ->]|Hc]%elem_of_cons; [set_solver|by apply Hok].
        -- intros [Hfd Hok]. split.
           ++ assert (fd ≠ fd0); [|set_solver].
              intros ->. specialize (Hok con ltac:(left)). by rewrite Ht in Hok.
           ++ intros c Hc. apply Hok. by right.
    + match goal with
      | |- context [tryTimeout_for items cutoff ?s1] =>
          destruct (IH s1) as (s' & Hd & Ha' & Hdom)
      end.
      * done.
      * intros fd Hfd. destruct (Hrest fd Hfd). simpl.
        rewrite dom_insert_L. set_solver.
      * unfold tables_agree in *. simpl. rewrite dom_insert_L, <- Ha. set_solver.
      * exists s'. split; [done|]. split; [done|].
        intros fd. rewrite Hdom. simpl. rewrite dom_insert_L.
        split.
        -- intros [Hfd Hok]. split; [set_solver|].
           intros c [[= -> ->]|Hc]%elem_of_cons; [by rewrite Ht|by apply Hok].
        -- intros [Hfd Hok]. split; [set_solver|].
           intros c Hc. apply Hok. by right.
Qed.

(** X15: when both dicts hold the same descriptors, [tryTimeout] never
    fails on a lookup; with no timeout set it does nothing, and with a
    timeout of [t] seconds the connections that stay are those whose
    own [tryTimeout], asked with the cutoff [now - t], did not report a
    shutdown; the dicts hold the same descriptors afterwards. *)
Theorem tryTimeout_keeps_tables now clock s :
  tables_agree s →
  ∃ s', tryTimeout now clock s = (Returns, s')
    ∧ tables_agree s'
    ∧ (_timeout s = None → s' = s)
    ∧ (∀ t, _timeout s = Some t →
       ∀ fd, fd ∈ dom (connections s')
             ↔ ∃ c, connections s !! fd = Some c
                    ∧ (Connection_tryTimeout c
                         (Time_minus (default clock now) t)).1 = false).
Proof.
  intros Ha. unfold tryTimeout. destruct (_timeout s) as [t|].
  - destruct (tryTimeout_for_agree (map_to_list (connections s))
                (Time_minus (default clock now) t) s) as (s' & Hd & Ha' & Hdom).
    + apply NoDup_fst_map_to_list.
    + intros fd ([fd' c] & -> & Hfc)%list_elem_of_fmap.
      apply elem_of_map_to_list in Hfc. by apply elem_of_dom.
    + done.
    + exists s'. split; [by destruct now|]. split; [done|]. split; [done|].
      intros t' [= <-] fd. rewrite Hdom. split.
      * intros [[c Hc]%elem_of_dom Hok]. exists c. split; [done|].
        apply Hok. by apply elem_of_map_to_list.
      * intros (c & Hc & Hok). split; [by apply elem_of_dom|].
        intros c' Hc'%elem_of_map_to_list. by simplify_eq.
  - exists s. split; [done|]. split; [done|]. split; [done|]. by intros t [=].
Qed.

End AgingFacts.


(** ** Tags, the retry loop and the head of a header *)

Section BuildingFacts.
Context `{Crypto} `{!PKEncrypt} `{!ServerInfoAPI} `{!FragmentsAPI}
        `{PacketConsts} `{PacketFormat}.

(** The outcome of a run, from the result and the parts of the world it
    leaves. *)
Lemma run_eq {A} (r : result A * World) a c t objs status :
  r.1 = a → w_common r.2 = c → w_true r.2 = t → w_objs r.2 = objs →
  w_status r.2 = status →
  r = (a, mkWorld c t objs status).
Proof. destruct r as [a' []]. simpl. by intros -> -> -> -> ->. Qed.

Lemma run_value {A} (r : result A * World) a : r.1 = a → r = (a, r.2).
Proof. destruct r. simpl. by intros ->. Qed.

Lemma run_Ok {A} (r : result A * World) :
  is_Ok r.1 = true → ∃ a, r = (Ok a, r.2).
Proof. destruct r as [[a|e] w]; simpl; [by eexists|done]. Qed.

Lemma run_Ok_Some {A} (r : result (option A) * World) :
  match r.1 with Ok (Some _) => true | _ => false end = true →
  ∃ a, r = (Ok (Some a), r.2).
Proof. destruct r as [[[a|]|e] w]; simpl; [by eexists|done|done]. Qed.

Lemma chr_ord z c : chr z = Ok c → ord c = z.
Proof.
  unfold chr, ord. destruct (Z.ltb_spec z 0); [done|].
  destruct (Byte.of_N (Z.to_N z)) as [c'|] eqn:Hc; [|done].
  intros [= ->]. rewrite (Byte.to_of_N _ Hc). lia.
Qed.

Lemma getBytes_Ok rng n w s w' :
  getBytes rng n w = (Ok s, w') →
  ∃ st st', rng_getBytes st n = (s, st').
Proof.
  destruct rng as [| |i]; simpl.
  - destruct (rng_getBytes (w_common w) n) as [s0 st'] eqn:Hg.
    intros [= <- _]. eauto.
  - destruct (rng_getBytes (w_true w) n) as [s0 st'] eqn:Hg.
    intros [= <- _]. eauto.
  - destruct (w_objs w !! i) as [st0|]; [|done].
    destruct (rng_getBytes st0 n) as [s0 st'] eqn:Hg.
    intros [= <- _]. eauto.
Qed.

Lemma _getRandomTag_parts rng w tag w' :
  _getRandomTag rng w = (Ok tag, w') →
  ∃ o c t st st',
    chr (Z.land o 0x7f) = Ok c ∧ tag = c :: t
    ∧ rng_getBytes st (TAG_LEN - 1) = (t, st').
Proof.
  unfold _getRandomTag. intros Ht.
  apply M_bind_Ok in Ht as (s & w1 & Hs & Ht).
  apply M_bind_Ok in Ht as (o & w2 & Ho & Ht). apply lift_Ok in Ho as [Ho ->].
  apply M_bind_Ok in Ht as (c & w3 & Hc & Ht). apply lift_Ok in Hc as [Hc ->].
  apply M_bind_Ok in Ht as (t & w4 & Hg & Ht). injection Ht as <- <-.
  apply getBytes_Ok in Hg as (st & st' & Hg). by eexists o, c, t, st, st'.
Qed.

Lemma _getRandomTag_head rng w tag w' :
  _getRandomTag rng w = (Ok tag, w') → msb_clear tag.
Proof.
  intros Ht. apply _getRandomTag_parts in Ht as (o & c & t & st & st' & Hc & -> & _).
  exists c, t. split; [done|]. rewrite (chr_ord _ _ Hc).
  rewrite <- Z.land_assoc. change (Z.land 127 128) with 0%Z. apply Z.land_0_r.
Qed.

(** X16: the tag [_getRandomTag] returns has the most significant bit
    of its first byte clear, whatever the generator gives; when the
    generator gives as many bytes as it is asked for, the tag is 20
    bytes long. *)
Theorem _getRandomTag_msb_clear rng w tag w' :
  _getRandomTag rng w = (Ok tag, w') →
  msb_clear tag
  ∧ ((∀ st n, (0 ≤ n)%Z → len (rng_getBytes st n).1 = n) → len tag = TAG_LEN).
Proof.
  intros Ht. split; [by eapply _getRandomTag_head|].
  intros Hlen.
  apply _getRandomTag_parts in Ht as (o & c & t & st & st' & _ & -> & Hg).
  specialize (Hlen st (TAG_LEN - 1)%Z ltac:(done)). rewrite Hg in Hlen.
  simpl in Hlen. unfold len in *. simpl. unfold TAG_LEN in *. lia.
Qed.

(** X17: when the retry loop of [buildEncryptedForwardPacket] leaves
    with a ciphertext, that ciphertext is what the last call of
    [pk_encrypt] returned, the most significant bit of its first byte is
    clear, and a larger bound on the number of rounds gives the same
    ciphertext and the same world. *)
Theorem encrypt_until_msb_clear_result fuel rsaPart key w encrypted w' :
  encrypt_until_msb_clear fuel rsaPart key w = (Ok (Some encrypted), w') →
  msb_clear encrypted
  ∧ (∃ w0, pk_encrypt rsaPart key w0 = (Ok encrypted, w'))
  ∧ ∀ k, encrypt_until_msb_clear (fuel + k) rsaPart key w = (Ok (Some encrypted), w').
Proof.
  intros Hl. split; [by eapply encrypt_until_msb_clear_sound|].
  split; [by eapply encrypt_until_msb_clear_last|].
  intros k. by apply encrypt_until_msb_clear_more.
Qed.

(** A ciphertext whose first byte has the most significant bit set
    is thrown away by the retry loop, which goes on from the world the
    encryption left; one whose bit is clear ends the loop. *)
Theorem encrypt_until_msb_clear_retries fuel rsaPart key w encrypted w1 :
  pk_encrypt rsaPart key w = (Ok encrypted, w1) →
  (msb_set encrypted →
   encrypt_until_msb_clear (S fuel) rsaPart key w
   = encrypt_until_msb_clear fuel rsaPart key w1)
  ∧ (msb_clear encrypted →
     encrypt_until_msb_clear (S fuel) rsaPart key w = (Ok (Some encrypted), w1)).
Proof.
  intros Hpk. split; intros Hm.
  - by apply (encrypt_until_msb_clear_again _ _ _ _ encrypted).
  - by apply encrypt_until_msb_clear_first.
Qed.

Lemma _buildHeader_for_app path secrets routing headerKeys junkSeen idxs1 idxs2 :
  ∀ header w,
  _buildHeader_for path secrets routing headerKeys junkSeen header (idxs1 ++ idxs2) w
  = (header' ← _buildHeader_for path secrets routing headerKeys junkSeen header idxs1;
     _buildHeader_for path secrets routing headerKeys junkSeen header' idxs2) w.
Proof.
  induction idxs1 as [|i idxs1 IH]; intros header w; simpl; [reflexivity|].
  unfold mbind, M_bind.
  destruct (_buildHeader_hop _ _ _ _ _ _ _ _) as [[h|e] w1]; [|reflexivity].
  rewrite IH. reflexivity.
Qed.

(** A round of the subheader loop calls [pk_encrypt] once, in the
    world it starts from, and puts the ciphertext in front of the
    header. *)
Lemma _buildHeader_hop_one_call path secrets routing headerKeys junkSeen header i w
    h w' :
  _buildHeader_hop path secrets routing headerKeys junkSeen header i w = (Ok h, w') →
  ∃ info rsaPart esh rest,
    path !! i = Some info
    ∧ pk_encrypt rsaPart (getPacketKey info) w = (Ok esh, w')
    ∧ h = esh ++ rest.
Proof.
  unfold _buildHeader_hop. intros Hh.
  apply M_bind_Ok in Hh as ([rt ri] & w1 & Hr & Hh). apply lift_Ok in Hr as [Hr ->].
  apply M_bind_Ok in Hh as (secret & w2 & Hs & Hh). apply lift_Ok in Hs as [Hs ->].
  destruct (0 <? _)%Z.
  - apply M_bind_Ok in Hh as (hk & w3 & Hk & Hh). apply lift_Ok in Hk as [Hk ->].
    apply M_bind_Ok in Hh as (junk & w4 & Hj & Hh). apply lift_Ok in Hj as [Hj ->].
    apply M_bind_Ok in Hh as (info & w5 & Hi & Hh). apply lift_Ok in Hi as [Hi ->].
    apply M_bind_Ok in Hh as (esh & w6 & He & Hh). injection Hh as <- <-.
    unfold list_index in Hi. destruct (path !! i) as [info'|] eqn:Hp; [|done].
    injection Hi as ->. by eexists _, _, _, _.
  - apply M_bind_Ok in Hh as (hk & w3 & Hk & Hh). apply lift_Ok in Hk as [Hk ->].
    apply M_bind_Ok in Hh as (junk & w4 & Hj & Hh). apply lift_Ok in Hj as [Hj ->].
    apply M_bind_Ok in Hh as (info & w5 & Hi & Hh). apply lift_Ok in Hi as [Hi ->].
    apply M_bind_Ok in Hh as (esh & w6 & He & Hh). injection Hh as <- <-.
    unfold list_index in Hi. destruct (path !! i) as [info'|] eqn:Hp; [|done].
    injection Hi as ->. by eexists _, _, _, _.
Qed.

(** The header [_buildHeader] returns is what the round for the first
    server of the path returns, and that round is the last. *)
Lemma _buildHeader_last_hop info path secrets exitType exitInfo rng w header w' :
  _buildHeader (info :: path) secrets exitType exitInfo rng w = (Ok header, w') →
  ∃ routing headerKeys junkSeen h1 w1,
    _buildHeader_hop (info :: path) secrets routing headerKeys junkSeen h1 0 w1
    = (Ok header, w').
Proof.
  unfold _buildHeader. intros Hb.
  apply M_bind_Ok in Hb as ([] & w1 & _ & Hb).
  destruct (unsupported_server _); [done|].
  apply M_bind_Ok in Hb as ([[routing sizes] totalSize] & w2 & _ & Hb).
  destruct (HEADER_LEN <? totalSize)%Z; [done|].
  apply M_bind_Ok in Hb as (padding & w3 & _ & Hb).
  change (length (info :: path)) with (S (length path)) in Hb.
  rewrite <- cons_seq, reverse_cons, _buildHeader_for_app in Hb.
  apply M_bind_Ok in Hb as (h1 & w4 & _ & Hb). simpl in Hb.
  apply M_bind_Ok in Hb as (h & w5 & Hhop & Hb). injection Hb as <- <-.
  by eexists _, _, _, _, _.
Qed.

(** X18: the header [_buildHeader] returns opens with the ciphertext of
    one call of [pk_encrypt] under the packet key of the first server
    of the path, the last thing the function does; that ciphertext goes
    into the header as it is, whatever its first byte. *)
Theorem _buildHeader_opens_with_ciphertext info path secrets exitType exitInfo rng w
    header w' :
  _buildHeader (info :: path) secrets exitType exitInfo rng w = (Ok header, w') →
  ∃ rsaPart w1 esh rest,
    pk_encrypt rsaPart (getPacketKey info) w1 = (Ok esh, w')
    ∧ header = esh ++ rest.
Proof.
  intros Hb.
  apply _buildHeader_last_hop in Hb as (routing & hk & js & h1 & w1 & Hhop).
  apply _buildHeader_hop_one_call in Hhop
    as (info' & rsaPart & esh & rest & Hi & Hpk & ->).
  injection Hi as <-. by eexists _, _, _, _.
Qed.

Lemma encrypt_leg1_for_len secrets h p :
  (∀ s k, len (lioness_encrypt s k) = len s) →
  len (encrypt_leg1_for secrets h p).1 = len h
  ∧ len (encrypt_leg1_for secrets h p).2 = len p.
Proof.
  intros Hlen. revert h p. induction secrets as [|s secrets IH]; intros h p; simpl;
    [done|].
  destruct (IH (lioness_encrypt h (Keyset_getLionessKeys s HEADER_ENCRYPT_MODE))
              (lioness_encrypt p (Keyset_getLionessKeys s PAYLOAD_ENCRYPT_MODE)))
    as [-> ->]. by rewrite !Hlen.
Qed.

Lemma encrypt_payload_for_len secrets p :
  (∀ s k, len (lioness_encrypt s k) = len s) →
  len (encrypt_payload_for secrets p) = len p.
Proof.
  intros Hlen. revert p. induction secrets as [|s secrets IH]; intros p; simpl;
    [done|]. by rewrite IH, Hlen.
Qed.

(** The payload [_constructMessage] encrypts with the payload of the
    second leg keeps its length. *)
Lemma second_leg_payload_len (secrets2 : option (list bytes)) payload :
  (∀ s k, len (lioness_encrypt s k) = len s) →
  len match secrets2 with
      | Some (s :: secrets2') => encrypt_payload_for (reverse (s :: secrets2')) payload
      | _ => payload
      end = len payload.
Proof.
  intros Hlen. destruct secrets2 as [[|s l]|]; [done| |done].
  by apply encrypt_payload_for_len.
Qed.

(** X19: [_constructMessage] returns a packet exactly when the payload
    is 28672 bytes long and both headers are 2048 bytes long, and
    raises [AssertionError] otherwise; as the block cipher keeps the
    length of what it encrypts, the packet is 32768 bytes long, and it
    opens with the first header, which goes in as it was given. *)
Theorem _constructMessage_length secrets1 secrets2 header1 header2 payload :
  (∀ s k, len (lioness_encrypt s k) = len s) →
  (len payload = PAYLOAD_LEN ∧ len header1 = HEADER_LEN ∧ len header2 = HEADER_LEN →
   ∃ pkt, _constructMessage secrets1 secrets2 header1 header2 payload = Ok pkt
     ∧ len pkt = PACKET_LEN
     ∧ slice pkt None (Some HEADER_LEN) = header1)
  ∧ (¬ (len payload = PAYLOAD_LEN ∧ len header1 = HEADER_LEN
        ∧ len header2 = HEADER_LEN) →
     _constructMessage secrets1 secrets2 header1 header2 payload
     = Raise (Exn AssertionError "")).
Proof.
  intros Hlen. unfold _constructMessage. split.
  - intros (Hp & Hh1 & Hh2).
    rewrite (bool_decide_eq_true_2 _ Hp). simpl.
    rewrite bool_decide_eq_true_2 by congruence.
    rewrite (bool_decide_eq_true_2 _ Hh2). simpl.
    match goal with
    | |- context [encrypt_leg1_for ?s ?h ?p] =>
        pose proof (encrypt_leg1_for_len s h p Hlen) as [Hh' Hp'];
        destruct (encrypt_leg1_for s h p) as [h2' p']
    end.
    simpl in *. eexists. split; [done|]. split.
    + unfold Packet_pack. rewrite !len_app, Hh', Hp', !Hlen, Hh1, Hh2.
      by rewrite second_leg_payload_len, Hp.
    + unfold Packet_pack. rewrite <- Hh1. apply slice_app_prefix.
  - intros Hbad.
    destruct (decide (len payload = PAYLOAD_LEN)) as [Hp|Hp];
      [rewrite (bool_decide_eq_true_2 _ Hp)
      |rewrite (bool_decide_eq_false_2 _ Hp); reflexivity].
    destruct (decide (len header1 = len header2)) as [Hh12|Hh12];
      [rewrite (bool_decide_eq_true_2 _ Hh12)
      |rewrite (bool_decide_eq_false_2 _ Hh12); reflexivity].
    destruct (decide (len header2 = HEADER_LEN)) as [Hh2|Hh2];
      [|rewrite (bool_decide_eq_false_2 _ Hh2); reflexivity].
    destruct Hbad. split; [done|]. split; congruence.
Qed.

(** Whatever [_constructMessage] returns is 32768 bytes long. *)
Lemma _constructMessage_Ok_length secrets1 secrets2 header1 header2 payload pkt :
  (∀ s k, len (lioness_encrypt s k) = len s) →
  _constructMessage secrets1 secrets2 header1 header2 payload = Ok pkt →
  len pkt = PACKET_LEN.
Proof.
  intros Hlen. unfold _constructMessage.
  destruct (decide (len payload = PAYLOAD_LEN)) as [Hp|Hp];
    [rewrite (bool_decide_eq_true_2 _ Hp)
    |rewrite (bool_decide_eq_false_2 _ Hp); done].
  destruct (decide (len header1 = len header2)) as [Hh12|Hh12];
    [rewrite (bool_decide_eq_true_2 _ Hh12)
    |rewrite (bool_decide_eq_false_2 _ Hh12); done].
  destruct (decide (len header2 = HEADER_LEN)) as [Hh2|Hh2];
    [rewrite (bool_decide_eq_true_2 _ Hh2)
    |rewrite (bool_decide_eq_false_2 _ Hh2); done].
  simpl.
  match goal with
  | |- context [encrypt_leg1_for ?s ?h ?p] =>
      pose proof (encrypt_leg1_for_len s h p Hlen) as [Hh' Hp'];
      destruct (encrypt_leg1_for s h p) as [h2' p']
  end.
  simpl in *. intros [= <-].
  unfold Packet_pack. rewrite !len_app, Hh', Hp', !Hlen, Hh12, Hh2.
  by rewrite second_leg_payload_len, Hp.
Qed.

End BuildingFacts.

(** ** Which ciphertexts are encrypted again *)

Section CiphertextFacts.
Context `{Crypto} `{!PKEncrypt} `{!ServerInfoAPI} `{!FragmentsAPI}
        `{PacketConsts} `{PacketFormat}.

(** What [buildEncryptedForwardPacket] does when it returns a packet:
    it draws the session key, leaves the retry loop with a ciphertext,
    and builds the packet from that ciphertext and the rest of the
    payload. *)
Lemma buildEncryptedForwardPacket_steps fuel payload exitType exitInfo path1 path2
    key paddingPRNG secretRNG w pkt w' :
  buildEncryptedForwardPacket fuel payload exitType exitInfo path1 path2 key
    paddingPRNG secretRNG w = (Ok (Some pkt), w') →
  ∃ sessionKey w1 encrypted w2,
    getBytes (from_option id (default_prng paddingPRNG) secretRNG) SECRET_LEN w
    = (Ok sessionKey, w1)
    ∧ encrypt_until_msb_clear fuel
        (slice (sessionKey ++ payload) None
           (Some (get_modulus_bytes key - OAEP_OVERHEAD)%Z)) key w1
      = (Ok (Some encrypted), w2)
    ∧ let whole :=
        encrypted
        ++ lioness_encrypt
             (slice (sessionKey ++ payload)
                (Some (get_modulus_bytes key - OAEP_OVERHEAD)%Z) None)
             (Keyset_getLionessKeys sessionKey END_TO_END_ENCRYPT_MODE) in
      _buildPacket (slice whole (Some TAG_LEN) None) (Some exitType)
        (Some (slice whole None (Some TAG_LEN) ++ exitInfo)) path1 (inl path2)
        (Some (default_prng paddingPRNG)) false false w2
      = (Ok pkt, w').
Proof.
  unfold buildEncryptedForwardPacket. intros Hb.
  apply M_bind_Ok in Hb as ([] & w0 & Ha & Hb).
  assert (w0 = w) as ->.
  { unfold assert in Ha. destruct (bool_decide _); [by injection Ha|done]. }
  apply M_bind_Ok in Hb as (sessionKey & w1 & Hk & Hb).
  apply M_bind_Ok in Hb as ([encrypted|] & w2 & Hl & Hb); [|done].
  apply M_bind_Ok in Hb as ([] & w3 & Ha' & Hb).
  assert (w3 = w2) as ->.
  { unfold assert in Ha'. destruct (bool_decide _); [by injection Ha'|done]. }
  exists sessionKey, w1, encrypted, w2. split; [done|]. split; [done|].
  simpl. unfold fmap, M_fmap in Hb.
  destruct (_buildPacket _ _ _ _ _ _ _ _ w2) as [[p|e] w4]; [|done].
  by injection Hb as -> ->.
Qed.

(** C3: of the ciphertexts made while a packet is built, the
    session-key block of [buildEncryptedForwardPacket] has the most
    significant bit of its first byte clear: the packet is built from
    the ciphertext the retry loop leaves with, which is what the last
    call of [pk_encrypt] returned; a ciphertext with the bit set makes
    the loop encrypt again, from the world the call left, and one with
    the bit clear ends it.  The encrypted subheaders are not tested:
    each round of the loop of [_buildHeader] calls [pk_encrypt] once
    and puts its ciphertext in front of the header, and the header
    returned opens with the ciphertext for the first server of the
    path, whatever its first byte. *)
Theorem retry_only_for_session_key :
  (∀ fuel payload exitType exitInfo path1 path2 key paddingPRNG secretRNG w pkt w',
     buildEncryptedForwardPacket fuel payload exitType exitInfo path1 path2 key
       paddingPRNG secretRNG w = (Ok (Some pkt), w') →
     ∃ sessionKey w1 encrypted w2,
       let rsaDataLen := (get_modulus_bytes key - OAEP_OVERHEAD)%Z in
       let rsaPart := slice (sessionKey ++ payload) None (Some rsaDataLen) in
       let lionessPart := slice (sessionKey ++ payload) (Some rsaDataLen) None in
       let whole :=
         encrypted
         ++ lioness_encrypt lionessPart
              (Keyset_getLionessKeys sessionKey END_TO_END_ENCRYPT_MODE) in
       encrypt_until_msb_clear fuel rsaPart key w1 = (Ok (Some encrypted), w2)
       ∧ msb_clear encrypted
       ∧ (∃ w0, pk_encrypt rsaPart key w0 = (Ok encrypted, w2))
       ∧ _buildPacket (slice whole (Some TAG_LEN) None) (Some exitType)
           (Some (slice whole None (Some TAG_LEN) ++ exitInfo)) path1 (inl path2)
           (Some (default_prng paddingPRNG)) false false w2
         = (Ok pkt, w'))
  ∧ (∀ fuel rsaPart key w encrypted w1,
       pk_encrypt rsaPart key w = (Ok encrypted, w1) →
       (msb_set encrypted →
        encrypt_until_msb_clear (S fuel) rsaPart key w
        = encrypt_until_msb_clear fuel rsaPart key w1)
       ∧ (msb_clear encrypted →
          encrypt_until_msb_clear (S fuel) rsaPart key w = (Ok (Some encrypted), w1)))
  ∧ (∀ path secrets routing headerKeys junkSeen header i w h w',
       _buildHeader_hop path secrets routing headerKeys junkSeen header i w
       = (Ok h, w') →
       ∃ info rsaPart esh rest,
         path !! i = Some info
         ∧ pk_encrypt rsaPart (getPacketKey info) w = (Ok esh, w')
         ∧ h = esh ++ rest)
  ∧ (∀ info path secrets exitType exitInfo rng w header w',
       _buildHeader (info :: path) secrets exitType exitInfo rng w = (Ok header, w') →
       ∃ rsaPart w1 esh rest,
         pk_encrypt rsaPart (getPacketKey info) w1 = (Ok esh, w')
         ∧ header = esh ++ rest).
Proof.
  split; [|split; [|split]].
  - intros fuel payload exitType exitInfo path1 path2 key paddingPRNG secretRNG
      w pkt w' Hb.
    apply buildEncryptedForwardPacket_steps in Hb
      as (sessionKey & w1 & encrypted & w2 & _ & Hl & Hp).
    exists sessionKey, w1, encrypted, w2. simpl.
    split; [exact Hl|]. split; [by eapply encrypt_until_msb_clear_sound|].
    split; [by eapply encrypt_until_msb_clear_last|exact Hp].
  - intros fuel rsaPart key w encrypted w1 Hpk. split; intros Hm.
    + by apply (encrypt_until_msb_clear_again _ _ _ _ encrypted).
    + by apply encrypt_until_msb_clear_first.
  - intros path secrets routing headerKeys junkSeen header i w h w'.
    apply _buildHeader_hop_one_call.
  - intros info path secrets exitType exitInfo rng w header w' Hb.
    apply _buildHeader_last_hop in Hb as (routing & hk & js & h1 & w1 & Hhop).
    apply _buildHeader_hop_one_call in Hhop
      as (info' & rsaPart & esh & rest & Hi & Hpk & ->).
    injection Hi as <-. by eexists _, _, _, _.
Qed.

End CiphertextFacts.

(** ** More on payload decoding *)

Section DecodingMore.
Context `{Crypto} `{PacketFormat}.

(** X20: a payload of 28672 bytes whose checksum holds is decoded as a
    plain forward payload, whatever the tag, as long as it is empty or
    20 bytes long: no key is tried and [retNym] is left alone. *)
Theorem decodePayload_forward payload tag key userKeys retNym :
  len payload = PAYLOAD_LEN →
  len tag = 0%Z ∨ len tag = TAG_LEN →
  _checkPayload payload = Ok true →
  decodePayload payload tag key userKeys retNym
  = (Some <$> parsePayload payload, retNym)
  ∧ _decodeForwardPayload payload = parsePayload payload.
Proof.
  intros Hp Ht Hc. split.
  - unfold decodePayload.
    rewrite bool_decide_eq_false_2 by (by intros ?).
    destruct Ht as [Ht|Ht].
    + rewrite (bool_decide_eq_true_2 _ Ht). simpl. by rewrite Hc.
    + rewrite (bool_decide_eq_true_2 (len tag = TAG_LEN)) by done.
      rewrite orb_true_r. simpl. by rewrite Hc.
  - unfold _decodeForwardPayload. by rewrite Hc.
Qed.

(** X21: with an empty tag a payload of 28672 bytes whose checksum
    fails decodes to [None]: neither the user keys nor the RSA key are
    tried, and [retNym] is left alone. *)
Theorem decodePayload_no_tag payload key userKeys retNym :
  len payload = PAYLOAD_LEN →
  _checkPayload payload = Ok false →
  decodePayload payload [] key userKeys retNym = (Ok None, retNym).
Proof.
  intros Hp Hc. unfold decodePayload.
  rewrite bool_decide_eq_false_2 by (by intros ?).
  simpl. by rewrite Hc.
Qed.

(** X22: when the user keys before it do not validate the tag and a
    user key does, and the stateless reply decoding with that key
    succeeds, [decodePayload] returns the decoded payload and appends
    the name of that key to [retNym]; the keys after it and the RSA key
    are not tried. *)
Theorem decodePayload_reply_names_key payload tag key before name userKey after
    retNym p :
  len payload = PAYLOAD_LEN →
  len tag = TAG_LEN →
  _checkPayload payload = Ok false →
  Forall (λ nk, validate_test tag nk.2 = Ok false) before →
  validate_test tag userKey = Ok true →
  _decodeStatelessReplyPayload payload tag userKey = Ok p →
  decodePayload payload tag key (UserKeys_Seq (before ++ (name, userKey) :: after))
    retNym
  = (Ok (Some p), (λ l, l ++ [name]) <$> retNym).
Proof.
  intros Hp Ht Hc Hb Hv Hd. rewrite decodePayload_past_checksum by done.
  simpl userKeys_list.
  assert (Hfor : decodePayload_for payload tag (before ++ (name, userKey) :: after)
                   retNym
                 = (Ok (Returned p), (λ l, l ++ [name]) <$> retNym)).
  { induction Hb as [|[n k] before Hk _ IH]; simpl.
    - by rewrite Hv, Hd.
    - simpl in Hk. by rewrite Hk. }
  by rewrite Hfor.
Qed.

Lemma _decodeReplyPayload_for_unchecked payload secrets :
  _decodeReplyPayload_for payload secrets false
  = Ok (inr (encrypt_payload_for secrets payload)).
Proof.
  revert payload. induction secrets as [|sec secrets IH]; intros payload; simpl;
    [done|apply IH].
Qed.

(** X23: without the check after every round, [_decodeReplyPayload]
    encrypts the payload with the payload key of every secret in turn,
    the loop [_constructMessage] runs over the secrets of the second
    leg, and then treats the outcome like a forward payload: it is
    parsed when its checksum holds, and [MixError] is raised when not. *)
Theorem _decodeReplyPayload_unchecked payload secrets :
  _decodeReplyPayload payload secrets false
  = match _checkPayload (encrypt_payload_for secrets payload) with
    | Ok true => parsePayload (encrypt_payload_for secrets payload)
    | Ok false => Raise (Exn MixError "Invalid checksum on reply payload")
    | Raise e => Raise e
    end.
Proof.
  unfold _decodeReplyPayload. rewrite _decodeReplyPayload_for_unchecked. simpl.
  by destruct (_checkPayload _) as [[|]|].
Qed.

(** X24: with the check after every round, [_decodeReplyPayload] stops
    at the first secret after which the checksum holds: the payload it
    returns is the parse of the payload encrypted with the secrets up to
    and including that one, the checksum failed after every shorter
    run of secrets, and the secrets behind it are not used. *)
Theorem _decodeReplyPayload_first_match payload secrets p :
  _decodeReplyPayload payload secrets true = Ok p →
  ∃ n, 0 < n ≤ length secrets
    ∧ _checkPayload (encrypt_payload_for (take n secrets) payload) = Ok true
    ∧ parsePayload (encrypt_payload_for (take n secrets) payload) = Ok p
    ∧ ∀ m, 0 < m < n →
        _checkPayload (encrypt_payload_for (take m secrets) payload) = Ok false.
Proof.
  unfold _decodeReplyPayload.
  destruct (_decodeReplyPayload_for payload secrets true) as [[p'|rest]|e] eqn:Hfor;
    simpl; [|done|done].
  intros [= ->]. revert payload Hfor.
  induction secrets as [|sec secrets IH]; intros payload; simpl; [done|].
  destruct (_checkPayload (lioness_encrypt payload _)) as [[|]|e] eqn:Hc; simpl;
    [| |done].
  - destruct (parsePayload _) as [p0|e] eqn:Hp; simpl; [|done].
    intros [= ->]. exists 1. split; [lia|]. simpl. split; [done|]. split; [done|].
    intros m Hm. lia.
  - intros Hfor. apply IH in Hfor as (n & Hn & Hck & Hp & Hmin).
    exists (S n). split; [lia|]. simpl. split; [done|]. split; [done|].
    intros [|[|m]] Hm; [lia| |].
    + simpl. done.
    + simpl. apply (Hmin (S m)). lia.
Qed.

End DecodingMore.


(** ** Event statistics *)

Section EventLogFacts.
Context {Arg : Type} `{Countable Arg}.

#[local] Abbreviation counts := (gmap string (gmap Arg Z)).

Lemma tally_insert (count : counts) event (topics : gmap Arg Z) e a :
  tally (<[event:=topics]> count) e a
  = if decide (e = event) then default 0%Z (topics !! a) else tally count e a.
Proof.
  unfold tally. destruct (decide (e = event)) as [->|Hne].
  - by rewrite lookup_insert_eq.
  - by rewrite lookup_insert_ne.
Qed.

(** X25: for an event type that has its dict, [_log] returns and adds
    one to the number recorded for that type and topic, a topic not
    seen before counting as zero; every other number stays as it was
    and no event type is added or lost.  For an event type without a
    dict it raises the [KeyError] naming the event and changes
    nothing. *)
Theorem _log_counts event (arg : Arg) (count : counts) :
  (is_Some (count !! event) →
   ∃ count', _log event arg count = (Logged, count')
     ∧ tally count' event arg = (tally count event arg + 1)%Z
     ∧ (∀ e a, (e, a) ≠ (event, arg) → tally count' e a = tally count e a)
     ∧ dom count' = dom count)
  ∧ (count !! event = None → _log event arg count = (NoSuchEvent event, count)).
Proof.
  unfold _log. split.
  - intros [topics Ht]. rewrite Ht.
    assert (Hdom : ∀ t : gmap Arg Z, dom (<[event:=t]> count) = dom count).
    { intros t. rewrite dom_insert_L. apply elem_of_dom_2 in Ht. set_solver. }
    destruct (topics !! arg) as [n|] eqn:Ha; eexists; (split; [done|]);
      (split; [|split; [|apply Hdom]]).
    + rewrite tally_insert, decide_True by done. rewrite lookup_insert_eq.
      unfold tally. rewrite Ht. simpl. by rewrite Ha.
    + intros e a Hne. rewrite tally_insert. destruct (decide (e = event)) as [->|]; [|done].
      rewrite lookup_insert_ne by congruence. unfold tally. by rewrite Ht.
    + rewrite tally_insert, decide_True by done. rewrite lookup_insert_eq.
      unfold tally. rewrite Ht. simpl. by rewrite Ha.
    + intros e a Hne. rewrite tally_insert. destruct (decide (e = event)) as [->|]; [|done].
      rewrite lookup_insert_ne by congruence. unfold tally. by rewrite Ht.
  - by intros ->.
Qed.

Lemma fresh_count_known : events_known (fresh_count (Arg:=Arg)).
Proof.
  intros e He. unfold fresh_count, _EVENTS in *. simpl.
  repeat (apply elem_of_cons in He as [->|He];
          [rewrite ?lookup_insert_ne by done; rewrite lookup_insert_eq; by eexists|]).
  by apply elem_of_nil in He.
Qed.

Lemma _log_known event (arg : Arg) (count : counts) :
  events_known count → events_known (_log event arg count).2.
Proof.
  intros Hk e He. specialize (Hk e He). unfold _log.
  destruct (count !! event) as [topics|] eqn:Ht; [|done].
  destruct (topics !! arg); simpl;
    (destruct (decide (e = event)) as [->|];
     [rewrite lookup_insert_eq; by eexists|by rewrite lookup_insert_ne]).
Qed.

(** X26: the dict that [__init__] and [_rotate] set up has a dict for
    each of the thirteen event types, with nothing counted, and every
    method of the interface logs one of those types: called on a log
    where every event type has its dict, it returns, and every event
    type still has its dict, so that no sequence of calls ever raises
    the [KeyError]. *)
Theorem event_methods_never_fail :
  events_known (fresh_count (Arg:=Arg))
  ∧ (∀ e (a : Arg), tally fresh_count e a = 0%Z)
  ∧ ∀ (m : Arg → counts → log_outcome * counts) (arg : Arg) (count : counts),
      m ∈ event_methods → events_known count →
      (m arg count).1 = Logged ∧ events_known (m arg count).2.
Proof.
  split; [apply fresh_count_known|]. split.
  - intros e a. unfold tally.
    assert (Hf : fresh_count (Arg:=Arg) !! e = Some ∅
                 ∨ fresh_count (Arg:=Arg) !! e = None).
    { unfold fresh_count, _EVENTS. simpl.
      repeat match goal with
             | |- <[?k:=_]> _ !! e = _ ∨ _ =>
                 destruct (decide (e = k)) as [->|];
                 [left; by rewrite lookup_insert_eq
                 |rewrite (lookup_insert_ne _ k e) by done]
             end.
      right. apply lookup_empty. }
    destruct Hf as [-> | ->]; done.
  - intros m arg count Hm Hk.
    assert (Hlog : ∀ e, e ∈ _EVENTS →
              (_log e arg count).1 = Logged ∧ events_known (_log e arg count).2).
    { intros e He. split; [|by apply _log_known].
      destruct (Hk e He) as [topics Ht]. unfold _log. rewrite Ht.
      by destruct (topics !! arg). }
    unfold event_methods in Hm.
    repeat (apply elem_of_cons in Hm as [->|Hm];
            [apply Hlog; unfold _EVENTS; set_solver|]).
    by apply elem_of_nil in Hm.
Qed.

(** The numbers recorded do not depend on the order in which two
    events are logged. *)
Theorem _log_commutes e1 (a1 : Arg) e2 (a2 : Arg) (count : counts) :
  (_log e1 a1 (_log e2 a2 count).2).2 = (_log e2 a2 (_log e1 a1 count).2).2.
Proof.
  unfold _log.
  destruct (decide (e1 = e2)) as [->|Hne].
  - destruct (count !! e2) as [topics|] eqn:Ht; simpl; [|by rewrite Ht].
    destruct (decide (a1 = a2)) as [->|Hna]; [done|].
    destruct (topics !! a1) as [n1|] eqn:H1, (topics !! a2) as [n2|] eqn:H2; simpl;
      rewrite !lookup_insert_eq, !lookup_insert_ne, ?H1, ?H2 by done; simpl;
      rewrite !insert_insert_eq; f_equal; by apply insert_insert_ne.
  - destruct (count !! e1) as [t1|] eqn:Ht1, (count !! e2) as [t2|] eqn:Ht2; simpl.
    + destruct (t1 !! a1) eqn:E1, (t2 !! a2) eqn:E2; simpl;
        rewrite !lookup_insert_ne, ?Ht1, ?Ht2 by done; rewrite ?E1, ?E2; simpl;
        by apply insert_insert_ne.
    + destruct (t1 !! a1) eqn:E1; simpl; rewrite lookup_insert_ne, Ht2 by done;
        simpl; by rewrite Ht1, E1.
    + destruct (t2 !! a2) eqn:E2; simpl; rewrite lookup_insert_ne, Ht1 by done;
        simpl; by rewrite Ht2, E2.
    + by rewrite Ht1, Ht2.
Qed.

End EventLogFacts.

(** ** Command tokens *)

Section CommandTokenFacts.

Lemma pyindex_last s c : pyindex (s ++ [c]) (-1) = Ok c.
Proof.
  unfold pyindex. rewrite length_app. simpl.
  destruct (Z.ltb_spec (Z.of_nat (length s + 1) + -1) 0); [lia|].
  destruct (Z.leb_spec (Z.of_nat (length s + 1)) (Z.of_nat (length s + 1) + -1));
    [lia|]. simpl.
  replace (Z.to_nat (Z.of_nat (length s + 1) + -1)) with (length s) by lia.
  by rewrite lookup_app_r, Nat.sub_diag.
Qed.

Lemma pyindex_last_cons c s c' : pyindex (c :: s ++ [c']) (-1) = Ok c'.
Proof. exact (pyindex_last (c :: s) c'). Qed.

(** X27: [fixCommandToken] never raises; a token put in a pair of
    double or of single quotes comes back as the token, with exactly
    that pair taken off; a token that does not open with a quote comes
    back as it is. *)
Theorem fixCommandToken_unquotes q tok :
  (∃ r, fixCommandToken tok = Ok r)
  ∧ (q = x22 ∨ q = x27 → fixCommandToken (q :: tok ++ [q]) = Ok tok)
  ∧ (head tok ≠ Some x22 → head tok ≠ Some x27 → fixCommandToken tok = Ok tok).
Proof.
  split; [|split].
  - unfold fixCommandToken. case_bool_decide; [by eexists|].
    destruct (Z.leb_spec 2 (len tok)); [|by eexists].
    destruct tok as [|c tok]; [done|]. rewrite pyindex_0_cons. simpl.
    case_bool_decide; [|by eexists].
    destruct tok as [|c' tok _] using rev_ind; [unfold len in *; simpl in *; lia|].
    rewrite pyindex_last_cons. simpl.
    case_bool_decide; by eexists.
  - intros Hq. unfold fixCommandToken.
    rewrite bool_decide_eq_false_2 by done.
    assert (Hl : (2 <=? len (q :: tok ++ [q]))%Z = true).
    { apply Z.leb_le. unfold len. simpl. rewrite length_app. simpl. lia. }
    rewrite Hl, pyindex_0_cons. simpl.
    rewrite bool_decide_eq_true_2 by (destruct Hq as [->| ->]; set_solver).
    rewrite pyindex_last_cons. simpl.
    rewrite bool_decide_eq_true_2 by done. f_equal.
    unfold slice, slice_bound. simpl. rewrite length_app. simpl.
    replace (Z.to_nat (Z.max 0 (Z.of_nat (S (length tok + 1)) + -1)))
      with (S (length tok)) by lia.
    simpl. rewrite Nat.min_0_r, Nat.sub_0_r. rewrite drop_0. apply take_app_length.
  - intros H1 H2. unfold fixCommandToken. case_bool_decide; [by subst|].
    destruct (2 <=? len tok)%Z; [|done].
    destruct tok as [|c tok]; [done|]. rewrite pyindex_0_cons. simpl.
    rewrite bool_decide_eq_false_2; [done|].
    intros [->|[->|?%elem_of_nil]%elem_of_cons]%elem_of_cons; simpl in *; congruence.
Qed.

End CommandTokenFacts.


(** ** Reply blocks *)

Section ReplyBlockFacts.
Context `{Crypto} `{!PKEncrypt} `{!ServerInfoAPI} `{!FragmentsAPI}
        `{PacketConsts} `{PacketFormat} `{CommonAPI}.

Lemma getBytes_n_length st n k : length (getBytes_n st n k).1 = n.
Proof.
  revert st. induction n as [|n IH]; intros st; simpl; [done|].
  destruct (rng_getBytes st k) as [s st'].
  specialize (IH st'). destruct (getBytes_n st' n k) as [ss st'']. simpl in *.
  by rewrite IH.
Qed.

Lemma getBytes_n_prefix st n m k :
  (getBytes_n st n k).1 = take n (getBytes_n st (n + m) k).1.
Proof.
  revert st. induction n as [|n IH]; intros st; simpl; [done|].
  destruct (rng_getBytes st k) as [s st'].
  specialize (IH st').
  destruct (getBytes_n st' n k) as [ss st''], (getBytes_n st' (n + m) k) as [ss' st'''].
  simpl in *. by rewrite IH.
Qed.

Lemma getBytes_list_local i n k w st :
  w_objs w !! i = Some st →
  ∃ w', getBytes_list (LocalRNG i) n k w = (Ok (getBytes_n st n k).1, w').
Proof.
  revert w st. induction n as [|n IH]; intros w st Hi; simpl; [by eexists|].
  unfold mbind, M_bind. simpl. rewrite Hi.
  destruct (rng_getBytes st k) as [s st'].
  destruct (IH (mkWorld (w_common w) (w_true w) (<[i:=st']> (w_objs w)) (w_status w))
              st') as [w' Hw'].
  { simpl. apply list_lookup_insert_eq. by eapply lookup_lt_Some. }
  rewrite Hw'. destruct (getBytes_n st' n k) as [ss st'']. simpl. by eexists.
Qed.

Lemma find_seed_validates fuel rng userKey w seed w' :
  find_seed fuel rng userKey w = (Ok (Some seed), w') →
  validate_test seed userKey = Ok true ∧ msb_clear seed.
Proof.
  revert w. induction fuel as [|fuel IH]; intros w; simpl; [done|].
  intros Hf. apply M_bind_Ok in Hf as (s & w1 & Hs & Hf).
  apply M_bind_Ok in Hf as (ok & w2 & Hok & Hf). apply lift_Ok in Hok as [Hok ->].
  destruct ok.
  - injection Hf as <- <-. split; [done|].
    by eapply _getRandomTag_head.
  - by apply IH in Hf.
Qed.

Lemma _buildReplyBlockImpl_secrets path exitType exitInfo expiryTime i seed w st
    rb secrets tag w' :
  w_objs w !! i = Some st →
  _buildReplyBlockImpl path exitType exitInfo expiryTime (Some (LocalRNG i))
    (Some seed) w = (Ok (rb, secrets, tag), w') →
  secrets = (getBytes_n st (length path + 1) SECRET_LEN).1
  ∧ last secrets = Some (rb_encryptionKey rb)
  ∧ tag = seed
  ∧ rb_routingType rb = SWAP_FWD_HOST_TYPE.
Proof.
  intros Hi. unfold _buildReplyBlockImpl. intros Hb.
  apply M_bind_Ok in Hb as (t & w1 & Ht & Hb).
  assert (w1 = w) as ->.
  { destruct expiryTime; [by injection Ht as _ <-|by apply lift_Ok in Ht as [_ ->]]. }
  apply M_bind_Ok in Hb as ([] & w2 & Hc & Hb). apply lift_Ok in Hc as [_ ->].
  apply M_bind_Ok in Hb as (ss & w3 & Hg & Hb).
  destruct (getBytes_list_local i (length path + 1) SECRET_LEN w st Hi) as [w3' Hg'].
  simpl default_prng in Hg. rewrite Hg' in Hg. injection Hg as <- <-.
  apply M_bind_Ok in Hb as (sharedKey & w4 & Hk & Hb). apply lift_Ok in Hk as [Hk ->].
  apply M_bind_Ok in Hb as (tag' & w5 & Htag & Hb).
  injection Htag as <- <-.
  apply M_bind_Ok in Hb as (header & w6 & _ & Hb).
  apply M_bind_Ok in Hb as (first & w7 & Hfirst & Hb). apply lift_Ok in Hfirst as [_ ->].
  injection Hb as <- <- <- <-. split; [done|]. split; [|done].
  simpl. unfold list_index in Hk.
  match type of Hk with
  | context [?l !! ?j] => destruct (l !! j) as [x|] eqn:Hx; [|done]
  end.
  injection Hk as ->.
  rewrite last_lookup. rewrite <- Hx. f_equal. lia.
Qed.

(** X28: the reply block [buildReplyBlock] makes can be decoded
    without any state: the tag it logs as the last line of the status
    log passes the validate test of [decodePayload] with the user key,
    its first byte has the most significant bit clear, and for a path
    of at most sixteen servers the encryption key of the reply block is
    among the seventeen secrets that [_decodeStatelessReplyPayload]
    derives from that tag and the user key, at the position the length
    of the path gives. *)
Theorem buildReplyBlock_rederivable fuel path exitType exitInfo userKey expiryTime
    secretRNG w rb w' :
  buildReplyBlock fuel path exitType exitInfo userKey expiryTime secretRNG w
  = (Ok (Some rb), w') →
  length path ≤ 16 →
  ∃ seed,
    last (w_status w') = Some ("GENERATED_SURB"%string, formatBase64 seed)
    ∧ validate_test seed userKey = Ok true
    ∧ msb_clear seed
    ∧ (getBytes_n
         (AESCounterPRNG
            (slice (sha1 (seed ++ userKey ++ lit "Generate")) None (Some 16%Z)))
         17 SECRET_LEN).1 !! length path
      = Some (rb_encryptionKey rb)
    ∧ rb_routingType rb = SWAP_FWD_HOST_TYPE.
Proof.
  unfold buildReplyBlock. intros Hb Hlen.
  apply M_bind_Ok in Hb as (r & w1 & Hf & Hb).
  destruct r as [seed|]; [|done].
  apply find_seed_validates in Hf as [Hv Hm].
  apply M_bind_Ok in Hb as (prng & w2 & Hp & Hb).
  unfold new_AESCounterPRNG in Hp. injection Hp as <- <-.
  apply M_bind_Ok in Hb as ([[rb' secrets] tag] & w3 & Himpl & Hb).
  apply M_bind_Ok in Hb as ([] & w4 & Hs & Hb).
  injection Hb as <- <-. unfold STATUS_log in Hs. injection Hs as <-.
  apply _buildReplyBlockImpl_secrets
    with (st := AESCounterPRNG
                  (slice (sha1 (seed ++ userKey ++ lit "Generate")) None (Some 16%Z)))
    in Himpl as (Hsec & Hlast & -> & Hrt).
  2: { simpl. by rewrite lookup_app_r, Nat.sub_diag. }
  exists seed. split; [simpl; by rewrite last_snoc|].
  split; [done|]. split; [done|]. split; [|done].
  rewrite <- Hlast, Hsec, last_lookup, getBytes_n_length.
  rewrite (getBytes_n_prefix _ (length path + 1) (16 - length path)).
  replace (length path + 1 + (16 - length path)) with 17 by lia.
  rewrite lookup_take_lt by lia. f_equal. lia.
Qed.

End ReplyBlockFacts.


(** ** The path length check *)

Section PathLengthFacts.
Context `{Crypto} `{!PKEncrypt} `{!ServerInfoAPI} `{!FragmentsAPI}
        `{PacketConsts} `{PacketFormat}.

Lemma total_size_routing path exitType exitInfo :
  total_size (routing_sizes path exitType exitInfo)
  = (total_size (subheader_size <$> hop_routing path)
     + subheader_size (exitType, exitInfo))%Z.
Proof.
  unfold routing_sizes, total_size. rewrite fmap_app, foldr_app. simpl.
  generalize (subheader_size <$> hop_routing path) as l.
  induction l as [|x l IH]; simpl; lia.
Qed.

(** Routing information that does not fit does not fit either when the
    exit information is longer. *)
Lemma header_too_big_mono path exitType a b :
  (len a ≤ len b)%Z →
  header_too_big path exitType a → header_too_big path exitType b.
Proof.
  unfold header_too_big. rewrite !total_size_routing. unfold subheader_size. simpl.
  lia.
Qed.

Lemma _getRouting_shorter path exitType a b :
  (len a ≤ len b)%Z →
  is_Ok (_getRouting path exitType b) = true →
  is_Ok (_getRouting path exitType a) = true.
Proof.
  intros Hlen. rewrite !_getRouting_cases.
  case_bool_decide as Hb; [done|]. intros _.
  rewrite bool_decide_eq_false_2; [done|].
  intros Ha. by apply Hb, (header_too_big_mono path exitType a b).
Qed.

Lemma except_MixError_no_error {A} (body : result A) (err : Z) :
  err ≠ 0%Z →
  except_MixError (body;; mret 0%Z) (mret err) = Ok 0%Z →
  is_Ok body = true.
Proof.
  intros Herr. destruct body as [a|e]; simpl; [done|].
  destruct (isinstance_MixError e); [|done]. intros [= ?]. done.
Qed.

(** X29: when [checkPathLength] accepts a second leg without
    [suppressTag], [_getRouting] accepts that leg with any exit
    information that is at most 20 bytes longer than the one checked,
    so with the tag in front of it, as [_buildReplyBlockImpl] builds
    the header, and with the exit information itself, as
    [_buildPacket] does; with [suppressTag] the check does not look at
    the exit information at all. *)
Theorem checkPathLength_covers_header path2 exitType exitInfo explicitSwap info :
  (checkPathLength None (Some (inl path2)) (Some exitType) (Some exitInfo)
     explicitSwap false = Ok () →
   path2 ≠ [] →
   (len info ≤ len exitInfo + 20)%Z →
   is_Ok (_getRouting path2 exitType info) = true)
  ∧ ∀ path1 p2 et,
      checkPathLength path1 p2 et (Some exitInfo) explicitSwap true
      = checkPathLength path1 p2 et None explicitSwap true.
Proof.
  split; [|done].
  unfold checkPathLength. simpl. intros Hc Hne Hlen.
  destruct path2 as [|s path2]; [done|].
  destruct (except_MixError _ _) as [err|e] eqn:He; simpl in Hc; [|done].
  assert (err = 0%Z) as ->.
  { destruct (decide (err = 0%Z)) as [|Hn]; [done|].
    rewrite (bool_decide_eq_true_2 _ Hn) in Hc. simpl in Hc.
    destruct explicitSwap; simpl in Hc; [|done].
    by case_bool_decide. }
  apply except_MixError_no_error in He; [|done].
  eapply _getRouting_shorter; [|exact He].
  rewrite len_app. unfold len in *. simpl length. lia.
Qed.

End PathLengthFacts.

(** ** The size of what the builders return *)

Section PacketSizeFacts.
Context `{Crypto} `{!PKEncrypt} `{!ServerInfoAPI} `{!FragmentsAPI}
        `{PacketConsts} `{PacketFormat}.

Hypothesis lioness_encrypt_len : ∀ s k, len (lioness_encrypt s k) = len s.

Lemma _buildPacket_length payload exitType exitInfo path1 path2 paddingPRNG
    paranoia suppressTag w pkt w' :
  _buildPacket payload exitType exitInfo path1 path2 paddingPRNG paranoia
    suppressTag w = (Ok pkt, w') →
  len pkt = PACKET_LEN.
Proof.
  unfold _buildPacket. intros Hb.
  apply M_bind_Ok in Hb as ([] & w1 & _ & Hb).
  destruct path2 as [path2|reply].
  - destruct exitInfo as [exitInfo|]; [|done].
    apply M_bind_Ok in Hb as ([] & w2 & _ & Hb).
    apply M_bind_Ok in Hb as (et & w3 & _ & Hb).
    apply M_bind_Ok in Hb as ([] & w4 & _ & Hb).
    apply M_bind_Ok in Hb as ([] & w5 & _ & Hb).
    apply M_bind_Ok in Hb as (last1 & w6 & _ & Hb).
    apply M_bind_Ok in Hb as (first2 & w7 & _ & Hb).
    destruct (getRoutingFor last1 first2 true) as [rt ri].
    apply M_bind_Ok in Hb as (secrets1 & w8 & _ & Hb).
    apply M_bind_Ok in Hb as (secrets2 & w9 & _ & Hb).
    apply M_bind_Ok in Hb as (header2 & w10 & _ & Hb).
    apply M_bind_Ok in Hb as (header1 & w11 & _ & Hb).
    apply lift_Ok in Hb as [Hb _].
    by eapply (_constructMessage_Ok_length _ _ _ _ _ _ lioness_encrypt_len).
  - apply M_bind_Ok in Hb as ([] & w2 & _ & Hb).
    apply M_bind_Ok in Hb as (secrets1 & w3 & _ & Hb).
    apply M_bind_Ok in Hb as (header1 & w4 & _ & Hb).
    apply lift_Ok in Hb as [Hb _].
    by eapply (_constructMessage_Ok_length _ _ _ _ _ _ lioness_encrypt_len).
Qed.

Lemma M_fmap_Ok {A B} (f : A → B) (m : M A) w b w' :
  (f <$> m) w = (Ok b, w') → ∃ a, m w = (Ok a, w') ∧ b = f a.
Proof.
  unfold fmap, M_fmap. destruct (m w) as [[a|e] w1]; [|done].
  intros [= <- <-]. eauto.
Qed.

(** X30: as the block cipher keeps the length of what it encrypts,
    whatever [buildForwardPacket], [buildEncryptedForwardPacket] or
    [buildReplyPacket] return as a packet is 32768 bytes long; and
    [buildReplyPacket] makes no use of the [paddingPRNG] it is given. *)
Theorem built_packets_length payload exitType exitInfo path1 path2 key replyBlock
    paddingPRNG secretRNG suppressTag fuel w pkt w' :
  (buildForwardPacket payload exitType exitInfo path1 path2 paddingPRNG suppressTag w
   = (Ok pkt, w') → len pkt = PACKET_LEN)
  ∧ (buildEncryptedForwardPacket fuel payload exitType exitInfo path1 path2 key
       paddingPRNG secretRNG w = (Ok (Some pkt), w') → len pkt = PACKET_LEN)
  ∧ (buildReplyPacket payload path1 replyBlock paddingPRNG w = (Ok pkt, w') →
     len pkt = PACKET_LEN)
  ∧ buildReplyPacket payload path1 replyBlock paddingPRNG
    = buildReplyPacket payload path1 replyBlock None.
Proof.
  split; [|split; [|split; [|done]]].
  - unfold buildForwardPacket. intros Hb.
    case_bool_decide; [done|]. case_bool_decide; [done|].
    apply M_bind_Ok in Hb as ([] & w1 & _ & Hb).
    apply M_bind_Ok in Hb as (ei & w2 & _ & Hb).
    by eapply _buildPacket_length.
  - unfold buildEncryptedForwardPacket. intros Hb.
    apply M_bind_Ok in Hb as ([] & w1 & _ & Hb).
    apply M_bind_Ok in Hb as (sessionKey & w2 & _ & Hb).
    apply M_bind_Ok in Hb as (r & w3 & _ & Hb).
    destruct r as [encrypted|]; [|done].
    apply M_bind_Ok in Hb as ([] & w4 & _ & Hb).
    apply M_fmap_Ok in Hb as (pkt' & Hb & [= ->]).
    by eapply _buildPacket_length.
  - unfold buildReplyPacket. intros Hb.
    apply M_bind_Ok in Hb as ([] & w1 & _ & Hb).
    by eapply _buildPacket_length.
Qed.

End PacketSizeFacts.


(** ** The way back of a reply *)

Section ReplyRoundTrip.
Context `{Crypto} `{!PKEncrypt} `{!ServerInfoAPI} `{!FragmentsAPI}
        `{PacketConsts} `{PacketFormat} `{CommonAPI}.

(** What the proofs of this section ask of the block cipher: it keeps
    the length of what it encrypts, and encryption and decryption under
    one key undo each other. *)
Hypothesis lioness_encrypt_len : ∀ s k, len (lioness_encrypt s k) = len s.
Hypothesis lioness_decrypt_encrypt : ∀ s k, lioness_decrypt (lioness_encrypt s k) k = s.
Hypothesis lioness_encrypt_decrypt : ∀ s k, lioness_encrypt (lioness_decrypt s k) k = s.







Lemma encrypt_payload_for_app l1 l2 p :
  encrypt_payload_for (l1 ++ l2) p = encrypt_payload_for l2 (encrypt_payload_for l1 p).
Proof. revert p. induction l1 as [|s l1 IH]; intros p; simpl; [done|apply IH]. Qed.















End ReplyRoundTrip.

(** * The properties on the concrete instance *)

#[local] Existing Instances Sample.crypto Sample.pk Sample.consts Sample.format
  Sample.servers Sample.fragments Sample.env.

(** ** Payload decoding *)

Lemma decodePayload_wrong_length_witness :
  (len (lit "short") ≠ PAYLOAD_LEN ∨ (len (lit "tag") ≠ 0%Z ∧ len (lit "tag") ≠ TAG_LEN))
  ∧ decodePayload (lit "short") (lit "tag") None Sample.sample_keys (Some [])
    = (Raise (Exn MixError "Wrong payload length"), Some []).
Proof.
  split.
  - left. vm_compute. discriminate.
  - apply (decodePayload_wrong_length (lit "short") (lit "tag") None
             Sample.sample_keys (Some [])).
    left. vm_compute. discriminate.
Defined.

Lemma decodePayload_encrypted_forward_witness :
  decodePayload Sample.unchecked_payload Sample.undecryptable_tag (Some 256%Z)
    Sample.sample_keys (Some []) = (Ok None, Some [])
  ∧ decodePayload Sample.unchecked_payload Sample.efwd_tag (Some 256%Z)
      Sample.sample_keys (Some [])
    = (Raise (Exn MixError "Invalid checksum on encrypted forward payload"), Some [])
  ∧ decodePayload Sample.efwd_payload Sample.efwd_tag (Some 256%Z)
      Sample.sample_keys (Some [])
    = (Some <$> parsePayload (Sample.zeros 28436), Some []).
Proof.
  split; [|split].
  - refine (eq_trans (decodePayload_encrypted_forward _ _ _ _ _ _ _ _ _) _).
    + vm_compute; reflexivity.
    + vm_compute; reflexivity.
    + vm_compute; reflexivity.
    + repeat constructor.
    + vm_compute; reflexivity.
  - refine (eq_trans (decodePayload_encrypted_forward _ _ _ _ _ _ _ _ _) _).
    + vm_compute; reflexivity.
    + vm_compute; reflexivity.
    + vm_compute; reflexivity.
    + repeat constructor.
    + vm_compute; reflexivity.
  - refine (eq_trans (decodePayload_encrypted_forward _ _ _ _ _ _ _ _ _) _).
    + vm_compute; reflexivity.
    + vm_compute; reflexivity.
    + vm_compute; reflexivity.
    + repeat constructor.
    + vm_compute; reflexivity.
Defined.


(** ** The server side of MMTP *)

Lemma onDataRead_acknowledges_witness :
  onDataRead (Sample.connection true
                (JUNK_CONTROL ++ Sample.packet ++ Sample.junk_digest ++ lit "SEN"))
  = Some (mkConnection (lit "SEN") true
            [RECEIVED_CONTROL ++ sha1 (Sample.packet ++ lit "RECEIVED JUNK")]
            false [junkCallback])
  ∧ onDataRead (Sample.connection false
                  (SEND_CONTROL ++ Sample.packet ++ Sample.send_digest ++ []))
    = Some (mkConnection [] false
              [RECEIVED_CONTROL ++ sha1 (Sample.packet ++ lit "RECEIVED")]
              false [packetConsumer Sample.packet])
  ∧ onDataRead (Sample.connection true
                  (SEND_CONTROL ++ Sample.packet ++ Sample.send_digest ++ []))
    = Some (mkConnection [] true
              [REJECTED_CONTROL ++ sha1 (Sample.packet ++ lit "REJECTED")]
              false [rejectCallback]).
Proof.
  split; [|split].
  - refine (eq_trans
      (proj1 (proj2 (proj2 (proj2 (onDataRead_acknowledges
         (Sample.connection true _) JUNK_CONTROL Sample.packet Sample.junk_digest
         (lit "SEN") eq_refl _ _ _)))) eq_refl eq_refl) (onDataRead_wait _ _));
      vm_compute; reflexivity.
  - refine (eq_trans
      (proj1 (proj2 (proj2 (proj2 (proj2 (onDataRead_acknowledges
         (Sample.connection false _) SEND_CONTROL Sample.packet Sample.send_digest
         [] eq_refl _ _ _))))) eq_refl eq_refl eq_refl) (onDataRead_wait _ _));
      vm_compute; reflexivity.
  - refine (eq_trans
      (proj2 (proj2 (proj2 (proj2 (proj2 (onDataRead_acknowledges
         (Sample.connection true _) SEND_CONTROL Sample.packet Sample.send_digest
         [] eq_refl _ _ _))))) eq_refl eq_refl eq_refl) (onDataRead_wait _ _));
      vm_compute; reflexivity.
Defined.

Lemma reject_mode_only_for_SEND_witness :
  called (onDataRead_round
            (Sample.connection true
               (JUNK_CONTROL ++ Sample.packet ++ Sample.junk_digest ++ []))).1
  = [junkCallback]
  ∧ called (onDataRead_round
              (Sample.connection true
                 (SEND_CONTROL ++ Sample.packet ++ Sample.send_digest ++ []))).1
    = [rejectCallback].
Proof.
  split.
  - refine (proj2 (proj1 (reject_mode_only_for_SEND
      (Sample.connection true _) JUNK_CONTROL Sample.packet Sample.junk_digest []
      eq_refl _ _ _) eq_refl eq_refl eq_refl)); vm_compute; reflexivity.
  - refine (proj2 (proj2 (proj2 (reject_mode_only_for_SEND
      (Sample.connection true _) SEND_CONTROL Sample.packet Sample.send_digest []
      eq_refl _ _ _) (REJECTED_CONTROL ++ sha1 (Sample.packet ++ lit "REJECTED"))
      _ _))); vm_compute; reflexivity.
Defined.

(** ** The reactor *)

Lemma token_bucket_witness :
  (-5 ≤ 0)%Z
  ∧ maxBucket (setBandwidth (Some 100%Z) None Sample.overdrawn_server) = Some 500%Z
  ∧ tick Sample.overdrawn_server
    = mkServer None {[ 3%Z := 0%Z ]} {[ 3%Z := (1%Z, 0%Z) ]}
        (Some 100%Z) (Some 95%Z) (Some 500%Z)
  ∧ process 1000%Z Sample.all_ready Sample.overdrawn_server
    = (Returns, Sample.overdrawn_server, [Sleep 1000%Z])
  ∧ poll_process 1000%Z (Ready [(3%Z, 1%Z)]) Sample.overdrawn_server
    = (Returns, Sample.overdrawn_server, [Sleep 1000%Z]).
Proof.
  assert (Hb : (-5 ≤ 0)%Z) by lia.
  split; [exact Hb|].
  destruct (token_bucket 100 (-5) Sample.overdrawn_server None {[ 3%Z := 0%Z ]}
              {[ 3%Z := (1%Z, 0%Z) ]} 100 (Some (-5)%Z) 500 1000%Z
              Sample.all_ready (Ready [(3%Z, 1%Z)]) Hb eq_refl)
    as ((_ & Hm) & Ht & Hp & Hq).
  split; [exact Hm|]. split; [exact Ht|]. split; [exact Hp|exact Hq].
Defined.

(** With a bucket refilled by one tick the same reactor does reach
    [select] and lets the connection read. *)
Lemma refilled_server_selects :
  (process 1000%Z Sample.all_ready (tick Sample.overdrawn_server)).2
  = [Select [3%Z] [] [] 1000%Z; Process 3 1 0 0 (Some 95%Z)].
Proof. vm_compute. reflexivity. Qed.

(** ** Routing sizes *)

Lemma header_size_test_witness :
  unsupported_server [Sample.alice] = None
  ∧ total_size (routing_sizes [Sample.alice] 256 (Sample.zeros 1964)) = HEADER_LEN
  ∧ is_Ok (_getRouting [Sample.alice] 256 (Sample.zeros 1964)) = true
  ∧ total_size (routing_sizes [Sample.alice] 256 (Sample.zeros 1965))
    = (HEADER_LEN + 1)%Z
  ∧ _getRouting [Sample.alice] 256 (Sample.zeros 1965)
    = Raise (Exn MixError "Routing info won't fit in header")
  ∧ _buildHeader [Sample.alice] [Sample.secret_of 1] 256 (Sample.zeros 1965)
      CommonPRNG Sample.world0
    = (Raise (Exn MixError "Routing info won't fit in header"), Sample.world0).
Proof.
  assert (T1 : total_size (routing_sizes [Sample.alice] 256 (Sample.zeros 1964))
               = HEADER_LEN) by (vm_compute; reflexivity).
  assert (T2 : total_size (routing_sizes [Sample.alice] 256 (Sample.zeros 1965))
               = (HEADER_LEN + 1)%Z) by (vm_compute; reflexivity).
  assert (L1 : (ENC_SUBHEADER_LEN ≤ subheader_size (256%Z, Sample.zeros 1964))%Z)
    by (vm_compute; discriminate).
  destruct (header_size_test [Sample.alice] [Sample.secret_of 1] 256
              (Sample.zeros 1964) CommonPRNG Sample.world0 eq_refl eq_refl)
    as (_ & _ & Hok & Hfit & _).
  destruct (header_size_test [Sample.alice] [Sample.secret_of 1] 256
              (Sample.zeros 1965) CommonPRNG Sample.world0 eq_refl eq_refl)
    as (_ & Hbig & _ & _ & Hover).
  split; [reflexivity|]. split; [exact T1|].
  split; [by rewrite (proj1 (Hok (Hfit T1 L1)))|].
  split; [exact T2|]. exact (Hbig (Hover T2)).
Defined.

(** At the boundary the header is built, and is 2048 bytes long. *)
Lemma boundary_header_is_built :
  (len <$> (_buildHeader [Sample.alice] [Sample.secret_of 1] 256 (Sample.zeros 1964)
              CommonPRNG Sample.world0).1)
  = Ok 2048%Z.
Proof. vm_compute. reflexivity. Qed.

(** ** Message encoding *)

Lemma encodeMessage_single_witness :
  getNPacketsToEncode (Sample.zeros 28650) 0 [] = Ok 1%Z
  ∧ ∃ payload w', encodeMessage (Sample.zeros 28650) 0 [] None Sample.world0
                  = (Ok [payload], w').
Proof.
  apply (encodeMessage_single (Sample.zeros 28650) 0 [] None Sample.world0
           eq_refl I).
  vm_compute. discriminate.
Defined.

Lemma encodeMessage_fragmented_witness :
  getNPacketsToEncode (Sample.zeros 28651) 0 [] = Ok 3%Z
  ∧ ∃ payloads,
      encodeMessage (Sample.zeros 28651) 0 [] None Sample.world0
      = (Ok payloads, Sample.world_at 20)
      ∧ length payloads = 3.
Proof.
  pose proof (encodeMessage_fragmented (Sample.zeros 28651) 0 [] None
                Sample.world0 (Sample.count_bytes 0 20).1 (Sample.world_at 20)
                eq_refl) as Hf.
  assert (Hp : new_FragmentationParams
                 (len ([] ++ compressData (Sample.zeros 28651))) 0
               = Ok (Sample.mkParams 28651 28625 2 3 1))
    by (vm_compute; reflexivity).
  rewrite Hp in Hf.
  destruct Hf as [Hn Hraw]; [vm_compute; reflexivity|vm_compute; reflexivity|].
  split; [exact Hn|].
  destruct (Hraw (Sample.fragments_of (Sample.mkParams 28651 28625 2 3 1)
                    (Sample.zeros 28651))
              (Sample.world_at 20) eq_refl)
    as (payloads & He & Hlen & _).
  exists payloads. split; [exact He|]. rewrite Hlen. vm_compute. reflexivity.
Defined.

(** One byte over the limit makes three packets of 28672 bytes with the
    stand-in for [mixminion.Fragments]. *)
Lemma one_byte_more_makes_three :
  (fmap (M:=list) len <$> (encodeMessage (Sample.zeros 28651) 0 [] None Sample.world0).1)
  = Ok [28672; 28672; 28672]%Z.
Proof. vm_compute. reflexivity. Qed.

(** ** The server side of MMTP: closing, and whole buffers *)

Lemma onDataRead_unrecognized_command_witness :
  ∃ c', onDataRead (Sample.connection false
                      ((lit "QUIT" ++ CRLF) ++ Sample.packet ++ Sample.junk_digest
                       ++ lit "JUNK"))
        = Some c'
    ∧ shutdown_started c' = true ∧ written c' = [] ∧ called c' = []
    ∧ inbuf c' = lit "JUNK".
Proof.
  apply (onDataRead_unrecognized_command (Sample.connection false _)
           (lit "QUIT" ++ CRLF) Sample.packet Sample.junk_digest (lit "JUNK") eq_refl).
  - vm_compute; reflexivity.
  - vm_compute; reflexivity.
  - vm_compute; reflexivity.
  - vm_compute; discriminate.
  - vm_compute; discriminate.
Defined.

Lemma onDataRead_invalid_checksum_witness :
  ∃ c', onDataRead (Sample.connection true
                      (SEND_CONTROL ++ Sample.packet ++ Sample.junk_digest ++ []))
        = Some c'
    ∧ shutdown_started c' = true ∧ written c' = [] ∧ called c' = []
    ∧ inbuf c' = [].
Proof.
  apply (onDataRead_invalid_checksum (Sample.connection true _)
           SEND_CONTROL Sample.packet Sample.junk_digest [] eq_refl).
  - vm_compute; reflexivity.
  - vm_compute; reflexivity.
  - vm_compute; reflexivity.
  - right. split; [reflexivity|]. vm_compute; discriminate.
Defined.

Lemma sample_sha1_len (s : bytes) : len (sha1 s) = DIGEST_LEN.
Proof. reflexivity. Qed.

Lemma onDataRead_stream_witness :
  onDataRead (Sample.connection true
                (concat (wire <$> [SentJunk Sample.packet; SentPacket Sample.packet])
                 ++ lit "SEN"))
  = Some (mkConnection (lit "SEN") true
            [RECEIVED_CONTROL ++ sha1 (Sample.packet ++ lit "RECEIVED JUNK");
             REJECTED_CONTROL ++ sha1 (Sample.packet ++ lit "REJECTED")]
            false [junkCallback; rejectCallback]).
Proof.
  apply (onDataRead_stream (Sample.connection true _)
           [SentJunk Sample.packet; SentPacket Sample.packet] (lit "SEN")
           sample_sha1_len).
  - repeat constructor.
  - reflexivity.
  - vm_compute; reflexivity.
Defined.


(** ** The tables of the reactor *)

#[local] Existing Instance Sample.aging.

Lemma register_then_remove_witness :
  remove 7%Z None (register 7%Z Sample.overdrawn_server)
  = (Returns, Sample.overdrawn_server).
Proof.
  refine (proj2 (proj2 (proj2 (register_then_remove (H:=Sample.env) 7%Z 1 0 true
            Sample.overdrawn_server eq_refl _ _) eq_refl))).
  - vm_compute; reflexivity.
  - vm_compute; reflexivity.
Defined.

Lemma sample_servers_agree :
  tables_agree Sample.overdrawn_server ∧ tables_agree Sample.unlimited_server.
Proof.
  split; vm_compute; reflexivity.
Qed.

Lemma remove_all_or_nothing_witness :
  remove 7%Z None Sample.overdrawn_server = (Raises "KeyError", Sample.overdrawn_server)
  ∧ ∃ s', remove 7%Z (Some 3%Z) Sample.overdrawn_server = (Returns, s')
      ∧ connections s' = delete 3%Z (connections Sample.overdrawn_server)
      ∧ state s' = delete 3%Z (state Sample.overdrawn_server)
      ∧ tables_agree s'.
Proof.
  split.
  - apply (proj1 (remove_all_or_nothing (H:=Sample.env) 7%Z None Sample.overdrawn_server
                    (proj1 sample_servers_agree))).
    vm_compute; reflexivity.
  - apply (proj2 (remove_all_or_nothing (H:=Sample.env) 7%Z (Some 3%Z) Sample.overdrawn_server
                    (proj1 sample_servers_agree))).
    vm_compute. eauto.
Defined.


Lemma tick_refills_witness :
  Nat.iter 7 tick Sample.overdrawn_server
  = mkServer None {[ 3%Z := 0%Z ]} {[ 3%Z := (1%Z, 0%Z) ]}
      (Some 100%Z) (Some 500%Z) (Some 500%Z).
Proof.
  refine (eq_trans (tick_refills (H:=Sample.env) 7 None {[ 3%Z := 0%Z ]} {[ 3%Z := (1%Z, 0%Z) ]}
                      100 (-5) 500 _ _) _).
  - lia.
  - lia.
  - reflexivity.
Defined.

Lemma process_unlimited_witness :
  bucket (process 1000%Z Sample.all_ready Sample.unlimited_server).1.2 = None
  ∧ (process 1000%Z Sample.all_ready Sample.unlimited_server).2
    = [Select [3%Z; 4%Z] [] [] 1000%Z; Process 3 1 0 0 None; Process 4 1 0 0 None].
Proof.
  split; [|vm_compute; reflexivity].
  refine (proj1 (process_unlimited (H:=Sample.env) 1000%Z Sample.all_ready
                   Sample.unlimited_server
                   (process 1000%Z Sample.all_ready Sample.unlimited_server).1.1
                   (process 1000%Z Sample.all_ready Sample.unlimited_server).1.2
                   (process 1000%Z Sample.all_ready Sample.unlimited_server).2
                   eq_refl _)).
  by destruct (process _ _ _) as [[e s'] effs].
Defined.

Lemma process_nothing_wanted_witness :
  process 1000%Z Sample.all_ready Sample.idle_server
  = (Returns, Sample.idle_server, [Sleep 1000%Z]).
Proof.
  apply (process_nothing_wanted (H:=Sample.env) 1000%Z Sample.all_ready Sample.idle_server).
  intros fd st Hl. simpl in Hl. apply lookup_singleton_Some in Hl as [_ <-].
  reflexivity.
Defined.

Lemma select_dispatch_charges_witness :
  bucket (select_dispatch [(0%Z, 1%Z, 0%Z, 3%Z)] (Some 95%Z)
            (tick Sample.overdrawn_server)).1.2
  = Some 0%Z.
Proof.
  refine (eq_trans (select_dispatch_charges (H:=Sample.env) [(0%Z, 1%Z, 0%Z, 3%Z)] 95%Z
                      (tick Sample.overdrawn_server) _
                      [Process 3 1 0 0 (Some 95%Z)] _) _).
  - vm_compute; reflexivity.
  - vm_compute; reflexivity.
Defined.

Lemma poll_register_then_remove_witness :
  ∃ s1, poll_register 7%Z Sample.overdrawn_server = (Returns, s1, [PollRegister 7 9])
    ∧ connections s1 !! 7%Z = Some 7%Z
    ∧ poll_remove 7%Z None s1 = (Returns, Sample.overdrawn_server, [PollUnregister 7]).
Proof.
  apply (poll_register_then_remove (H:=Sample.env) 7%Z 1 0 9 Sample.overdrawn_server eq_refl eq_refl).
  vm_compute; reflexivity.
Defined.

Lemma tryTimeout_keeps_tables_witness :
  ∃ s', tryTimeout (Some 100%Z) 0%Z Sample.unlimited_server = (Returns, s')
    ∧ tables_agree s'
    ∧ (3%Z ∉ dom (connections s')) ∧ 4%Z ∈ dom (connections s').
Proof.
  destruct (tryTimeout_keeps_tables (H:=Sample.env) (Some 100%Z) 0%Z Sample.unlimited_server
              (proj2 sample_servers_agree)) as (s' & Hd & Ha & _ & Hdom).
  exists s'. split; [exact Hd|]. split; [exact Ha|].
  specialize (Hdom 60%Z eq_refl). split.
  - intros (c & Hc & Hok)%Hdom. vm_compute in Hc. injection Hc as <-.
    vm_compute in Hok. discriminate.
  - apply Hdom. exists 500%Z. split; vm_compute; reflexivity.
Defined.


(** ** Tags, the retry loop and the head of a header *)

Lemma sample_rng_len (st : rng_state) (n : Z) :
  (0 ≤ n)%Z → len (rng_getBytes st n).1 = n.
Proof.
  intros Hn. simpl. unfold len. rewrite length_fmap, length_seq. lia.
Qed.

Lemma sample_lioness_len (s : bytes) (k : lioness_keys) :
  len (lioness_encrypt s k) = len s.
Proof. simpl. unfold Sample.shift, len. by rewrite length_fmap. Qed.

Lemma _getRandomTag_msb_clear_witness :
  _getRandomTag CommonPRNG (Sample.world_at 200)
  = (Ok ("H"%byte :: (Sample.count_bytes 201 19).1), Sample.world_at 220)
  ∧ msb_clear ("H"%byte :: (Sample.count_bytes 201 19).1)
  ∧ len ("H"%byte :: (Sample.count_bytes 201 19).1) = TAG_LEN.
Proof.
  assert (Ht : _getRandomTag CommonPRNG (Sample.world_at 200)
               = (Ok ("H"%byte :: (Sample.count_bytes 201 19).1), Sample.world_at 220))
    by (apply run_eq; vm_compute; reflexivity).
  split; [exact Ht|].
  destruct (_getRandomTag_msb_clear (H:=Sample.crypto) CommonPRNG _ _ _ Ht)
    as [Hm Hl].
  split; [exact Hm|]. apply Hl, sample_rng_len.
Defined.

(** Started at 254 the counting generator gives two ciphertexts with
    the bit set before one with the bit clear. *)
Lemma encrypt_until_msb_clear_result_witness :
  encrypt_until_msb_clear 3 (lit "hello") 256%Z (Sample.world_at 254)
  = (Ok (Some Sample.hello_block), Sample.world_at 257)
  ∧ msb_clear Sample.hello_block
  ∧ encrypt_until_msb_clear 10 (lit "hello") 256%Z (Sample.world_at 254)
    = (Ok (Some Sample.hello_block), Sample.world_at 257).
Proof.
  assert (Hl : encrypt_until_msb_clear 3 (lit "hello") 256%Z (Sample.world_at 254)
               = (Ok (Some Sample.hello_block), Sample.world_at 257))
    by (apply run_eq; vm_compute; reflexivity).
  split; [exact Hl|].
  destruct (encrypt_until_msb_clear_result (H:=Sample.crypto) 3 _ _ _ _ _ Hl)
    as (Hm & _ & Hk).
  split; [exact Hm|exact (Hk 7)].
Defined.

(** The loop needs three rounds there, and two are not enough. *)
Lemma encrypt_until_msb_clear_retries_witness :
  encrypt_until_msb_clear 3 (lit "hello") 256%Z (Sample.world_at 254)
  = encrypt_until_msb_clear 2 (lit "hello") 256%Z (Sample.world_at 255)
  ∧ (encrypt_until_msb_clear 2 (lit "hello") 256%Z (Sample.world_at 254)).1 = Ok None.
Proof.
  split; [|vm_compute; reflexivity].
  refine (proj1 (encrypt_until_msb_clear_retries (H:=Sample.crypto) 2 (lit "hello")
                   256%Z (Sample.world_at 254)
                   (xfe :: Sample.u16 5 ++ lit "hello" ++ Sample.zeros 248)
                   (Sample.world_at 255) _) _).
  - apply run_eq; vm_compute; reflexivity.
  - exists xfe, (Sample.u16 5 ++ lit "hello" ++ Sample.zeros 248).
    split; [reflexivity|]. vm_compute. discriminate.
Defined.

Lemma _buildHeader_opens_with_ciphertext_witness :
  ∃ rsaPart w1 esh rest,
    pk_encrypt rsaPart (getPacketKey Sample.alice) w1 = (Ok esh, Sample.world_at 201)
    ∧ Sample.value_of
        (_buildHeader [Sample.alice] [Sample.secret_of 1] 256 (Sample.zeros 1964)
           CommonPRNG (Sample.world_at 200)).1
      = esh ++ rest.
Proof.
  apply (_buildHeader_opens_with_ciphertext (H:=Sample.crypto) Sample.alice []
           [Sample.secret_of 1] 256 (Sample.zeros 1964) CommonPRNG
           (Sample.world_at 200)).
  apply run_eq; vm_compute; reflexivity.
Defined.

(** With the common generator at 200 that header opens with the byte
    200, whose most significant bit is set. *)
Lemma header_may_open_with_set_bit :
  head <$> (_buildHeader [Sample.alice] [Sample.secret_of 1] 256 (Sample.zeros 1964)
              CommonPRNG (Sample.world_at 200)).1
  = Ok (Some xc8).
Proof. vm_compute. reflexivity. Qed.

Lemma _constructMessage_length_witness :
  ∃ pkt, _constructMessage [Sample.secret_of 1] (Some [Sample.secret_of 2])
           (Sample.zeros 2048) (Sample.zeros 2048) (Sample.zeros 28672) = Ok pkt
    ∧ len pkt = PACKET_LEN
    ∧ slice pkt None (Some HEADER_LEN) = Sample.zeros 2048.
Proof.
  apply (proj1 (_constructMessage_length (H:=Sample.crypto) [Sample.secret_of 1]
                  (Some [Sample.secret_of 2]) (Sample.zeros 2048) (Sample.zeros 2048)
                  (Sample.zeros 28672) sample_lioness_len)).
  split; [|split]; vm_compute; reflexivity.
Defined.

(** ** Which ciphertexts are encrypted again *)

(** The stand-in for [pk_encrypt] opens its ciphertext with the byte it
    draws from the common generator. *)
Lemma sample_pk_encrypt_head rsaPart key w esh w' :
  pk_encrypt rsaPart key w = (Ok esh, w') →
  ∃ rest, esh = Sample.byte_of_Z (w_common w) :: rest.
Proof.
  simpl. unfold Sample.frame. destruct (_ <? _)%Z; [done|]. simpl.
  intros [= <- _]. rewrite Z.add_0_r. eauto.
Qed.

(** With the common generator at 200, [_buildHeader] builds the header
    for the path [alice] with one call of [pk_encrypt], and the
    ciphertext of that call, the encrypted subheader, opens with the
    byte 200: its most significant bit is set, and nothing encrypts
    again. *)
Lemma subheader_msb_set :
  ∃ header rsaPart w1 esh rest,
    _buildHeader [Sample.alice] [Sample.secret_of 1] 256 (Sample.zeros 1964)
      CommonPRNG (Sample.world_at 200)
    = (Ok header, Sample.world_at 201)
    ∧ pk_encrypt rsaPart (getPacketKey Sample.alice) w1 = (Ok esh, Sample.world_at 201)
    ∧ header = esh ++ rest
    ∧ msb_set esh ∧ ¬ msb_clear esh.
Proof.
  assert (Hrun : _buildHeader [Sample.alice] [Sample.secret_of 1] 256
                   (Sample.zeros 1964) CommonPRNG (Sample.world_at 200)
                 = (Ok (Sample.value_of
                          (_buildHeader [Sample.alice] [Sample.secret_of 1] 256
                             (Sample.zeros 1964) CommonPRNG (Sample.world_at 200)).1),
                    Sample.world_at 201))
    by (apply run_eq; vm_compute; reflexivity).
  assert (Hhead : head (Sample.value_of
                          (_buildHeader [Sample.alice] [Sample.secret_of 1] 256
                             (Sample.zeros 1964) CommonPRNG (Sample.world_at 200)).1)
                  = Some xc8)
    by (vm_compute; reflexivity).
  destruct (_buildHeader_last_hop (H:=Sample.crypto) _ _ _ _ _ _ _ _ _ Hrun)
    as (routing & hk & js & h1 & w1 & Hhop).
  apply _buildHeader_hop_one_call in Hhop
    as (info & rsaPart & esh & rest & Hi & Hpk & Heq).
  injection Hi as <-.
  destruct (sample_pk_encrypt_head _ _ _ _ _ Hpk) as [tl ->].
  rewrite Heq in Hhead. injection Hhead as Hb.
  assert (Hset : msb_set (Sample.byte_of_Z (w_common w1) :: tl)).
  { exists (Sample.byte_of_Z (w_common w1)), tl. split; [done|].
    rewrite Hb. vm_compute. discriminate. }
  eexists _, rsaPart, w1, _, rest.
  split; [exact Hrun|]. split; [exact Hpk|]. split; [exact Heq|].
  split; [exact Hset|by apply msb_set_not_clear].
Qed.

(** Started at 238 the common generator gives the session key and then
    two ciphertexts with the bit set before one with the bit clear:
    [buildEncryptedForwardPacket] returns a packet after three rounds,
    and not after two. *)
Lemma retry_only_for_session_key_witness :
  (∃ sessionKey w1 encrypted w2,
     encrypt_until_msb_clear 3
       (slice (sessionKey ++ Sample.zeros 28634) None
          (Some (get_modulus_bytes 256%Z - OAEP_OVERHEAD)%Z))
       256%Z w1
     = (Ok (Some encrypted), w2)
     ∧ msb_clear encrypted)
  ∧ (buildEncryptedForwardPacket 2 (Sample.zeros 28634) 256 (lit "addr")
       [Sample.alice] [Sample.bob] 256%Z None None (Sample.world_at 238)).1
    = Ok None.
Proof.
  split; [|vm_compute; reflexivity].
  assert (Hok : match (buildEncryptedForwardPacket 3 (Sample.zeros 28634) 256
                         (lit "addr") [Sample.alice] [Sample.bob] 256%Z None None
                         (Sample.world_at 238)).1 with
                | Ok (Some _) => true
                | _ => false
                end = true) by (vm_compute; reflexivity).
  apply run_Ok_Some in Hok as [pkt Hb].
  destruct (proj1 (retry_only_for_session_key (H:=Sample.crypto))
              _ _ _ _ _ _ _ _ _ _ _ _ Hb)
    as (sessionKey & w1 & encrypted & w2 & Hl & Hm & _).
  exists sessionKey, w1, encrypted, w2. split; [exact Hl|exact Hm].
Defined.

(** ** More on payload decoding *)

Lemma decodePayload_forward_witness :
  decodePayload Sample.checked_payload [] (Some 256%Z) Sample.sample_keys (Some [])
  = (Some <$> parsePayload Sample.checked_payload, Some []).
Proof.
  refine (proj1 (decodePayload_forward (H:=Sample.crypto) Sample.checked_payload []
                   (Some 256%Z) Sample.sample_keys (Some []) _ _ _)).
  - vm_compute; reflexivity.
  - left. reflexivity.
  - vm_compute; reflexivity.
Defined.

Lemma decodePayload_no_tag_witness :
  decodePayload Sample.unchecked_payload [] (Some 256%Z) Sample.sample_keys (Some [])
  = (Ok None, Some []).
Proof.
  apply (decodePayload_no_tag (H:=Sample.crypto)).
  - vm_compute; reflexivity.
  - vm_compute; reflexivity.
Defined.

Lemma decodePayload_reply_names_key_witness :
  decodePayload Sample.reply_payload Sample.validated_tag (Some 256%Z)
    (UserKeys_Seq [(""%string, lit "other"); ("nym"%string, lit "key");
                   ("late"%string, lit "key")]) (Some ["seen"%string])
  = (Ok (Some Sample.empty_message), Some ["seen"%string; "nym"%string]).
Proof.
  apply (decodePayload_reply_names_key (H:=Sample.crypto) Sample.reply_payload
           Sample.validated_tag (Some 256%Z) [(""%string, lit "other")] "nym"
           (lit "key") [("late"%string, lit "key")] (Some ["seen"%string])
           Sample.empty_message).
  - vm_compute; reflexivity.
  - vm_compute; reflexivity.
  - vm_compute; reflexivity.
  - constructor; [vm_compute; reflexivity|constructor].
  - vm_compute; reflexivity.
  - vm_compute; reflexivity.
Defined.

Lemma _decodeReplyPayload_first_match_witness :
  ∃ n, 0 < n ≤ length Sample.reply_secrets
    ∧ _checkPayload (encrypt_payload_for (take n Sample.reply_secrets)
                       Sample.reply_payload) = Ok true
    ∧ parsePayload (encrypt_payload_for (take n Sample.reply_secrets)
                      Sample.reply_payload) = Ok Sample.empty_message
    ∧ ∀ m, 0 < m < n →
        _checkPayload (encrypt_payload_for (take m Sample.reply_secrets)
                         Sample.reply_payload) = Ok false.
Proof.
  apply (_decodeReplyPayload_first_match (H:=Sample.crypto)).
  vm_compute; reflexivity.
Defined.

(** There the checksum holds after the second secret, not after the
    first. *)
Lemma reply_payload_matches_second :
  (λ n, _checkPayload (encrypt_payload_for (take n Sample.reply_secrets)
                         Sample.reply_payload)) <$> [1; 2]
  = [Ok false; Ok true].
Proof. vm_compute. reflexivity. Qed.


(** ** Reply blocks *)

#[local] Existing Instance Sample.common.

Lemma buildReplyBlock_rederivable_witness :
  ∃ seed,
    last (w_status
            (buildReplyBlock 40 [Sample.alice; Sample.bob] 256 (lit "addr")
               (lit "kex") (Some 0%Z) None Sample.world0).2)
    = Some ("GENERATED_SURB"%string, formatBase64 seed)
    ∧ validate_test seed (lit "kex") = Ok true
    ∧ msb_clear seed
    ∧ (getBytes_n
         (AESCounterPRNG
            (slice (sha1 (seed ++ lit "kex" ++ lit "Generate")) None (Some 16%Z)))
         17 SECRET_LEN).1 !! length [Sample.alice; Sample.bob]
      = Some (rb_encryptionKey
                (Sample.block_of
                   (buildReplyBlock 40 [Sample.alice; Sample.bob] 256 (lit "addr")
                      (lit "kex") (Some 0%Z) None Sample.world0).1))
    ∧ rb_routingType
        (Sample.block_of
           (buildReplyBlock 40 [Sample.alice; Sample.bob] 256 (lit "addr")
              (lit "kex") (Some 0%Z) None Sample.world0).1)
      = SWAP_FWD_HOST_TYPE.
Proof.
  apply (buildReplyBlock_rederivable (H:=Sample.crypto) 40 [Sample.alice; Sample.bob]
           256 (lit "addr") (lit "kex") (Some 0%Z) None Sample.world0).
  - apply run_value. vm_compute. reflexivity.
  - simpl. lia.
Defined.


(** ** The path length check and the size of packets *)

Lemma checkPathLength_covers_header_witness :
  checkPathLength None (Some (inl [Sample.alice; Sample.bob])) (Some 256%Z)
    (Some (lit "addr")) false false = Ok ()
  ∧ is_Ok (_getRouting [Sample.alice; Sample.bob] 256
             (Sample.validated_tag ++ lit "addr")) = true.
Proof.
  assert (Hc : checkPathLength None (Some (inl [Sample.alice; Sample.bob]))
                 (Some 256%Z) (Some (lit "addr")) false false = Ok ())
    by (vm_compute; reflexivity).
  split; [exact Hc|].
  apply (proj1 (checkPathLength_covers_header (H:=Sample.crypto)
                  [Sample.alice; Sample.bob] 256 (lit "addr") false
                  (Sample.validated_tag ++ lit "addr")) Hc).
  - discriminate.
  - vm_compute. discriminate.
Defined.

Lemma built_packets_length_witness :
  ∃ pkt,
    buildForwardPacket (Sample.zeros 28672) 256 (lit "addr") [Sample.alice]
      [Sample.bob] None false Sample.world0
    = (Ok pkt,
       (buildForwardPacket (Sample.zeros 28672) 256 (lit "addr") [Sample.alice]
          [Sample.bob] None false Sample.world0).2)
    ∧ len pkt = PACKET_LEN.
Proof.
  assert (Hok : is_Ok (buildForwardPacket (Sample.zeros 28672) 256 (lit "addr")
                         [Sample.alice] [Sample.bob] None false Sample.world0).1
                = true) by (vm_compute; reflexivity).
  apply run_Ok in Hok as [pkt Hr].
  exists pkt. split; [exact Hr|].
  exact (proj1 (built_packets_length (H:=Sample.crypto) sample_lioness_len
                  (Sample.zeros 28672) 256 (lit "addr") [Sample.alice] [Sample.bob]
                  256%Z (mkReplyBlock [] 0 0 [] []) None None false 0
                  Sample.world0 pkt _) Hr).
Defined.

(** ** The way back of a reply *)








